(** * A text adventure: items, characters, combat, board population

    Shallow embedding of the game's C++ sources (items.hpp, characters.hpp,
    characters.cpp, board.hpp, board.cpp, main.cpp, ItemsDB.h).

    Conventions of the embedding.
    - A C++ [int] is a [Z].  Signed overflow is undefined behaviour in C++,
      so the development describes the executions in which no intermediate
      value leaves the range of [int].
    - A [float] is only ever stored and compared in the modelled code, never
      computed with; it is represented by the rational number it denotes
      ([Q]) and compared with the order of [Q].
    - A [shared_ptr] to an immutable item is the item itself; a null pointer
      is [None].  The dynamic type of the pointee is the constructor of the
      sum type that stands for the pointer's static type.
    - Console output is not modelled, except for the events a statement is
      about. *)

From Stdlib Require Import ZArith QArith String Ascii List Lia Bool.
From stdpp Require Import base list.

Local Open Scope string_scope.
Local Open Scope list_scope.
Local Open Scope Z_scope.

(** ** items.hpp *)

(** [class Item]: the base class; it has no pure virtual member, so an
    object whose dynamic type is [Item] itself can be created. *)
Record Item := mkItem {
  item_name : string;
  weight : Z
}.

(** [class Weapon : public Item]. *)
Record Weapon := mkWeapon {
  weapon_item : Item;
  attack_inc : Z
}.

(** [class Armour : public Item]. *)
Record Armour := mkArmour {
  armour_item : Item;
  defence_inc : Z;
  attack_dec : Z
}.

(** [class Shield : public Armour]: no member of its own. *)
Record Shield := mkShield {
  shield_armour : Armour
}.

(** [class Ring : public Item]. *)
Record Ring := mkRing {
  ring_item : Item;
  ring_health : Z;
  strength_inc : Z
}.

(** The constructors of the source, [Weapon(n, w, atk)] and so on. *)
Definition new_Weapon (n : string) (w atk : Z) : Weapon :=
  mkWeapon (mkItem n w) atk.
Definition new_Armour (n : string) (w def atk : Z) : Armour :=
  mkArmour (mkItem n w) def atk.
Definition new_Shield (n : string) (w def atk : Z) : Shield :=
  mkShield (new_Armour n w def atk).
Definition new_Ring (n : string) (w hel str : Z) : Ring :=
  mkRing (mkItem n w) hel str.

(** What a [shared_ptr<Item>] can point to: an object of class [Item] or of
    one of the classes derived from it. *)
Inductive ItemPtr :=
| PtrItem (i : Item)
| PtrWeapon (w : Weapon)
| PtrArmour (a : Armour)
| PtrShield (s : Shield)
| PtrRing (r : Ring).

(** What a [shared_ptr<Armour>] can point to: an [Armour] or a [Shield]. *)
Inductive ArmourPtr :=
| AnArmour (a : Armour)
| AShield (s : Shield).

(** The [Armour] subobject seen through a [shared_ptr<Armour>]. *)
Definition armour_of (p : ArmourPtr) : Armour :=
  match p with
  | AnArmour a => a
  | AShield s => shield_armour s
  end.

(** The [Item] subobject seen through a [shared_ptr<Item>]. *)
Definition item_of (p : ItemPtr) : Item :=
  match p with
  | PtrItem i => i
  | PtrWeapon w => weapon_item w
  | PtrArmour a => armour_item a
  | PtrShield s => armour_item (shield_armour s)
  | PtrRing r => ring_item r
  end.

(** [dynamic_pointer_cast<T>(item)]: non-null exactly when the dynamic type
    of the pointee is [T] or derives from [T]. *)
Definition dynamic_pointer_cast_Weapon (p : ItemPtr) : option Weapon :=
  match p with PtrWeapon w => Some w | _ => None end.

Definition dynamic_pointer_cast_Armour (p : ItemPtr) : option ArmourPtr :=
  match p with
  | PtrArmour a => Some (AnArmour a)
  | PtrShield s => Some (AShield s)
  | _ => None
  end.

Definition dynamic_pointer_cast_Shield (p : ItemPtr) : option Shield :=
  match p with PtrShield s => Some s | _ => None end.

Definition dynamic_pointer_cast_Ring (p : ItemPtr) : option Ring :=
  match p with PtrRing r => Some r | _ => None end.

(** ** ItemsDB.h *)

Definition Sword : Weapon := new_Weapon "Sword" 10 10.
Definition Dagger : Weapon := new_Weapon "Dagger" 5 5.
Definition PlateArmor : Armour := new_Armour "Plate Armor" 40 10 5.
Definition LeatherArmor : Armour := new_Armour "Leather Armor" 20 5 0.
Definition LargeShield : Shield := new_Shield "Large Shield" 30 10 5.
Definition SmallShield : Shield := new_Shield "Small Shield" 10 5 0.
Definition RingOfLife : Ring := new_Ring "Ring of Life" 1 10 0.
Definition RingOfStrength : Ring := new_Ring "Ring of Strength" 1 (-10) 50.

(** ** characters.hpp *)

(** The dynamic type of a character object.  [Orc] has one more member than
    the base class, its own [isNight] flag.  The [race] string set by each
    constructor is the name of the class. *)
Inductive Race :=
| Human
| Elf
| Dwarf
| Hobbit
| Orc (orc_isNight : bool).

Definition race_name (r : Race) : string :=
  match r with
  | Human => "Human"
  | Elf => "Elf"
  | Dwarf => "Dwarf"
  | Hobbit => "Hobbit"
  | Orc _ => "Orc"
  end.

(** [class Character].  The member [item], a scratch pointer that no member
    function reads or writes, is left out. *)
Record Character := mkCharacter {
  name : string;
  race : Race;
  attack : Z;
  attack_chance : Q;
  defence : Z;
  defence_chance : Q;
  health : Z;
  strength : Z;
  weapon : option Weapon;
  armor : option ArmourPtr;
  shield : option Shield;
  ring : list Ring;
  inventory : list ItemPtr
}.

Definition set_health (h : Z) (c : Character) : Character :=
  mkCharacter (name c) (race c) (attack c) (attack_chance c) (defence c)
    (defence_chance c) h (strength c) (weapon c) (armor c) (shield c)
    (ring c) (inventory c).

Definition set_weapon (w : option Weapon) (c : Character) : Character :=
  mkCharacter (name c) (race c) (attack c) (attack_chance c) (defence c)
    (defence_chance c) (health c) (strength c) w (armor c) (shield c)
    (ring c) (inventory c).

Definition set_armor (a : option ArmourPtr) (c : Character) : Character :=
  mkCharacter (name c) (race c) (attack c) (attack_chance c) (defence c)
    (defence_chance c) (health c) (strength c) (weapon c) a (shield c)
    (ring c) (inventory c).

Definition set_shield (s : option Shield) (c : Character) : Character :=
  mkCharacter (name c) (race c) (attack c) (attack_chance c) (defence c)
    (defence_chance c) (health c) (strength c) (weapon c) (armor c) s
    (ring c) (inventory c).

Definition set_ring (rs : list Ring) (c : Character) : Character :=
  mkCharacter (name c) (race c) (attack c) (attack_chance c) (defence c)
    (defence_chance c) (health c) (strength c) (weapon c) (armor c)
    (shield c) rs (inventory c).

Definition set_inventory (inv : list ItemPtr) (c : Character) : Character :=
  mkCharacter (name c) (race c) (attack c) (attack_chance c) (defence c)
    (defence_chance c) (health c) (strength c) (weapon c) (armor c)
    (shield c) (ring c) inv.

(** The constructor [Character(n, r, a, ac, d, dc, h, s)]: every pointer
    member starts null and both vectors start empty. *)
Definition new_Character (n : string) (r : Race) (a : Z) (ac : Q) (d : Z)
    (dc : Q) (h s : Z) : Character :=
  mkCharacter n r a ac d dc h s None None None [] [].

(** The [float] nearest to the [double] quotients [2.0/3.0] and [1.0/3.0];
    [1.0/2.0], [1.0/4.0] and [1.0/1.0] are exact. *)
Definition float_two_thirds : Q := 11184811 # 16777216.
Definition float_one_third : Q := 11184811 # 33554432.

Definition new_Human (n : string) : Character :=
  new_Character n Human 30 float_two_thirds 20 (1 # 2) 60 100.
Definition new_Elf (n : string) : Character :=
  new_Character n Elf 40 1 10 (1 # 4) 40 70.
Definition new_Dwarf (n : string) : Character :=
  new_Character n Dwarf 30 float_two_thirds 20 float_two_thirds 50 130.
Definition new_Hobbit (n : string) : Character :=
  new_Character n Hobbit 25 float_one_third 20 float_two_thirds 70 85.
Definition new_Orc (n : string) : Character :=
  new_Character n (Orc false) 25 (1 # 4) 10 (1 # 4) 50 130.

(** *** The derived totals

    Each getter starts from a base value, adjusts it for the occupied
    slots and then runs over the [ring] vector, adding to the running
    total; the loops are left folds. *)

Definition getCurrentWeight (c : Character) : Z :=
  let total := 0 in
  let total :=
    match weapon c with
    | Some w => total + weight (weapon_item w)
    | None => total
    end in
  let total :=
    match armor c with
    | Some a => total + weight (armour_item (armour_of a))
    | None => total
    end in
  let total :=
    match shield c with
    | Some s => total + weight (armour_item (shield_armour s))
    | None => total
    end in
  fold_left (fun total r => total + weight (ring_item r)) (ring c) total.

Definition getTotalAttack (c : Character) : Z :=
  let total := attack c in
  let total :=
    match weapon c with
    | Some w => total + attack_inc w
    | None => total
    end in
  let total :=
    match armor c with
    | Some a => total - attack_dec (armour_of a)
    | None => total
    end in
  let total :=
    match shield c with
    | Some s => total - attack_dec (shield_armour s)
    | None => total
    end in
  fold_left (fun total r => total + strength_inc r) (ring c) total.

Definition getTotalDefence (c : Character) : Z :=
  let total := defence c in
  let total :=
    match armor c with
    | Some a => total + defence_inc (armour_of a)
    | None => total
    end in
  let total :=
    match shield c with
    | Some s => total + defence_inc (shield_armour s)
    | None => total
    end in
  total.

Definition getTotalStrength (c : Character) : Z :=
  fold_left (fun total r => total + strength_inc r) (ring c) (strength c).

Definition getTotalHealth (c : Character) : Z :=
  fold_left (fun total r => total + ring_health r) (ring c) (health c).

(** *** Picking up and dropping *)

(** [Character::pickUp]: the returned flag and the character afterwards.
    The casts are tried in the order of the source: [Weapon], [Armour],
    [Shield], [Ring]. *)
Definition pickUp (c : Character) (item : ItemPtr) : bool * Character :=
  if getCurrentWeight c + weight (item_of item) >? strength c then
    (false, c)
  else
    match dynamic_pointer_cast_Weapon item with
    | Some w => (true, set_weapon (Some w) c)
    | None =>
      match dynamic_pointer_cast_Armour item with
      | Some a =>
        (true, set_inventory (inventory c ++ [item]) (set_armor (Some a) c))
      | None =>
        match dynamic_pointer_cast_Shield item with
        | Some s =>
          (true,
           set_inventory (inventory c ++ [item]) (set_shield (Some s) c))
        | None =>
          match dynamic_pointer_cast_Ring item with
          | Some r =>
            (true,
             set_inventory (inventory c ++ [item])
               (set_ring (ring c ++ [r]) c))
          | None => (false, c)
          end
        end
      end
    end.

Definition dropWeapon (c : Character) : Character :=
  match weapon c with
  | Some _ => set_weapon None c
  | None => c
  end.

Definition dropArmour (c : Character) : Character :=
  match armor c with
  | Some _ => set_armor None c
  | None => c
  end.

Definition dropShield (c : Character) : Character :=
  match shield c with
  | Some _ => set_shield None c
  | None => c
  end.

(** [ring.erase(ring.begin() + index)] under the guard
    [index >= 0 && index < (int)ring.size()]. *)
Definition dropRing (c : Character) (index : Z) : Character :=
  if (0 <=? index) && (index <? Z.of_nat (length (ring c))) then
    set_ring (delete (Z.to_nat index) (ring c)) c
  else c.

(** ** characters.cpp: the reactions to a successful defence

    [successfulDef] is declared in [Character] without [virtual], and again
    in each derived class.  One definition per class follows; which of them
    a call runs is decided by the static type of the pointer it is made
    through. *)

Definition Character_successfulDef (attacker defender : Character)
    : Character :=
  defender.

Definition Human_successfulDef (attacker defender : Character) : Character :=
  defender.

Definition Elf_successfulDef (attacker defender : Character) : Character :=
  set_health (health defender + 1) defender.

Definition Dwarf_successfulDef (attacker defender : Character) : Character :=
  defender.

(** [rand_value] is the value returned by the call of [rand()]. *)
Definition Hobbit_successfulDef (rand_value : Z)
    (attacker defender : Character) : Character :=
  let defender := set_health (health defender - Z.rem rand_value 6) defender in
  if health defender <? 0 then set_health 0 defender else defender.

(** [this_isNight] is the [isNight] member of the object the function is
    called on. *)
Definition Orc_successfulDef (this_isNight : bool)
    (attacker defender : Character) : Character :=
  if negb this_isNight then
    let temp := attack attacker - defence defender in
    let temp := if temp <? 0 then 0 else temp in
    let damageTaken := Z.quot temp 4 in
    let defender := set_health (health defender - damageTaken) defender in
    if health defender <? 0 then set_health 0 defender else defender
  else
    set_health (health defender + 1) defender.

(** [Orc::setTimeOfDay], on an object whose dynamic type is [Orc]. *)
Definition setTimeOfDay (night : bool) (c : Character) : Character :=
  if night then
    mkCharacter (name c) (Orc night) 45 1 25 (1 # 2) (health c)
      (strength c) (weapon c) (armor c) (shield c) (ring c) (inventory c)
  else
    mkCharacter (name c) (Orc night) 25 (1 # 4) 10 (1 # 4) (health c)
      (strength c) (weapon c) (armor c) (shield c) (ring c) (inventory c).

(** ** main.cpp: combat *)

(** [a > b] and [a < b] on [float] values. *)
Definition float_gt (a b : Q) : bool := negb (Qle_bool a b).
Definition float_lt (a b : Q) : bool := negb (Qle_bool b a).

(** The lines [attack] prints, as far as statements are about them. *)
Inductive Event :=
| Missed
| TakesDamage (damage : Z)
| Blocked
| Defeated.

(** The free function [attack] of main.cpp lives in a module of its own:
    [attack] alone is the data member of [Character], [Main.attack] the
    function. *)
Module Main.

(** [attack(attacker, defender)].  [attackRoll] and [defenceRoll] are the
    values of the two [(float)rand() / RAND_MAX] (the second is computed
    only when the first did not lead to a miss).  Both parameters have
    static type [Character*], so the call of [successfulDef] is bound to
    [Character::successfulDef].  The result is the defender afterwards
    and what was printed; the attacker is not written to. *)
Definition attack (attackRoll defenceRoll : Q)
    (attacker defender : Character) : Character * list Event :=
  if float_gt attackRoll (attack_chance attacker) then
    (defender, [Missed])
  else if float_lt defenceRoll (defence_chance defender) then
    (Character_successfulDef attacker defender, [])
  else
    let '(defender, printed) :=
      if getTotalAttack attacker >? getTotalDefence defender then
        let damage := getTotalAttack attacker - getTotalDefence defender in
        let defender := set_health (health defender - damage) defender in
        let defender :=
          if health defender <? 0 then set_health 0 defender else defender in
        let defender :=
          if health defender >? getTotalHealth defender
          then set_health (getTotalHealth defender) defender
          else defender in
        (defender, [TakesDamage damage])
      else
        (defender, [Blocked]) in
    if getTotalHealth defender <=? 0
    then (defender, printed ++ [Defeated])
    else (defender, printed).

End Main.

(** The test [c->getTotalHealth() <= 0] that [main] makes on the defender
    after each call of [attack]. *)
Definition defeated (c : Character) : bool :=
  getTotalHealth c <=? 0.

(** ** board.hpp and board.cpp *)

(** [class Square].  Its [player] member is either null or the global
    [player] pointer of main.cpp, so a flag stands for it. *)
Record Square := mkSquare {
  enemy : option Character;
  item : option ItemPtr;
  has_player : bool
}.

Definition new_Square : Square := mkSquare None None false.

Definition set_enemy (e : option Character) (sq : Square) : Square :=
  mkSquare e (item sq) (has_player sq).
Definition set_item (i : option ItemPtr) (sq : Square) : Square :=
  mkSquare (enemy sq) i (has_player sq).
Definition set_has_player (p : bool) (sq : Square) : Square :=
  mkSquare (enemy sq) (item sq) p.

(** [class Board]; [grid[x]] is a row, [grid[x][y]] a square. *)
Record Board := mkBoard {
  width : Z;
  height : Z;
  grid : list (list Square)
}.

(** [Board(w, h)]: [h] rows of [w] squares, each a fresh object. *)
Definition new_Board (w h : Z) : Board :=
  mkBoard w h (replicate (Z.to_nat h) (replicate (Z.to_nat w) new_Square)).

(** [v[i]] for an [int] index; [None] stands for the undefined behaviour of
    an index outside the vector. *)
Definition at_index {A : Type} (v : list A) (i : Z) : option A :=
  if i <? 0 then None else v !! Z.to_nat i.

(** [grid[x][y]]. *)
Definition getSquare (b : Board) (x y : Z) : option Square :=
  match at_index (grid b) x with
  | Some row => at_index row y
  | None => None
  end.

(** An assignment through [grid[x][y]->...]; it is only made at an index
    that [getSquare] has just read. *)
Definition update_square (f : Square -> Square) (b : Board) (x y : Z)
    : Board :=
  mkBoard (width b) (height b)
    (alter (alter f (Z.to_nat y)) (Z.to_nat x) (grid b)).

(** [x = rand() % height; y = rand() % width;] on a stream of values of
    [rand()], which are never negative.  [None]: the stream is exhausted,
    or a remainder by zero (undefined behaviour). *)
Definition draw_cell (b : Board) (draws : list nat)
    : option (Z * Z * list nat) :=
  match draws with
  | rx :: ry :: rest =>
    if (height b =? 0) || (width b =? 0) then None
    else Some (Z.rem (Z.of_nat rx) (height b),
               Z.rem (Z.of_nat ry) (width b), rest)
  | _ => None
  end.

(** [while (occupied(grid[x][y])) { x = rand() % height; y = rand() % width; }]
    The result is the cell the loop stops at and the rest of the stream;
    [None] when the stream ends first, that is, when the loop has not
    stopped within the given draws. *)
Fixpoint find_free (occupied : Square -> bool) (b : Board) (x y : Z)
    (draws : list nat) {struct draws} : option (Z * Z * list nat) :=
  match getSquare b x y with
  | None => None
  | Some sq =>
    if occupied sq then
      match draws with
      | rx :: ry :: rest =>
        if (height b =? 0) || (width b =? 0) then None
        else find_free occupied b (Z.rem (Z.of_nat rx) (height b))
               (Z.rem (Z.of_nat ry) (width b)) rest
      | _ => None
      end
    else Some (x, y, draws)
  end.

Definition enemy_there (sq : Square) : bool :=
  match enemy sq with Some _ => true | None => false end.

Definition enemy_or_item_there (sq : Square) : bool :=
  match enemy sq, item sq with
  | None, None => false
  | _, _ => true
  end.

(** The first loop of [Board::populateBoard]. *)
Fixpoint place_enemies (b : Board) (enemies : list Character)
    (draws : list nat) : option (Board * list nat) :=
  match enemies with
  | [] => Some (b, draws)
  | enemyPointer :: enemies =>
    match draw_cell b draws with
    | None => None
    | Some (x, y, draws) =>
      match find_free enemy_there b x y draws with
      | None => None
      | Some (x, y, draws) =>
        place_enemies
          (update_square (set_enemy (Some enemyPointer)) b x y)
          enemies draws
      end
    end
  end.

(** The second loop of [Board::populateBoard]. *)
Fixpoint place_items (b : Board) (items : list ItemPtr)
    (draws : list nat) : option (Board * list nat) :=
  match items with
  | [] => Some (b, draws)
  | itemPointer :: items =>
    match draw_cell b draws with
    | None => None
    | Some (x, y, draws) =>
      match find_free enemy_or_item_there b x y draws with
      | None => None
      | Some (x, y, draws) =>
        place_items
          (update_square (set_item (Some itemPointer)) b x y)
          items draws
      end
    end
  end.

(** [Board::populateBoard(enemies, items)].  [draws] is the sequence of
    values [rand()] returns after the call of [srand]; the board afterwards
    and the unused draws are returned. *)
Definition populateBoard (b : Board) (enemies : list Character)
    (items : list ItemPtr) (draws : list nat) : option (Board * list nat) :=
  match place_enemies b enemies draws with
  | None => None
  | Some (b, draws) => place_items b items draws
  end.

(** What a cell holds. *)
Definition enemy_at (b : Board) (cell : Z * Z) : option Character :=
  match getSquare b cell.1 cell.2 with
  | Some sq => enemy sq
  | None => None
  end.

Definition item_at (b : Board) (cell : Z * Z) : option ItemPtr :=
  match getSquare b cell.1 cell.2 with
  | Some sq => item sq
  | None => None
  end.

(** ** main.cpp: the command loop *)

(** The variables of [main] that live across iterations, and the global
    [player]. *)
Record Game := mkGame {
  board : Board;
  player : Character;
  playerRow : Z;
  playerColumn : Z;
  gold : Z;
  commandCount : Z;
  isNight : bool;
  gameOver : bool
}.

Definition set_board (b : Board) (g : Game) : Game :=
  mkGame b (player g) (playerRow g) (playerColumn g) (gold g)
    (commandCount g) (isNight g) (gameOver g).

Definition set_player (p : Character) (g : Game) : Game :=
  mkGame (board g) p (playerRow g) (playerColumn g) (gold g)
    (commandCount g) (isNight g) (gameOver g).

Definition set_position (r c : Z) (g : Game) : Game :=
  mkGame (board g) (player g) r c (gold g) (commandCount g) (isNight g)
    (gameOver g).

Definition set_isNight (n : bool) (g : Game) : Game :=
  mkGame (board g) (player g) (playerRow g) (playerColumn g) (gold g)
    (commandCount g) n (gameOver g).

Definition set_gameOver (o : bool) (g : Game) : Game :=
  mkGame (board g) (player g) (playerRow g) (playerColumn g) (gold g)
    (commandCount g) (isNight g) o.

(** [commandCount++]. *)
Definition count_command (g : Game) : Game :=
  mkGame (board g) (player g) (playerRow g) (playerColumn g) (gold g)
    (commandCount g + 1) (isNight g) (gameOver g).

(** What is read from [cin] in one iteration: the command character and,
    for some commands, what the branch reads or draws next. *)
Inductive Command :=
| MoveUp     (* 'w' *)
| MoveDown   (* 's' *)
| MoveLeft   (* 'a' *)
| MoveRight  (* 'd' *)
| DropCmd (slot : ascii) (rnum : option Z)
             (* 'h', the slot character, and the ring number read when
                rings are asked for ([None]: the read failed) *)
| AttackCmd (roll1 roll2 roll3 roll4 : Q)
             (* 'j' and the rolls of the player's and the enemy's attack *)
| Look       (* 'k' *)
| ShowInventory  (* 'l' *)
| PickUpCmd  (* 'g' *)
| Exit       (* 'x' *)
| Invalid.   (* any other character *)

(** The cells in the order of the loops
    [for (r = 0; r < board.height; ++r) for (c = 0; c < board.width; ++c)]. *)
Definition all_cells (b : Board) : list (Z * Z) :=
  seqZ 0 (height b) ≫= fun r => pair r <$> seqZ 0 (width b).

(** The search for a remaining enemy, which stops at the first one. *)
Fixpoint scan_enemies (b : Board) (cells : list (Z * Z)) : option bool :=
  match cells with
  | [] => Some false
  | cell :: cells =>
    match getSquare b cell.1 cell.2 with
    | None => None
    | Some sq =>
      match enemy sq with
      | Some _ => Some true
      | None => scan_enemies b cells
      end
    end
  end.

Definition anyEnemiesLeft (b : Board) : option bool :=
  scan_enemies b (all_cells b).

(** The body of the loops of the day/night logic at one cell:
    [dynamic_cast<Orc*>] is non-null exactly on an object of class [Orc]. *)
Definition orc_setTimeOfDay_at (night : bool) (b : Board) (cell : Z * Z)
    : option Board :=
  match getSquare b cell.1 cell.2 with
  | None => None
  | Some sq =>
    match enemy sq with
    | Some enemyPtr =>
      match race enemyPtr with
      | Orc _ =>
        Some (update_square (set_enemy (Some (setTimeOfDay night enemyPtr)))
                b cell.1 cell.2)
      | _ => Some b
      end
    | None => Some b
    end
  end.

Fixpoint orcs_setTimeOfDay (night : bool) (cells : list (Z * Z)) (b : Board)
    : option Board :=
  match cells with
  | [] => Some b
  | cell :: cells =>
    match orc_setTimeOfDay_at night b cell with
    | None => None
    | Some b => orcs_setTimeOfDay night cells b
    end
  end.

(** The day/night logic at the end of the [switch]. *)
Definition dayNight (g : Game) : option Game :=
  if Z.rem (commandCount g) 10 <? 5 then
    if isNight g then
      match orcs_setTimeOfDay false (all_cells (board g)) (board g) with
      | None => None
      | Some b => Some (set_board b (set_isNight false g))
      end
    else Some g
  else
    if negb (isNight g) then
      match orcs_setTimeOfDay true (all_cells (board g)) (board g) with
      | None => None
      | Some b => Some (set_board b (set_isNight true g))
      end
    else Some g.

(** The reads of [board.grid[playerRow][playerColumn]] after a move. *)
Definition look_at_square (g : Game) : option Game :=
  match getSquare (board g) (playerRow g) (playerColumn g) with
  | None => None
  | Some _ => Some g
  end.

(** The branch of the [switch] for [case 'h']. *)
Definition drop_command (slot : ascii) (rnum : option Z) (p : Character)
    : Character :=
  if Ascii.eqb slot "1" then dropWeapon p
  else if Ascii.eqb slot "2" then dropArmour p
  else if Ascii.eqb slot "3" then dropShield p
  else if Ascii.eqb slot "4" then
    match ring p with
    | [] => p
    | _ :: _ =>
      match rnum with
      | None => p
      | Some rnum =>
        if (rnum <? 1) || (rnum >? Z.of_nat (length (ring p))) then p
        else dropRing p (rnum - 1)
      end
    end
  else p.

(** The [switch (choice)]. *)
Definition command (cmd : Command) (g : Game) : option Game :=
  match cmd with
  | MoveUp =>
    if playerRow g >? 0 then
      match look_at_square (set_position (playerRow g - 1) (playerColumn g) g)
      with
      | None => None
      | Some g => Some (count_command g)
      end
    else Some (count_command g)
  | MoveDown =>
    if playerRow g <? 11 then
      match look_at_square (set_position (playerRow g + 1) (playerColumn g) g)
      with
      | None => None
      | Some g => Some (count_command g)
      end
    else Some (count_command g)
  | MoveLeft =>
    if playerColumn g >? 0 then
      match look_at_square (set_position (playerRow g) (playerColumn g - 1) g)
      with
      | None => None
      | Some g => Some (count_command g)
      end
    else Some (count_command g)
  | MoveRight =>
    if playerColumn g <? 11 then
      match look_at_square (set_position (playerRow g) (playerColumn g + 1) g)
      with
      | None => None
      | Some g => Some (count_command g)
      end
    else Some (count_command g)
  | DropCmd slot rnum =>
    Some (count_command (set_player (drop_command slot rnum (player g)) g))
  | AttackCmd roll1 roll2 roll3 roll4 =>
    match getSquare (board g) (playerRow g) (playerColumn g) with
    | None => None
    | Some sq =>
      match enemy sq with
      | Some enemyOnSquare =>
        let enemyOnSquare :=
          (Main.attack roll1 roll2 (player g) enemyOnSquare).1 in
        let b :=
          update_square (set_enemy (Some enemyOnSquare)) (board g)
            (playerRow g) (playerColumn g) in
        if defeated enemyOnSquare then
          let b :=
            update_square (set_enemy None) b (playerRow g) (playerColumn g) in
          match anyEnemiesLeft b with
          | None => None
          | Some anyLeft =>
            Some (mkGame b (player g) (playerRow g) (playerColumn g)
                    (gold g + 20) (commandCount g) (isNight g)
                    (if anyLeft then gameOver g else true))
          end
        else
          let p := (Main.attack roll3 roll4 enemyOnSquare (player g)).1 in
          Some (count_command
                  (mkGame b p (playerRow g) (playerColumn g) (gold g)
                     (commandCount g) (isNight g)
                     (if defeated p then true else gameOver g)))
      | None => Some (count_command g)
      end
    end
  | Look => Some (count_command g)
  | ShowInventory => Some (count_command g)
  | PickUpCmd =>
    match getSquare (board g) (playerRow g) (playerColumn g) with
    | None => None
    | Some sq =>
      match item sq with
      | Some itemOnSquare =>
        let '(accepted, p) := pickUp (player g) itemOnSquare in
        let b :=
          if accepted
          then update_square (set_item None) (board g)
                 (playerRow g) (playerColumn g)
          else board g in
        Some (count_command (set_board b (set_player p g)))
      | None => Some (count_command g)
      end
    end
  | Exit => Some (set_gameOver true g)
  | Invalid => Some g
  end.

(** One iteration of the [while (!gameOver)] loop.  [None] stands for an
    access outside the grid. *)
Definition step (cmd : Command) (g : Game) : option Game :=
  match getSquare (board g) (playerRow g) (playerColumn g) with
  | None => None
  | Some _ =>
    let g :=
      set_board
        (update_square (set_has_player false) (board g)
           (playerRow g) (playerColumn g)) g in
    match command cmd g with
    | None => None
    | Some g =>
      match dayNight g with
      | None => None
      | Some g =>
        match getSquare (board g) (playerRow g) (playerColumn g) with
        | None => None
        | Some _ =>
          Some (set_board
                  (update_square (set_has_player true) (board g)
                     (playerRow g) (playerColumn g)) g)
        end
      end
    end
  end.

(** The loop, on the commands typed. *)
Fixpoint run (cmds : list Command) (g : Game) : option Game :=
  match cmds with
  | [] => Some g
  | cmd :: cmds =>
    if gameOver g then Some g
    else
      match step cmd g with
      | None => None
      | Some g => run cmds g
      end
  end.

(** The state [main] enters the loop with: the populated board, the
    character chosen in [user], and the initial values of the locals. *)
Definition start_game (b : Board) (p : Character) : Game :=
  mkGame b p 0 0 0 0 false false.

(** The enemy and item vectors built in [main]. *)
Definition main_enemies : list Character :=
  [new_Human "Bob"; new_Elf "Legolas"; new_Dwarf "Gimli";
   new_Hobbit "Frodo"; new_Orc "Azog"].

Definition main_items : list ItemPtr :=
  [PtrWeapon Sword; PtrWeapon Dagger; PtrArmour LeatherArmor;
   PtrArmour PlateArmor; PtrRing RingOfLife; PtrRing RingOfStrength].

(** ** The totals and the carried weight as the specification words them *)

(** The sum of [f] over a collection. *)
Definition sumZ {A : Type} (f : A -> Z) (l : list A) : Z :=
  foldr (fun x acc => f x + acc) 0 l.

(** The contribution of a slot: [f] of the item when one is equipped. *)
Definition if_equipped {A : Type} (f : A -> Z) (slot : option A) : Z :=
  match slot with
  | Some x => f x
  | None => 0
  end.

Definition spec_totalAttack (baseAttack : Z) (w : option Weapon)
    (a : option ArmourPtr) (s : option Shield) (rings : list Ring) : Z :=
  baseAttack
  + if_equipped attack_inc w
  - if_equipped (fun a => attack_dec (armour_of a)) a
  - if_equipped (fun s => attack_dec (shield_armour s)) s
  + sumZ strength_inc rings.

Definition spec_totalDefence (baseDefence : Z) (a : option ArmourPtr)
    (s : option Shield) : Z :=
  baseDefence
  + if_equipped (fun a => defence_inc (armour_of a)) a
  + if_equipped (fun s => defence_inc (shield_armour s)) s.

Definition spec_totalStrength (baseStrength : Z) (rings : list Ring) : Z :=
  baseStrength + sumZ strength_inc rings.

Definition spec_totalHealth (baseHealth : Z) (rings : list Ring) : Z :=
  baseHealth + sumZ ring_health rings.

(** The weights of the equipped weapon, armor, shield and of all rings. *)
Definition spec_equippedWeight (c : Character) : Z :=
  if_equipped (fun w => weight (weapon_item w)) (weapon c)
  + if_equipped (fun a => weight (armour_item (armour_of a))) (armor c)
  + if_equipped (fun s => weight (armour_item (shield_armour s))) (shield c)
  + sumZ (fun r => weight (ring_item r)) (ring c).

(** The item is a [Weapon], an [Armour], a [Shield] or a [Ring]. *)
Definition recognised (p : ItemPtr) : bool :=
  match p with
  | PtrItem _ => false
  | _ => true
  end.

(** The reaction the specification attaches to each race (a dispatch on the
    defender's race), for comparison with the call [attack] makes. *)
Definition spec_defenceReaction (rand_value : Z)
    (attacker defender : Character) : Character :=
  match race defender with
  | Human => Human_successfulDef attacker defender
  | Elf => Elf_successfulDef attacker defender
  | Dwarf => Dwarf_successfulDef attacker defender
  | Hobbit => Hobbit_successfulDef rand_value attacker defender
  | Orc night => Orc_successfulDef night attacker defender
  end.

(** The run of a partial function ended with a result. *)
Definition finished {A : Type} (o : option A) : bool :=
  match o with
  | Some _ => true
  | None => false
  end.

(** ** Characters and items used in examples *)

Definition hero : Character := new_Human "Hero".

(** An object of the base class [Item]. *)
Definition rock : ItemPtr := PtrItem (mkItem "Rock" 1).

(** A human whose equipment weighs 95. *)
Definition laden_hero : Character :=
  set_armor (Some (AnArmour (new_Armour "Heavy Mail" 95 10 5))) hero.

(** The hero after picking up the leather armor, the ring of life or the
    ring of strength from the ground. *)
Definition hero_in_leather : Character :=
  (pickUp hero (PtrArmour LeatherArmor)).2.
Definition hero_with_ring_of_life : Character :=
  (pickUp hero (PtrRing RingOfLife)).2.
Definition hero_with_ring_of_strength : Character :=
  (pickUp hero (PtrRing RingOfStrength)).2.

Definition legolas : Character := new_Elf "Legolas".

(** The defender after one attack of Legolas that neither misses (attack
    roll 0) nor is defended (defence roll 1). *)
Definition hit_by_legolas (defender : Character) : Character :=
  (Main.attack 0 1 legolas defender).1.

(** The health after the damage branch in closed form: the subtraction,
    the floor at zero, and the cap at the total health, which is the
    floored health plus the health deltas of the rings. *)
Definition health_after_damage (damage : Z) (d : Character) : Z :=
  let h := Z.max 0 (health d - damage) in
  Z.min h (h + sumZ ring_health (ring d)).

(** ** Orcs and the time of day *)

(** The quadruple (attack, attack_chance, defence, defence_chance) of a
    character, and the quadruple of an Orc by day and by night. *)
Definition stat_quadruple (c : Character) : Z * Q * Z * Q :=
  (attack c, attack_chance c, defence c, defence_chance c).

Definition time_quadruple (night : bool) : Z * Q * Z * Q :=
  if night then (45, 1%Q, 25, 1 # 2) else (25, 1 # 4, 10, 1 # 4).

Definition is_Orc (c : Character) : bool :=
  match race c with
  | Orc _ => true
  | _ => false
  end.

(** The cells the loops over the board visit. *)
Definition on_board (b : Board) (cell : Z * Z) : Prop :=
  (0 <= cell.1 < height b) /\ (0 <= cell.2 < width b).

(** Every Orc in the enemy member of a square of the board has the
    quadruple of the time of day [night]. *)
Definition orcs_match_on (night : bool) (b : Board) : Prop :=
  forall cell e,
    on_board b cell -> enemy_at b cell = Some e -> is_Orc e = true ->
    stat_quadruple e = time_quadruple night.

Definition enemy_orcs_match (g : Game) : Prop :=
  orcs_match_on (isNight g) (board g).

(** The enemy at one cell, if it is an Orc, has the quadruple of [night]. *)
Definition orc_matches_at (night : bool) (b : Board) (cell : Z * Z) : Prop :=
  forall e,
    enemy_at b cell = Some e -> is_Orc e = true ->
    stat_quadruple e = time_quadruple night.

(** The boards have the same dimensions, and every enemy of [b'] was on
    the same cell of [b] with the same class and the same quadruple. *)
Definition enemies_kept (b b' : Board) : Prop :=
  height b' = height b /\ width b' = width b
  /\ forall cell e',
       enemy_at b' cell = Some e' ->
       exists e,
         enemy_at b cell = Some e /\ is_Orc e' = is_Orc e
         /\ stat_quadruple e' = stat_quadruple e.

(** The square at the player's position refers to the player. *)
Definition player_on_board (g : Game) : Prop :=
  exists sq,
    getSquare (board g) (playerRow g) (playerColumn g) = Some sq
    /\ has_player sq = true.

(** Every Orc on the board, the player included, has the quadruple of the
    current time of day. *)
Definition all_orcs_match (g : Game) : Prop :=
  enemy_orcs_match g
  /\ (player_on_board g -> is_Orc (player g) = true ->
      stat_quadruple (player g) = time_quadruple (isNight g)).

(** ** Boards and games used in examples *)

(** A 2 x 2 board, two enemies, one item, and draws that make both search
    loops run: the second enemy first draws the cell of the first, and the
    item first draws the cells of both enemies. *)
Definition small_board : Board := new_Board 2 2.
Definition small_enemies : list Character := [new_Orc "Azog"; legolas].
Definition small_items : list ItemPtr := [PtrWeapon Sword].
Definition small_draws : list nat :=
  [0; 0; 0; 0; 3; 1; 0; 0; 1; 1; 4; 1]%nat.

(** The board of [main]: 12 x 12, with the enemies and items of [main],
    for one sequence of draws. *)
Definition main_draws : list nat :=
  [1; 1; 2; 2; 3; 3; 4; 4; 5; 5;
   1; 2; 2; 3; 3; 4; 4; 5; 5; 6; 6; 7]%nat.

Definition main_board : Board :=
  match populateBoard (new_Board 12 12) main_enemies main_items main_draws
  with
  | Some (b, _) => b
  | None => new_Board 12 12
  end.

(** A game in which the player chose the race Orc. *)
Definition orc_game : Game := start_game main_board (new_Orc "Grom").

(** ** main.cpp: choosing the player *)

(** [user(player)], after the name was read.  [choices] are the values
    [choice] holds after each [cin >> choice], in order; the loop runs until
    one of them is between 1 and 5.  [None]: the input ended first. *)
Fixpoint user (userName : string) (choices : list Z) : option Character :=
  match choices with
  | [] => None
  | choice :: choices =>
    if choice =? 1 then Some (new_Human userName)
    else if choice =? 2 then Some (new_Elf userName)
    else if choice =? 3 then Some (new_Dwarf userName)
    else if choice =? 4 then Some (new_Hobbit userName)
    else if choice =? 5 then Some (new_Orc userName)
    else user userName choices
  end.

(** ** Notions used in the further properties *)

(** The square of a cell refers to the player. *)
Definition has_player_at (b : Board) (cell : Z * Z) : bool :=
  match getSquare b cell.1 cell.2 with
  | Some sq => has_player sq
  | None => false
  end.

(** [e'] is [e] up to what the loop writes to an enemy: [e'] is [e] with
    another health, or, when [e] is an object of class [Orc], [e] after
    [setTimeOfDay] with another health.  Name, class, strength, equipment,
    rings and inventory are those of [e], and so are the attack, the
    defence and their chances unless [setTimeOfDay] wrote them. *)
Definition same_enemy (e e' : Character) : Prop :=
  (exists h, e' = set_health h e)
  \/ (is_Orc e = true
      /\ exists h night, e' = set_health h (setTimeOfDay night e)).

(** Every enemy of [b'] was on the same cell of [b], up to [same_enemy]. *)
Definition enemies_stay (b b' : Board) : Prop :=
  forall cell e',
    enemy_at b' cell = Some e' ->
    exists e, enemy_at b cell = Some e /\ same_enemy e e'.

(** Draws that name the cells of a board of width [w] in row-major order,
    starting at the cell of number [k], for [n] placements. *)
Fixpoint sweep_draws (w k : Z) (n : nat) : list nat :=
  match n with
  | O => []
  | S n => Z.to_nat (k / w) :: Z.to_nat (k mod w) :: sweep_draws w (k + 1) n
  end.

(** The number of a cell in row-major order. *)
Definition cell_number (w : Z) (cell : Z * Z) : Z := cell.1 * w + cell.2.

(** On a board of width [w] and height [h], the cells of number [k] and
    above are on the grid and empty. *)
Definition cells_free_from (w h : Z) (b : Board) (k : Z) : Prop :=
  width b = w /\ height b = h
  /\ forall j, k <= j < w * h ->
       exists sq, getSquare b (j / w) (j mod w) = Some sq
                  /\ enemy sq = None /\ item sq = None.

(** The enemy of each cell of [b'] is the one of [b], or, when that is an
    Orc, the one of [b] after [setTimeOfDay night]. *)
Definition enemies_retimed (night : bool) (b b' : Board) : Prop :=
  forall cell,
    enemy_at b' cell = enemy_at b cell
    \/ exists e,
         enemy_at b cell = Some e /\ is_Orc e = true
         /\ enemy_at b' cell = Some (setTimeOfDay night e).

(** The two boards have the same dimensions and the same cells, and the
    same cell refers to the player. *)
Definition same_shape (b b' : Board) : Prop :=
  width b' = width b /\ height b' = height b
  /\ (forall x y, is_Some (getSquare b' x y) <-> is_Some (getSquare b x y))
  /\ forall cell, has_player_at b' cell = has_player_at b cell.

(** Every cell within the height and the width of the board has a square:
    the loops over the board and the moves of the player stay inside the
    grid. *)
Definition grid_complete (b : Board) : Prop :=
  forall cell, on_board b cell -> is_Some (getSquare b cell.1 cell.2).

(** The enemy of the player's square after the player's [attack], when the
    command is [j] and the square holds an enemy. *)
Definition attacked_enemy (cmd : Command) (g : Game) : option Character :=
  match cmd with
  | AttackCmd roll1 roll2 _ _ =>
    match enemy_at (board g) (playerRow g, playerColumn g) with
    | Some e => Some (Main.attack roll1 roll2 (player g) e).1
    | None => None
    end
  | _ => None
  end.

(** The test [enemyOnSquare->getTotalHealth() <= 0] of [case 'j'] holds in
    this iteration. *)
Definition enemy_falls (cmd : Command) (g : Game) : bool :=
  match attacked_enemy cmd g with
  | Some e => defeated e
  | None => false
  end.

(** The player after the enemy's [attack], which is made when the enemy
    was attacked and did not fall. *)
Definition struck_player (cmd : Command) (g : Game) : option Character :=
  match cmd with
  | AttackCmd _ _ roll3 roll4 =>
    match attacked_enemy cmd g with
    | Some e =>
      if defeated e then None
      else Some (Main.attack roll3 roll4 e (player g)).1
    | None => None
    end
  | _ => None
  end.

(** The test [player->getTotalHealth() <= 0] of [case 'j'] is made and
    holds in this iteration. *)
Definition player_falls (cmd : Command) (g : Game) : bool :=
  match struck_player cmd g with
  | Some p => defeated p
  | None => false
  end.

(** The item [pickUp] accepts in this iteration: the command is [g], the
    player's square holds the item, and [pickUp] returns true. *)
Definition picked_item (cmd : Command) (g : Game) : option ItemPtr :=
  match cmd with
  | PickUpCmd =>
    match item_at (board g) (playerRow g, playerColumn g) with
    | Some i => if (pickUp (player g) i).1 then Some i else None
    | None => None
    end
  | _ => None
  end.

(** ** Further boards and games used in examples *)

(** The small board after [populateBoard]: the Orc on the cell the player
    starts on, Legolas on (1, 1), the sword on (0, 1). *)
Definition small_populated : Board :=
  Eval vm_compute in
    match populateBoard small_board small_enemies small_items small_draws with
    | Some (b, _) => b
    | None => small_board
    end.

(** The command [j] with rolls by which the player hits and the attack of
    the enemy comes to nothing (it misses or is defended), and with rolls
    by which the player misses and the enemy hits. *)
Definition player_hits : Command := AttackCmd 0 1 1 0.
Definition enemy_hits : Command := AttackCmd 1 0 0 1.

(** The game on the small board after the hero has hit the Orc twice, and
    after the Orc has fallen and the hero has walked to Legolas and hit him
    once. *)
Definition orc_wounded : Game :=
  Eval vm_compute in
    match run [player_hits; player_hits] (start_game small_populated hero) with
    | Some g => g
    | None => start_game small_populated hero
    end.

Definition elf_wounded : Game :=
  Eval vm_compute in
    match run [player_hits; MoveDown; MoveRight; player_hits] orc_wounded with
    | Some g => g
    | None => orc_wounded
    end.

(** The game on the small board after the hero has stepped to the right,
    onto the cell of the sword. *)
Definition hero_at_sword : Game :=
  Eval vm_compute in
    match step MoveRight (start_game small_populated hero) with
    | Some g => g
    | None => start_game small_populated hero
    end.

(** The board of [main] for draws that put the ring of life on the cell
    the player starts on and Legolas on the cell to its right. *)
Definition ring_draws : list nat :=
  [5; 5; 0; 1; 6; 6; 7; 7; 8; 8;
   1; 2; 2; 3; 3; 4; 4; 5; 0; 0; 6; 7]%nat.

Definition ring_board : Board :=
  Eval vm_compute in
    match populateBoard (new_Board 12 12) main_enemies main_items ring_draws
    with
    | Some (b, _) => b
    | None => new_Board 12 12
    end.

(** The game on that board after the hero has picked up the ring, stepped
    to the right and been hit three times by Legolas, and after a fourth
    hit. *)
Definition hero_at_zero : Game :=
  Eval vm_compute in
    match run [PickUpCmd; MoveRight; enemy_hits; enemy_hits; enemy_hits]
            (start_game ring_board hero) with
    | Some g => g
    | None => start_game ring_board hero
    end.

Definition hero_hit_again : Game :=
  Eval vm_compute in
    match step enemy_hits hero_at_zero with
    | Some g => g
    | None => hero_at_zero
    end.

(** * Properties *)

(** ** The derived totals *)

Lemma fold_left_running_total {A : Type} (f : A -> Z) (l : list A) (a : Z) :
  fold_left (fun total x => total + f x) l a = a + sumZ f l.
Proof.
  revert a. induction l as [|x l IH]; intros a; simpl.
  - lia.
  - rewrite IH. unfold sumZ. simpl. lia.
Qed.

Lemma getTotalHealth_sum (c : Character) :
  getTotalHealth c = health c + sumZ ring_health (ring c).
Proof. unfold getTotalHealth. apply fold_left_running_total. Qed.

Lemma getCurrentWeight_sum (c : Character) :
  getCurrentWeight c = spec_equippedWeight c.
Proof.
  unfold getCurrentWeight, spec_equippedWeight.
  rewrite fold_left_running_total.
  destruct (weapon c), (armor c), (shield c); simpl; lia.
Qed.

(** C7.  The four getters compute the formulas of the specification:
    total attack is base attack, plus the weapon's bonus, minus the attack
    penalties of armor and shield (each only when equipped), plus the sum
    of the rings' strength bonuses; total defence is base defence plus the
    defence bonuses of armor and shield; total strength is base strength
    plus the rings' strength bonuses; total health is the health member
    plus the rings' health deltas.  Each right-hand side takes the base
    value and the equipped items only, so equal equipment gives equal
    totals. *)
Theorem totals_follow_equipment (c : Character) :
  getTotalAttack c
    = spec_totalAttack (attack c) (weapon c) (armor c) (shield c) (ring c)
  /\ getTotalDefence c = spec_totalDefence (defence c) (armor c) (shield c)
  /\ getTotalStrength c = spec_totalStrength (strength c) (ring c)
  /\ getTotalHealth c = spec_totalHealth (health c) (ring c).
Proof.
  repeat split.
  - unfold getTotalAttack, spec_totalAttack.
    rewrite fold_left_running_total.
    destruct (weapon c), (armor c), (shield c); simpl; lia.
  - unfold getTotalDefence, spec_totalDefence.
    destruct (armor c), (shield c); simpl; lia.
  - unfold getTotalStrength, spec_totalStrength.
    apply fold_left_running_total.
  - apply getTotalHealth_sum.
Qed.

(** The hero with sword, plate armor (in the armor slot), large shield
    (in the shield slot) and both rings. *)
Example totals_of_equipped_hero :
  let c :=
    mkCharacter "Hero" Human 30 float_two_thirds 20 (1 # 2) 60 100
      (Some Sword) (Some (AnArmour PlateArmor)) (Some LargeShield)
      [RingOfLife; RingOfStrength] [] in
  getTotalAttack c = 30 + 10 - 5 - 5 + (0 + 50)
  /\ getTotalDefence c = 20 + 10 + 10
  /\ getTotalStrength c = 100 + (0 + 50)
  /\ getTotalHealth c = 60 + (10 - 10)
  /\ getCurrentWeight c = 10 + 40 + 30 + (1 + 1).
Proof. repeat split. Qed.

(** ** Picking up *)

(** The test that guards [pickUp], on the closed form of the weight. *)
Lemma pickUp_too_heavy (c : Character) (it : ItemPtr) :
  spec_equippedWeight c + weight (item_of it) > strength c ->
  pickUp c it = (false, c).
Proof.
  intros H. unfold pickUp. rewrite getCurrentWeight_sum.
  destruct (Z.gtb_spec (spec_equippedWeight c + weight (item_of it))
              (strength c)); [reflexivity | lia].
Qed.

Lemma pickUp_fits (c : Character) (it : ItemPtr) :
  spec_equippedWeight c + weight (item_of it) <= strength c ->
  pickUp c it =
    match it with
    | PtrItem _ => (false, c)
    | PtrWeapon w => (true, set_weapon (Some w) c)
    | PtrArmour a =>
      (true, set_inventory (inventory c ++ [it])
               (set_armor (Some (AnArmour a)) c))
    | PtrShield s =>
      (true, set_inventory (inventory c ++ [it])
               (set_armor (Some (AShield s)) c))
    | PtrRing r =>
      (true, set_inventory (inventory c ++ [it]) (set_ring (ring c ++ [r]) c))
    end.
Proof.
  intros H. unfold pickUp. rewrite getCurrentWeight_sum.
  destruct (Z.gtb_spec (spec_equippedWeight c + weight (item_of it))
              (strength c)); [lia |].
  destruct it; reflexivity.
Qed.

Lemma pickUp_cases (c : Character) (it : ItemPtr) :
  spec_equippedWeight c + weight (item_of it) > strength c
  \/ spec_equippedWeight c + weight (item_of it) <= strength c.
Proof. lia. Qed.

(** An accepted pickup: the weight fits and the character afterwards is
    the one of the matching branch. *)
Lemma pickUp_accepted (c c' : Character) (it : ItemPtr) :
  pickUp c it = (true, c') ->
  spec_equippedWeight c + weight (item_of it) <= strength c
  /\ match it with
     | PtrItem _ => False
     | PtrWeapon w => c' = set_weapon (Some w) c
     | PtrArmour a =>
       c' = set_inventory (inventory c ++ [it])
              (set_armor (Some (AnArmour a)) c)
     | PtrShield s =>
       c' = set_inventory (inventory c ++ [it])
              (set_armor (Some (AShield s)) c)
     | PtrRing r =>
       c' = set_inventory (inventory c ++ [it]) (set_ring (ring c ++ [r]) c)
     end.
Proof.
  intros H. destruct (pickUp_cases c it) as [Hw | Hw].
  - rewrite (pickUp_too_heavy _ _ Hw) in H. discriminate.
  - split; [exact Hw |]. rewrite (pickUp_fits _ _ Hw) in H.
    destruct it; inversion H; subst; auto.
Qed.

(** A weapon goes to the weapon slot and an armour to the armor slot; a
    shield is caught by the cast to [Armour], which is tried before the
    cast to [Shield], and goes to the armor slot as well. *)
Lemma pickUp_slots (c c' : Character) (it : ItemPtr) :
  pickUp c it = (true, c') ->
  match it with
  | PtrItem _ => False
  | PtrWeapon w =>
    weapon c' = Some w /\ armor c' = armor c /\ shield c' = shield c
  | PtrArmour a =>
    armor c' = Some (AnArmour a) /\ weapon c' = weapon c
    /\ shield c' = shield c
  | PtrShield s =>
    armor c' = Some (AShield s) /\ weapon c' = weapon c
    /\ shield c' = shield c
  | PtrRing r =>
    ring c' = ring c ++ [r] /\ weapon c' = weapon c /\ armor c' = armor c
    /\ shield c' = shield c
  end.
Proof.
  intros H. destruct (pickUp_accepted _ _ _ H) as [Hw Hc'].
  destruct it; [contradiction | subst c'; simpl; auto ..].
Qed.

(** C2.  The hero, wearing the leather armor, picks up the small shield:
    the pickup is accepted, the shield replaces the leather armor in the
    armor slot, and the shield slot is still empty. *)
Theorem shield_lands_in_armor_slot :
  armor hero_in_leather = Some (AnArmour LeatherArmor)
  /\ (pickUp hero_in_leather (PtrShield SmallShield)).1 = true
  /\ armor (pickUp hero_in_leather (PtrShield SmallShield)).2
     = Some (AShield SmallShield)
  /\ shield (pickUp hero_in_leather (PtrShield SmallShield)).2 = None.
Proof. repeat split. Qed.

(** C8.  [pickUp] accepts an item exactly when the weight fits and the
    item is a weapon, an armour, a shield or a ring.  An accepted pickup of
    a weapon leaves the inventory as it was; an accepted pickup of an
    armour, a shield or a ring appends the item to the inventory, so that
    the item is the last entry and the inventory is one entry longer. *)
Theorem pickUp_inventory (c : Character) (it : ItemPtr) :
  ((pickUp c it).1 = true <->
     getCurrentWeight c + weight (item_of it) <= strength c
     /\ recognised it = true)
  /\ ((pickUp c it).1 = true ->
      match it with
      | PtrItem _ => False
      | PtrWeapon _ => inventory (pickUp c it).2 = inventory c
      | PtrArmour _ | PtrShield _ | PtrRing _ =>
        inventory (pickUp c it).2 = inventory c ++ [it]
        /\ last (inventory (pickUp c it).2) = Some it
        /\ length (inventory (pickUp c it).2) = S (length (inventory c))
      end).
Proof.
  rewrite getCurrentWeight_sum.
  destruct (pickUp_cases c it) as [Hw | Hw].
  - rewrite (pickUp_too_heavy _ _ Hw). simpl. split.
    + split; [discriminate | lia].
    + discriminate.
  - rewrite (pickUp_fits _ _ Hw).
    destruct it; simpl; (split; [split; [auto | intros [_ H]; auto] |]);
      try discriminate; intros _; auto;
      rewrite last_snoc, length_app; simpl; repeat split; lia.
Qed.

(** The hero picks up the sword, the leather armor, the small shield and
    the ring of life from the ground, each on its own. *)
Lemma pickUp_inventory_witness :
  ((pickUp hero (PtrWeapon Sword)).1 = true
   /\ inventory (pickUp hero (PtrWeapon Sword)).2 = [])
  /\ ((pickUp hero (PtrArmour LeatherArmor)).1 = true
      /\ inventory (pickUp hero (PtrArmour LeatherArmor)).2
         = [PtrArmour LeatherArmor])
  /\ ((pickUp hero (PtrShield SmallShield)).1 = true
      /\ inventory (pickUp hero (PtrShield SmallShield)).2
         = [PtrShield SmallShield])
  /\ ((pickUp hero (PtrRing RingOfLife)).1 = true
      /\ inventory (pickUp hero (PtrRing RingOfLife)).2
         = [PtrRing RingOfLife]).
Proof.
  assert (Hfit : forall it,
            recognised it = true -> weight (item_of it) <= 100 ->
            (pickUp hero it).1 = true).
  { intros it Hrec Hw. apply (pickUp_inventory hero it).
    split; [exact Hw | exact Hrec]. }
  split; [| split; [| split]].
  - assert (Hacc : (pickUp hero (PtrWeapon Sword)).1 = true)
      by (apply Hfit; [reflexivity | vm_compute; discriminate]).
    split; [exact Hacc |].
    exact (proj2 (pickUp_inventory hero (PtrWeapon Sword)) Hacc).
  - assert (Hacc : (pickUp hero (PtrArmour LeatherArmor)).1 = true)
      by (apply Hfit; [reflexivity | vm_compute; discriminate]).
    split; [exact Hacc |].
    exact (proj1 (proj2 (pickUp_inventory hero (PtrArmour LeatherArmor))
                    Hacc)).
  - assert (Hacc : (pickUp hero (PtrShield SmallShield)).1 = true)
      by (apply Hfit; [reflexivity | vm_compute; discriminate]).
    split; [exact Hacc |].
    exact (proj1 (proj2 (pickUp_inventory hero (PtrShield SmallShield))
                    Hacc)).
  - assert (Hacc : (pickUp hero (PtrRing RingOfLife)).1 = true)
      by (apply Hfit; [reflexivity | vm_compute; discriminate]).
    split; [exact Hacc |].
    exact (proj1 (proj2 (pickUp_inventory hero (PtrRing RingOfLife))
                    Hacc)).
Defined.

(** C4, amended.  [pickUp] returns false exactly when the weights of the
    equipped weapon, armor, shield and rings plus the weight of the new
    item exceed the base strength member, or the item is of none of the
    four kinds; for a weapon, armour, shield or ring it returns false
    exactly when the weight test fails.  On every rejection the character
    is left as it was: slots, rings and inventory. *)
Theorem pickUp_rejection (c : Character) (it : ItemPtr) :
  ((pickUp c it).1 = false <->
     spec_equippedWeight c + weight (item_of it) > strength c
     \/ recognised it = false)
  /\ (recognised it = true ->
      ((pickUp c it).1 = false <->
         spec_equippedWeight c + weight (item_of it) > strength c))
  /\ ((pickUp c it).1 = false -> (pickUp c it).2 = c).
Proof.
  destruct (pickUp_cases c it) as [Hw | Hw].
  - rewrite (pickUp_too_heavy _ _ Hw). simpl. tauto.
  - rewrite (pickUp_fits _ _ Hw).
    destruct it; simpl in *; intuition (try discriminate; try lia).
Qed.

Lemma pickUp_rejection_witness :
  (pickUp laden_hero (PtrWeapon Sword)).1 = false
  /\ (pickUp laden_hero (PtrWeapon Sword)).2 = laden_hero.
Proof.
  destruct (pickUp_rejection laden_hero (PtrWeapon Sword))
    as [_ [Hiff Hsame]].
  assert (Hrej : (pickUp laden_hero (PtrWeapon Sword)).1 = false).
  { apply Hiff; [reflexivity | vm_compute; reflexivity]. }
  split; [exact Hrej | exact (Hsame Hrej)].
Defined.

(** The example of the specification: strength 100, equipped weight 95,
    new item of weight 10. *)
Example pickUp_rejects_95_plus_10 (c : Character) (it : ItemPtr) :
  strength c = 100 -> spec_equippedWeight c = 95 ->
  weight (item_of it) = 10 ->
  pickUp c it = (false, c).
Proof. intros Hs Hw Hi. apply pickUp_too_heavy. lia. Qed.

(** C4 as stated fails: the rock weighs 1, the hero carries nothing and has
    strength 100, and the pickup is rejected all the same. *)
Lemma pickUp_rejects_light_rock :
  (pickUp hero rock).1 = false
  /\ ~ (spec_equippedWeight hero + weight (item_of rock) > strength hero).
Proof. split; [reflexivity | vm_compute; discriminate]. Qed.

(** ** Dropping *)

Lemma delete_middle {A : Type} (pre post : list A) (x : A) :
  delete (length pre) (pre ++ x :: post) = pre ++ post.
Proof. induction pre as [|y pre IH]; simpl; [reflexivity | now rewrite IH]. Qed.

Lemma dropWeapon_inventory (c : Character) :
  inventory (dropWeapon c) = inventory c.
Proof. unfold dropWeapon. destruct (weapon c); reflexivity. Qed.

Lemma dropArmour_inventory (c : Character) :
  inventory (dropArmour c) = inventory c.
Proof. unfold dropArmour. destruct (armor c); reflexivity. Qed.

Lemma dropShield_inventory (c : Character) :
  inventory (dropShield c) = inventory c.
Proof. unfold dropShield. destruct (shield c); reflexivity. Qed.

Lemma dropRing_inventory (c : Character) (index : Z) :
  inventory (dropRing c index) = inventory c.
Proof.
  unfold dropRing.
  destruct ((0 <=? index) && (index <? Z.of_nat (length (ring c))));
    reflexivity.
Qed.

(** C10.  No drop operation touches the inventory: after [dropWeapon],
    [dropArmour] and [dropShield] the slot is empty and the inventory is
    the same list, and [dropRing] removes the ring at the index from the
    ring collection and leaves the inventory the same list, whatever the
    index. *)
Theorem drops_keep_inventory (c : Character) :
  (inventory (dropWeapon c) = inventory c /\ weapon (dropWeapon c) = None)
  /\ (inventory (dropArmour c) = inventory c /\ armor (dropArmour c) = None)
  /\ (inventory (dropShield c) = inventory c /\ shield (dropShield c) = None)
  /\ (forall index, inventory (dropRing c index) = inventory c)
  /\ (forall pre r post,
        ring (dropRing (set_ring (pre ++ r :: post) c)
                (Z.of_nat (length pre)))
        = pre ++ post).
Proof.
  repeat split.
  - apply dropWeapon_inventory.
  - unfold dropWeapon. destruct (weapon c) eqn:E; [reflexivity | exact E].
  - apply dropArmour_inventory.
  - unfold dropArmour. destruct (armor c) eqn:E; [reflexivity | exact E].
  - apply dropShield_inventory.
  - unfold dropShield. destruct (shield c) eqn:E; [reflexivity | exact E].
  - intros index. apply dropRing_inventory.
  - intros pre r post. unfold dropRing. simpl ring at 1.
    rewrite length_app. simpl length.
    replace ((0 <=? Z.of_nat (length pre))
             && (Z.of_nat (length pre)
                 <? Z.of_nat (length pre + S (length post))))
      with true
      by (symmetry; apply andb_true_iff; split;
          [apply Z.leb_le | apply Z.ltb_lt]; lia).
    simpl. rewrite Nat2Z.id. apply delete_middle.
Qed.

(** A ring index outside the collection leaves the rings as they are. *)
Lemma dropRing_out_of_range (c : Character) (index : Z) :
  index < 0 \/ Z.of_nat (length (ring c)) <= index ->
  dropRing c index = c.
Proof.
  intros H. unfold dropRing.
  destruct (Z.leb_spec 0 index), (Z.ltb_spec index (Z.of_nat (length (ring c))));
    simpl; try reflexivity; lia.
Qed.

(** An armour, shield or ring that was picked up and then dropped is still
    listed in the inventory. *)
Lemma dropped_item_stays_listed (c c' : Character) (it : ItemPtr) :
  pickUp c it = (true, c') ->
  (forall w, it <> PtrWeapon w) ->
  In it (inventory (dropArmour c'))
  /\ In it (inventory (dropShield c'))
  /\ forall index, In it (inventory (dropRing c' index)).
Proof.
  intros H Hnw.
  destruct (pickUp_accepted _ _ _ H) as [_ Hc'].
  assert (Hin : In it (inventory c')).
  { destruct it; try contradiction; try (subst c'; simpl; apply in_or_app;
      right; left; reflexivity).
    exfalso. eapply Hnw. reflexivity. }
  rewrite dropArmour_inventory, dropShield_inventory.
  repeat split; auto. intros index. now rewrite dropRing_inventory.
Qed.

(** ** Combat *)

Lemma attack_missed (r1 r2 : Q) (a d : Character) :
  float_gt r1 (attack_chance a) = true ->
  Main.attack r1 r2 a d = (d, [Missed]).
Proof. intros H. unfold Main.attack. now rewrite H. Qed.

(** On a successful defence roll [attack] leaves the defender as it is,
    whatever its race. *)
Lemma attack_defended (r1 r2 : Q) (a d : Character) :
  float_gt r1 (attack_chance a) = false ->
  float_lt r2 (defence_chance d) = true ->
  Main.attack r1 r2 a d = (d, []).
Proof. intros H1 H2. unfold Main.attack. now rewrite H1, H2. Qed.

Lemma health_set_health (h : Z) (c : Character) :
  health (set_health h c) = h.
Proof. reflexivity. Qed.

Lemma set_health_twice (h h' : Z) (c : Character) :
  set_health h (set_health h' c) = set_health h c.
Proof. reflexivity. Qed.

Lemma getTotalHealth_set_health (h : Z) (c : Character) :
  getTotalHealth (set_health h c) = h + sumZ ring_health (ring c).
Proof. now rewrite getTotalHealth_sum. Qed.

(** The damage branch of [attack] on the defender. *)
Lemma damage_branch (dmg : Z) (d : Character) :
  (let defender := set_health (health d - dmg) d in
   let defender :=
     if health defender <? 0 then set_health 0 defender else defender in
   if health defender >? getTotalHealth defender
   then set_health (getTotalHealth defender) defender
   else defender)
  = set_health (health_after_damage dmg d) d.
Proof.
  cbv zeta. rewrite health_set_health. unfold health_after_damage.
  destruct (Z.ltb_spec (health d - dmg) 0) as [Hneg | Hpos].
  - rewrite set_health_twice, health_set_health, getTotalHealth_set_health.
    rewrite Z.max_l by lia.
    destruct (Z.gtb_spec 0 (0 + sumZ ring_health (ring d))).
    + rewrite set_health_twice. f_equal. lia.
    + f_equal. lia.
  - rewrite health_set_health, getTotalHealth_set_health.
    rewrite Z.max_r by lia.
    destruct (Z.gtb_spec (health d - dmg)
                (health d - dmg + sumZ ring_health (ring d))).
    + rewrite set_health_twice. f_equal. lia.
    + f_equal. lia.
Qed.

Lemma attack_resolved (r1 r2 : Q) (a d : Character) :
  float_gt r1 (attack_chance a) = false ->
  float_lt r2 (defence_chance d) = false ->
  let d' :=
    if getTotalAttack a >? getTotalDefence d
    then set_health
           (health_after_damage (getTotalAttack a - getTotalDefence d) d) d
    else d in
  Main.attack r1 r2 a d =
    (d',
     (if getTotalAttack a >? getTotalDefence d
      then [TakesDamage (getTotalAttack a - getTotalDefence d)]
      else [Blocked])
     ++ (if getTotalHealth d' <=? 0 then [Defeated] else [])).
Proof.
  intros H1 H2. unfold Main.attack. rewrite H1, H2.
  destruct (getTotalAttack a >? getTotalDefence d).
  - pose proof (damage_branch (getTotalAttack a - getTotalDefence d) d) as E.
    cbv zeta in E. cbv zeta. rewrite E.
    destruct (getTotalHealth _ <=? 0); reflexivity.
  - cbv zeta. destruct (getTotalHealth d <=? 0); reflexivity.
Qed.

(** The reaction of class [Orc] by day with attacker attack 10 and
    defender defence 30: the difference is clamped and no health is lost. *)
Example orc_day_reaction_clamped (attacker defender : Character) :
  attack attacker = 10 -> defence defender = 30 -> 0 <= health defender ->
  health (Orc_successfulDef false attacker defender) = health defender.
Proof.
  intros Ha Hd Hh. unfold Orc_successfulDef. simpl. rewrite Ha, Hd. simpl.
  rewrite Z.sub_0_r. destruct (Z.ltb_spec (health defender) 0); [lia |].
  reflexivity.
Qed.

(** [attack] writes to the health of the defender and to nothing else. *)
Lemma attack_writes_health_only (r1 r2 : Q) (a d : Character) :
  (Main.attack r1 r2 a d).1
  = set_health (health (Main.attack r1 r2 a d).1) d.
Proof.
  assert (Hid : d = set_health (health d) d) by (destruct d; reflexivity).
  destruct (float_gt r1 (attack_chance a)) eqn:H1.
  - rewrite (attack_missed _ r2 _ d H1). exact Hid.
  - destruct (float_lt r2 (defence_chance d)) eqn:H2.
    + rewrite (attack_defended _ _ _ _ H1 H2). exact Hid.
    + rewrite (attack_resolved _ _ _ _ H1 H2). cbv zeta. simpl fst.
      destruct (getTotalAttack a >? getTotalDefence d);
        [reflexivity | exact Hid].
Qed.

Lemma attack_keeps_rings (r1 r2 : Q) (a d : Character) :
  ring (Main.attack r1 r2 a d).1 = ring d.
Proof. now rewrite attack_writes_health_only. Qed.

(** C1.  Legolas, an Elf with health 40, is attacked by the hero with an
    attack roll that does not miss and a defence roll below his defence
    chance: [attack] leaves his health at 40.  The reaction of his own
    class would have made it 41. *)
Theorem elf_defence_leaves_health_unchanged :
  race legolas = Elf
  /\ health legolas = 40
  /\ float_gt 0 (attack_chance hero) = false
  /\ float_lt 0 (defence_chance legolas) = true
  /\ health (Main.attack 0 0 hero legolas).1 = 40
  /\ health (spec_defenceReaction 0 hero legolas) = 41.
Proof. repeat split. Qed.

(** [attack] prints the defeat of the defender exactly when the attack was
    neither missed nor defended and the health member plus the health
    deltas of the worn rings is at most 0 afterwards. *)
Lemma attack_prints_defeat (r1 r2 : Q) (a d : Character) :
  In Defeated (Main.attack r1 r2 a d).2 <->
    float_gt r1 (attack_chance a) = false
    /\ float_lt r2 (defence_chance d) = false
    /\ health (Main.attack r1 r2 a d).1 + sumZ ring_health (ring d) <= 0.
Proof.
  destruct (float_gt r1 (attack_chance a)) eqn:H1.
  { rewrite (attack_missed _ r2 _ d H1). simpl.
    intuition (try discriminate). }
  destruct (float_lt r2 (defence_chance d)) eqn:H2.
  { rewrite (attack_defended _ _ _ _ H1 H2). simpl.
    intuition (try discriminate). }
  rewrite (attack_resolved _ _ _ _ H1 H2). cbv zeta. simpl fst. simpl snd.
  set (d' := if getTotalAttack a >? getTotalDefence d
             then set_health _ d else d).
  assert (Hr : ring d' = ring d).
  { subst d'. destruct (getTotalAttack a >? getTotalDefence d);
      reflexivity. }
  rewrite (getTotalHealth_sum d'), Hr.
  destruct (Z.leb_spec (health d' + sumZ ring_health (ring d)) 0) as [Hle|Hgt].
  - split; [intros _; auto |].
    intros _. apply in_or_app. right. left. reflexivity.
  - split; [| intros (_ & _ & Hle); lia].
    intros Hin. apply in_app_or in Hin. destruct Hin as [Hin | []].
    destruct (getTotalAttack a >? getTotalDefence d);
      destruct Hin as [Hin | []]; discriminate.
Qed.

(** A defender whose health is not negative and whose rings add a positive
    number to it cannot be defeated: whatever the attacker and the rolls,
    [attack] prints no defeat and the test of [main] fails. *)
Lemma positive_rings_never_defeated (r1 r2 : Q) (a d : Character) :
  0 <= health d -> 0 < sumZ ring_health (ring d) ->
  0 <= health (Main.attack r1 r2 a d).1
  /\ defeated (Main.attack r1 r2 a d).1 = false
  /\ ~ In Defeated (Main.attack r1 r2 a d).2.
Proof.
  intros Hh Hr.
  assert (Hpos : 0 <= health (Main.attack r1 r2 a d).1).
  { destruct (float_gt r1 (attack_chance a)) eqn:H1.
    { now rewrite (attack_missed _ r2 _ d H1). }
    destruct (float_lt r2 (defence_chance d)) eqn:H2.
    { now rewrite (attack_defended _ _ _ _ H1 H2). }
    rewrite (attack_resolved _ _ _ _ H1 H2). cbv zeta. simpl fst.
    destruct (getTotalAttack a >? getTotalDefence d); [| exact Hh].
    rewrite health_set_health. unfold health_after_damage. lia. }
  split; [exact Hpos | split].
  - unfold defeated. rewrite getTotalHealth_sum, attack_keeps_rings.
    apply Z.leb_gt. lia.
  - rewrite attack_prints_defeat. intros (_ & _ & Hle). lia.
Qed.

(** C3.  [main] on its 12 x 12 board, with draws that put the ring of life
    on the cell the player starts on and Legolas on the cell to its right.
    The hero picks up the ring, steps to the right and types [j] three
    times; each time the hero misses and Legolas hits for 20.  After the
    third hit the health of the hero is 0.  The last [attack] printed the
    damage and no defeat, the test of [main] on the player fails, and the
    loop goes on: both tests are made on the health plus the 10 of the
    ring.  A fourth hit leaves the health at 0 and the game running. *)
Theorem health_zero_is_not_a_defeat :
  exists b rest g3 g4,
    populateBoard (new_Board 12 12) main_enemies main_items ring_draws
    = Some (b, rest)
    /\ item_at b (0, 0) = Some (PtrRing RingOfLife)
    /\ enemy_at b (0, 1) = Some legolas
    /\ run [PickUpCmd; MoveRight; enemy_hits; enemy_hits; enemy_hits]
         (start_game b hero) = Some g3
    /\ player g3
       = hit_by_legolas (hit_by_legolas
           (hit_by_legolas hero_with_ring_of_life))
    /\ (Main.attack 0 1 legolas
          (hit_by_legolas (hit_by_legolas hero_with_ring_of_life))).2
       = [TakesDamage 20]
    /\ health (player g3) = 0
    /\ getTotalHealth (player g3) = 10
    /\ defeated (player g3) = false
    /\ player_falls enemy_hits g3 = false
    /\ gameOver g3 = false
    /\ step enemy_hits g3 = Some g4
    /\ health (player g4) = 0
    /\ gameOver g4 = false.
Proof.
  exists ring_board, [], hero_at_zero, hero_hit_again.
  repeat split; vm_compute; reflexivity.
Qed.

(** When the health deltas of the defender's rings do not sum to a
    negative number, the damage branch does what the specification says:
    the damage is subtracted, the result is floored at 0, and the health
    afterwards does not exceed the total health. *)
Lemma attack_damage_without_negative_rings (r1 r2 : Q) (a d : Character) :
  float_gt r1 (attack_chance a) = false ->
  float_lt r2 (defence_chance d) = false ->
  0 <= sumZ ring_health (ring d) ->
  getTotalAttack a > getTotalDefence d ->
  health (Main.attack r1 r2 a d).1
    = Z.max 0 (health d - (getTotalAttack a - getTotalDefence d))
  /\ health (Main.attack r1 r2 a d).1
     <= getTotalHealth (Main.attack r1 r2 a d).1.
Proof.
  intros H1 H2 Hrings Hgt.
  rewrite getTotalHealth_sum, attack_keeps_rings.
  rewrite (attack_resolved _ _ _ _ H1 H2). cbv zeta. simpl fst.
  destruct (Z.gtb_spec (getTotalAttack a) (getTotalDefence d)); [| lia].
  rewrite health_set_health. unfold health_after_damage. lia.
Qed.

(** When the attack does not exceed the defence, the defender is left as
    it is. *)
Lemma attack_blocked (r1 r2 : Q) (a d : Character) :
  float_gt r1 (attack_chance a) = false ->
  float_lt r2 (defence_chance d) = false ->
  getTotalAttack a <= getTotalDefence d ->
  (Main.attack r1 r2 a d).1 = d.
Proof.
  intros H1 H2 Hle. rewrite (attack_resolved _ _ _ _ H1 H2). cbv zeta.
  destruct (Z.gtb_spec (getTotalAttack a) (getTotalDefence d)); [lia |].
  reflexivity.
Qed.

(** C5.  The hero wears the ring of strength (health delta -10) and has
    health 60; Legolas hits with damage 40 - 20 = 20.  The health
    afterwards is 30, not 40, and exceeds the total health afterwards,
    20.  After three such hits the health is -10, below the floor. *)
Theorem damage_with_negative_ring :
  float_gt 0 (attack_chance legolas) = false
  /\ float_lt 1 (defence_chance hero_with_ring_of_strength) = false
  /\ getTotalAttack legolas - getTotalDefence hero_with_ring_of_strength = 20
  /\ health hero_with_ring_of_strength = 60
  /\ health (hit_by_legolas hero_with_ring_of_strength) = 30
  /\ getTotalHealth (hit_by_legolas hero_with_ring_of_strength) = 20
  /\ health (hit_by_legolas (hit_by_legolas
               (hit_by_legolas hero_with_ring_of_strength))) = -10.
Proof. repeat split. Qed.

(** ** The grid *)

Lemma at_index_Some {A : Type} (v : list A) (i : Z) (x : A) :
  at_index v i = Some x -> 0 <= i /\ v !! Z.to_nat i = Some x.
Proof.
  unfold at_index. destruct (Z.ltb_spec i 0); [discriminate |]. auto.
Qed.

Lemma at_index_alter_same {A : Type} (f : A -> A) (v : list A) (i : Z) :
  0 <= i -> at_index (alter f (Z.to_nat i) v) i = f <$> at_index v i.
Proof.
  intros Hi. unfold at_index. destruct (Z.ltb_spec i 0); [lia |].
  apply list_lookup_alter_eq.
Qed.

Lemma at_index_alter_other {A : Type} (f : A -> A) (v : list A) (i j : Z) :
  0 <= i -> i <> j -> at_index (alter f (Z.to_nat i) v) j = at_index v j.
Proof.
  intros Hi Hne. unfold at_index. destruct (Z.ltb_spec j 0); [reflexivity |].
  apply list_lookup_alter_ne. lia.
Qed.

Lemma getSquare_Some (b : Board) (x y : Z) (sq : Square) :
  getSquare b x y = Some sq -> 0 <= x /\ 0 <= y.
Proof.
  unfold getSquare. destruct (at_index (grid b) x) as [row|] eqn:Hrow;
    [| discriminate].
  intros Hsq. apply at_index_Some in Hrow. apply at_index_Some in Hsq. lia.
Qed.

Lemma getSquare_update_same (f : Square -> Square) (b : Board) (x y : Z)
    (sq : Square) :
  getSquare b x y = Some sq ->
  getSquare (update_square f b x y) x y = Some (f sq).
Proof.
  intros H. destruct (getSquare_Some _ _ _ _ H) as [Hx Hy].
  unfold getSquare in *. simpl. rewrite at_index_alter_same by exact Hx.
  destruct (at_index (grid b) x) as [row|]; [| discriminate]. simpl.
  rewrite at_index_alter_same by exact Hy. now rewrite H.
Qed.

Lemma getSquare_update_other (f : Square -> Square) (b : Board)
    (x y x' y' : Z) :
  0 <= x -> 0 <= y -> (x', y') <> (x, y) ->
  getSquare (update_square f b x y) x' y' = getSquare b x' y'.
Proof.
  intros Hx Hy Hne. unfold getSquare. simpl.
  destruct (Z.eq_dec x x') as [-> | Hxx].
  - rewrite at_index_alter_same by exact Hx.
    destruct (at_index (grid b) x') as [row|]; [| reflexivity]. simpl.
    apply at_index_alter_other; [exact Hy | congruence].
  - now rewrite at_index_alter_other.
Qed.

(** An update of the enemy member at a cell, seen through [enemy_at] and
    [item_at]. *)
Lemma enemy_at_set_enemy_same (e : option Character) (b : Board) (x y : Z)
    (sq : Square) :
  getSquare b x y = Some sq ->
  enemy_at (update_square (set_enemy e) b x y) (x, y) = e.
Proof.
  intros H. unfold enemy_at. simpl.
  now rewrite (getSquare_update_same _ _ _ _ _ H).
Qed.

Lemma enemy_at_update_other (f : Square -> Square) (b : Board) (x y : Z)
    (sq : Square) (cell : Z * Z) :
  getSquare b x y = Some sq -> cell <> (x, y) ->
  enemy_at (update_square f b x y) cell = enemy_at b cell.
Proof.
  intros H Hne. destruct (getSquare_Some _ _ _ _ H) as [Hx Hy].
  destruct cell as [x' y']. unfold enemy_at. simpl.
  now rewrite getSquare_update_other.
Qed.

Lemma item_at_update_other (f : Square -> Square) (b : Board) (x y : Z)
    (sq : Square) (cell : Z * Z) :
  getSquare b x y = Some sq -> cell <> (x, y) ->
  item_at (update_square f b x y) cell = item_at b cell.
Proof.
  intros H Hne. destruct (getSquare_Some _ _ _ _ H) as [Hx Hy].
  destruct cell as [x' y']. unfold item_at. simpl.
  now rewrite getSquare_update_other.
Qed.

(** An update that leaves the enemy member of the square alone leaves
    [enemy_at] alone, and likewise for the item member. *)
Lemma enemy_at_update_frame (f : Square -> Square) (b : Board) (x y : Z)
    (sq : Square) (cell : Z * Z) :
  getSquare b x y = Some sq -> (forall s, enemy (f s) = enemy s) ->
  enemy_at (update_square f b x y) cell = enemy_at b cell.
Proof.
  intros H Hf. destruct (decide (cell = (x, y))) as [-> | Hne].
  - unfold enemy_at. simpl.
    now rewrite (getSquare_update_same _ _ _ _ _ H), H, Hf.
  - now apply enemy_at_update_other with sq.
Qed.

Lemma item_at_update_frame (f : Square -> Square) (b : Board) (x y : Z)
    (sq : Square) (cell : Z * Z) :
  getSquare b x y = Some sq -> (forall s, item (f s) = item s) ->
  item_at (update_square f b x y) cell = item_at b cell.
Proof.
  intros H Hf. destruct (decide (cell = (x, y))) as [-> | Hne].
  - unfold item_at. simpl.
    now rewrite (getSquare_update_same _ _ _ _ _ H), H, Hf.
  - now apply item_at_update_other with sq.
Qed.

Lemma item_at_set_item_same (i : option ItemPtr) (b : Board) (x y : Z)
    (sq : Square) :
  getSquare b x y = Some sq ->
  item_at (update_square (set_item i) b x y) (x, y) = i.
Proof.
  intros H. unfold item_at. simpl.
  now rewrite (getSquare_update_same _ _ _ _ _ H).
Qed.

(** ** Board population *)

(** The cell at which the search loop stops is on the grid and not
    occupied. *)
Lemma find_free_stops_free (occupied : Square -> bool) (b : Board)
    (draws : list nat) :
  forall x y x' y' rest,
    find_free occupied b x y draws = Some (x', y', rest) ->
    exists sq, getSquare b x' y' = Some sq /\ occupied sq = false.
Proof.
  assert (Hn : forall n (ds : list nat), (length ds <= n)%nat ->
    forall x y x' y' rest,
      find_free occupied b x y ds = Some (x', y', rest) ->
      exists sq, getSquare b x' y' = Some sq /\ occupied sq = false).
  { induction n as [|n IH]; intros ds Hlen x y x' y' rest H.
    - destruct ds; [| simpl in Hlen; lia]. simpl in H.
      destruct (getSquare b x y) as [sq|] eqn:Hsq; [| discriminate].
      destruct (occupied sq) eqn:Hocc; [discriminate |].
      inversion H; subst. eauto.
    - destruct ds as [|rx [|ry ds]]; simpl in H;
        destruct (getSquare b x y) as [sq|] eqn:Hsq; try discriminate;
        destruct (occupied sq) eqn:Hocc; try discriminate;
        try (inversion H; subst; eauto; fail).
      destruct ((height b =? 0) || (width b =? 0)); [discriminate |].
      eapply (IH ds); [simpl in Hlen; lia | exact H]. }
  intros. eapply (Hn (length draws)); eauto.
Qed.

Lemma enemy_there_false (sq : Square) :
  enemy_there sq = false -> enemy sq = None.
Proof. unfold enemy_there. destruct (enemy sq); [discriminate | auto]. Qed.

Lemma enemy_or_item_there_false (sq : Square) :
  enemy_or_item_there sq = false -> enemy sq = None /\ item sq = None.
Proof.
  unfold enemy_or_item_there.
  destruct (enemy sq), (item sq); try discriminate; auto.
Qed.

Lemma Forall2_impl_l {A B : Type} (P Q : A -> B -> Prop) (l : list A)
    (k : list B) :
  Forall2 P l k -> (forall x y, x ∈ l -> P x y -> Q x y) -> Forall2 Q l k.
Proof.
  induction 1 as [|x y l k HP _ IH]; intros HPQ; constructor.
  - apply HPQ; [left | exact HP].
  - apply IH. intros x' y' Hin. apply HPQ. now right.
Qed.

Lemma Forall2_elem_l {A B : Type} (P : A -> B -> Prop) (l : list A)
    (k : list B) (x : A) :
  Forall2 P l k -> x ∈ l -> exists y, y ∈ k /\ P x y.
Proof.
  induction 1 as [|x0 y l k HP _ IH]; intros Hin.
  - inversion Hin.
  - apply elem_of_cons in Hin. destruct Hin as [-> | Hin].
    + exists y. split; [left | exact HP].
    + destruct (IH Hin) as (y' & Hy' & HP'). exists y'. split; [now right | auto].
Qed.

(** The first loop: each enemy of the vector is put on a cell of its own
    that held no enemy; no other cell changes its enemy, and no cell
    changes its item. *)
Lemma place_enemies_cells (enemies : list Character) :
  forall b draws b' rest,
    place_enemies b enemies draws = Some (b', rest) ->
    exists cells : list (Z * Z),
      Forall2 (fun cell e => enemy_at b' cell = Some e) cells enemies
      /\ NoDup cells
      /\ (forall cell, cell ∈ cells -> enemy_at b cell = None)
      /\ (forall cell, cell ∉ cells -> enemy_at b' cell = enemy_at b cell)
      /\ (forall cell, item_at b' cell = item_at b cell).
Proof.
  induction enemies as [|e enemies IH]; intros b draws b' rest H; simpl in H.
  - inversion H; subst. exists [].
    split; [constructor | split; [constructor | split; [| auto]]].
    intros cell Hin. inversion Hin.
  - destruct (draw_cell b draws) as [[[x0 y0] d1]|]; [| discriminate].
    destruct (find_free enemy_there b x0 y0 d1) as [[[x y] d2]|] eqn:Hfree;
      [| discriminate].
    destruct (find_free_stops_free _ _ _ _ _ _ _ _ Hfree)
      as (sq & Hsq & Hocc).
    apply enemy_there_false in Hocc.
    destruct (IH _ _ _ _ H) as (cells & Hall & Hnd & Hfresh & Hframe & Hitem).
    assert (Hnew : enemy_at (update_square (set_enemy (Some e)) b x y) (x, y)
                   = Some e)
      by (eapply enemy_at_set_enemy_same; eauto).
    assert (Hnotin : (x, y) ∉ cells).
    { intros Hin. apply Hfresh in Hin. congruence. }
    exists ((x, y) :: cells). split; [| split; [| split; [| split]]].
    + constructor; [| exact Hall]. rewrite Hframe by exact Hnotin. exact Hnew.
    + apply NoDup_cons. auto.
    + intros cell Hin. apply elem_of_cons in Hin. destruct Hin as [-> | Hin].
      * unfold enemy_at. simpl. now rewrite Hsq.
      * rewrite <- (Hfresh _ Hin). symmetry.
        eapply enemy_at_update_other; [exact Hsq |]. congruence.
    + intros cell Hnin. apply not_elem_of_cons in Hnin.
      destruct Hnin as [Hne Hnin]. rewrite (Hframe _ Hnin).
      eapply enemy_at_update_other; eauto.
    + intros cell. rewrite Hitem.
      eapply item_at_update_frame; [exact Hsq | reflexivity].
Qed.

(** The second loop: each item of the vector is put on a cell of its own
    that held neither an enemy nor an item; no other cell changes its
    item, and no cell changes its enemy. *)
Lemma place_items_cells (items : list ItemPtr) :
  forall b draws b' rest,
    place_items b items draws = Some (b', rest) ->
    exists cells : list (Z * Z),
      Forall2 (fun cell i => item_at b' cell = Some i) cells items
      /\ NoDup cells
      /\ (forall cell, cell ∈ cells ->
            enemy_at b cell = None /\ item_at b cell = None)
      /\ (forall cell, cell ∉ cells -> item_at b' cell = item_at b cell)
      /\ (forall cell, enemy_at b' cell = enemy_at b cell).
Proof.
  induction items as [|i items IH]; intros b draws b' rest H; simpl in H.
  - inversion H; subst. exists [].
    split; [constructor | split; [constructor | split; [| auto]]].
    intros cell Hin. inversion Hin.
  - destruct (draw_cell b draws) as [[[x0 y0] d1]|]; [| discriminate].
    destruct (find_free enemy_or_item_there b x0 y0 d1) as [[[x y] d2]|]
      eqn:Hfree; [| discriminate].
    destruct (find_free_stops_free _ _ _ _ _ _ _ _ Hfree)
      as (sq & Hsq & Hocc).
    apply enemy_or_item_there_false in Hocc. destruct Hocc as [Hnoe Hnoi].
    destruct (IH _ _ _ _ H) as (cells & Hall & Hnd & Hfresh & Hframe & Hen).
    assert (Hnew : item_at (update_square (set_item (Some i)) b x y) (x, y)
                   = Some i)
      by (eapply item_at_set_item_same; eauto).
    assert (Hnotin : (x, y) ∉ cells).
    { intros Hin. apply Hfresh in Hin. destruct Hin as [_ Hin]. congruence. }
    assert (Hsame : forall cell,
              enemy_at (update_square (set_item (Some i)) b x y) cell
              = enemy_at b cell).
    { intros cell. eapply enemy_at_update_frame; [exact Hsq | reflexivity]. }
    exists ((x, y) :: cells). split; [| split; [| split; [| split]]].
    + constructor; [| exact Hall]. rewrite Hframe by exact Hnotin. exact Hnew.
    + apply NoDup_cons. auto.
    + intros cell Hin. apply elem_of_cons in Hin. destruct Hin as [-> | Hin].
      * unfold enemy_at, item_at. simpl. now rewrite Hsq.
      * destruct (Hfresh _ Hin) as [He Hi]. rewrite Hsame in He.
        split; [exact He |]. rewrite <- Hi. symmetry.
        eapply item_at_update_other; [exact Hsq |]. congruence.
    + intros cell Hnin. apply not_elem_of_cons in Hnin.
      destruct Hnin as [Hne Hnin]. rewrite (Hframe _ Hnin).
      eapply item_at_update_other; eauto.
    + intros cell. now rewrite Hen, Hsame.
Qed.

(** Both loops together. *)
Lemma populateBoard_cells (b : Board) (enemies : list Character)
    (items : list ItemPtr) (draws : list nat) (b' : Board)
    (rest : list nat) :
  populateBoard b enemies items draws = Some (b', rest) ->
  exists ecells icells : list (Z * Z),
    Forall2 (fun cell e => enemy_at b' cell = Some e) ecells enemies
    /\ Forall2 (fun cell i => item_at b' cell = Some i
                              /\ enemy_at b' cell = None) icells items
    /\ NoDup (ecells ++ icells)
    /\ (forall cell, cell ∈ ecells ++ icells ->
          enemy_at b cell = None /\ (cell ∈ icells -> item_at b cell = None))
    /\ (forall cell, cell ∉ ecells -> enemy_at b' cell = enemy_at b cell)
    /\ (forall cell, cell ∉ icells -> item_at b' cell = item_at b cell).
Proof.
  unfold populateBoard. intros H.
  destruct (place_enemies b enemies draws) as [[b1 d1]|] eqn:He;
    [| discriminate].
  destruct (place_enemies_cells _ _ _ _ _ He)
    as (ecells & HEall & HEnd & HEfresh & HEframe & HEitem).
  destruct (place_items_cells _ _ _ _ _ H)
    as (icells & HIall & HInd & HIfresh & HIframe & HIenemy).
  assert (Hdisj : forall cell, cell ∈ ecells -> cell ∉ icells).
  { intros cell Hin Hin'.
    destruct (Forall2_elem_l _ _ _ _ HEall Hin) as (e & _ & Hsome).
    destruct (HIfresh _ Hin') as [Hnone _]. congruence. }
  exists ecells, icells. split; [| split; [| split; [| split; [| split]]]].
  - eapply Forall2_impl_l; [exact HEall |]. intros cell e _ Hc.
    now rewrite HIenemy.
  - eapply Forall2_impl_l; [exact HIall |]. intros cell i Hin Hc.
    split; [exact Hc |]. rewrite HIenemy. now apply HIfresh.
  - apply NoDup_app. auto.
  - intros cell Hin. apply elem_of_app in Hin. destruct Hin as [Hin | Hin].
    + split; [now apply HEfresh |]. intros Hin'. now apply Hdisj in Hin.
    + destruct (HIfresh _ Hin) as [Hnoe Hnoi]. split.
      * destruct (decide (cell ∈ ecells)) as [Hin' | Hnin];
          [now apply HEfresh |]. now rewrite <- (HEframe _ Hnin).
      * intros _. now rewrite <- HEitem.
  - intros cell Hnin. now rewrite HIenemy, HEframe.
  - intros cell Hnin. now rewrite HIframe, HEitem.
Qed.

(** C6.  Whenever [populateBoard] finishes, each enemy of the vector sits
    on a cell and each item of the vector sits on a cell such that all
    these cells are pairwise different and the cells of the items hold no
    enemy; the other cells of the board hold what they held before.  On a
    board that held no item before, no cell holds both an item and an
    enemy afterwards. *)
Theorem populateBoard_no_shared_cell (b : Board) (enemies : list Character)
    (items : list ItemPtr) (draws : list nat) (b' : Board)
    (rest : list nat) :
  populateBoard b enemies items draws = Some (b', rest) ->
  exists ecells icells : list (Z * Z),
    Forall2 (fun cell e => enemy_at b' cell = Some e) ecells enemies
    /\ Forall2 (fun cell i => item_at b' cell = Some i
                              /\ enemy_at b' cell = None) icells items
    /\ NoDup (ecells ++ icells)
    /\ (forall cell, cell ∉ ecells -> enemy_at b' cell = enemy_at b cell)
    /\ (forall cell, cell ∉ icells -> item_at b' cell = item_at b cell)
    /\ ((forall cell, item_at b cell = None) ->
        forall cell, is_Some (item_at b' cell) -> enemy_at b' cell = None).
Proof.
  intros H.
  destruct (populateBoard_cells _ _ _ _ _ _ H)
    as (ecells & icells & HE & HI & Hnd & _ & HEframe & HIframe).
  exists ecells, icells. repeat (split; [assumption |]).
  intros Hempty cell [i Hi].
  destruct (decide (cell ∈ icells)) as [Hin | Hnin].
  - destruct (Forall2_elem_l _ _ _ _ HI Hin) as (i' & _ & _ & Hnone).
    exact Hnone.
  - rewrite (HIframe _ Hnin), Hempty in Hi. discriminate.
Qed.

Lemma new_Board_empty (w h : Z) (cell : Z * Z) :
  enemy_at (new_Board w h) cell = None /\ item_at (new_Board w h) cell = None.
Proof.
  unfold enemy_at, item_at, getSquare, at_index. simpl.
  destruct (cell.1 <? 0); [auto |].
  destruct (replicate (Z.to_nat h) _ !! Z.to_nat cell.1) as [row|] eqn:Hrow;
    [| auto].
  apply lookup_replicate in Hrow. destruct Hrow as [-> _].
  destruct (cell.2 <? 0); [auto |].
  destruct (replicate (Z.to_nat w) _ !! Z.to_nat cell.2) as [sq|] eqn:Hsq;
    [| auto].
  apply lookup_replicate in Hsq. now destruct Hsq as [-> _].
Qed.

(** On a board just built, as in [main]: afterwards no cell holds both an
    enemy and an item, and what the cells hold are the enemies and items
    of the vectors. *)
Lemma populateBoard_new_Board (w h : Z) (enemies : list Character)
    (items : list ItemPtr) (draws : list nat) (b' : Board)
    (rest : list nat) :
  populateBoard (new_Board w h) enemies items draws = Some (b', rest) ->
  forall cell,
    ~ (is_Some (enemy_at b' cell) /\ is_Some (item_at b' cell))
    /\ (forall e, enemy_at b' cell = Some e -> e ∈ enemies)
    /\ (forall i, item_at b' cell = Some i -> i ∈ items).
Proof.
  intros H cell.
  destruct (populateBoard_cells _ _ _ _ _ _ H)
    as (ecells & icells & HE & HI & Hnd & _ & HEframe & HIframe).
  destruct (new_Board_empty w h cell) as [Hnoe Hnoi].
  assert (Hitem : forall i, item_at b' cell = Some i ->
            i ∈ items /\ enemy_at b' cell = None).
  { intros i Hi. destruct (decide (cell ∈ icells)) as [Hin | Hnin].
    - destruct (Forall2_elem_l _ _ _ _ HI Hin) as (i' & Hin' & Hi' & Hnone).
      split; [congruence | exact Hnone].
    - rewrite (HIframe _ Hnin), Hnoi in Hi. discriminate. }
  split; [| split].
  - intros [[e He] [i Hi]]. destruct (Hitem _ Hi) as [_ Hnone]. congruence.
  - intros e He. destruct (decide (cell ∈ ecells)) as [Hin | Hnin].
    + destruct (Forall2_elem_l _ _ _ _ HE Hin) as (e' & Hin' & He').
      congruence.
    + rewrite (HEframe _ Hnin), Hnoe in He. discriminate.
  - intros i Hi. now destruct (Hitem _ Hi).
Qed.

Lemma populateBoard_no_shared_cell_witness :
  exists b' rest,
    populateBoard small_board small_enemies small_items small_draws
    = Some (b', rest)
    /\ exists ecells icells : list (Z * Z),
         Forall2 (fun cell e => enemy_at b' cell = Some e) ecells small_enemies
         /\ Forall2 (fun cell i => item_at b' cell = Some i
                                   /\ enemy_at b' cell = None)
              icells small_items
         /\ NoDup (ecells ++ icells).
Proof.
  assert (E : finished (populateBoard small_board small_enemies small_items
                          small_draws) = true)
    by (vm_compute; reflexivity).
  destruct (populateBoard small_board small_enemies small_items small_draws)
    as [[b' rest]|] eqn:H; [| discriminate].
  exists b', rest. split; [reflexivity |].
  destruct (populateBoard_no_shared_cell _ _ _ _ _ _ H)
    as (ecells & icells & HE & HI & Hnd & _).
  exists ecells, icells. auto.
Defined.

(** The three placements of the small example. *)
Example small_board_populated :
  match populateBoard small_board small_enemies small_items small_draws with
  | Some (b', rest) =>
    enemy_at b' (0, 0) = Some (new_Orc "Azog")
    /\ enemy_at b' (1, 1) = Some legolas
    /\ item_at b' (0, 1) = Some (PtrWeapon Sword)
    /\ rest = []
  | None => False
  end.
Proof. vm_compute. repeat split. Qed.

(** The search does not stop within the draws when they only name occupied
    cells. *)
Example populateBoard_out_of_draws :
  populateBoard small_board small_enemies small_items [0; 0; 0; 0; 0; 0]%nat
  = None.
Proof. reflexivity. Qed.

(** ** Orcs and the time of day *)

Lemma elem_of_all_cells (b : Board) (cell : Z * Z) :
  cell ∈ all_cells b <-> on_board b cell.
Proof.
  unfold all_cells, on_board. rewrite list_elem_of_bind. split.
  - intros (r & Hin & Hr). apply list_elem_of_fmap in Hin.
    destruct Hin as (c & -> & Hc). apply elem_of_seqZ in Hr, Hc. simpl. lia.
  - intros [Hr Hc]. exists cell.1. split.
    + apply list_elem_of_fmap. exists cell.2. split.
      * now destruct cell.
      * apply elem_of_seqZ. lia.
    + apply elem_of_seqZ. lia.
Qed.

Lemma setTimeOfDay_quadruple (night : bool) (e : Character) :
  stat_quadruple (setTimeOfDay night e) = time_quadruple night
  /\ race (setTimeOfDay night e) = Orc night.
Proof. destruct night; split; reflexivity. Qed.

Lemma enemies_kept_refl (b : Board) : enemies_kept b b.
Proof. repeat split. intros cell e' H. exists e'. auto. Qed.

Lemma enemies_kept_trans (b1 b2 b3 : Board) :
  enemies_kept b1 b2 -> enemies_kept b2 b3 -> enemies_kept b1 b3.
Proof.
  intros (Hh1 & Hw1 & H1) (Hh2 & Hw2 & H2).
  split; [congruence | split; [congruence |]].
  intros cell e3 He3. destruct (H2 _ _ He3) as (e2 & He2 & Ho2 & Hq2).
  destruct (H1 _ _ He2) as (e1 & He1 & Ho1 & Hq1).
  exists e1. repeat split; congruence.
Qed.

(** An update that leaves the enemy member of the square alone. *)
Lemma enemies_kept_frame (f : Square -> Square) (b : Board) (x y : Z)
    (sq : Square) :
  getSquare b x y = Some sq -> (forall s, enemy (f s) = enemy s) ->
  enemies_kept b (update_square f b x y).
Proof.
  intros Hsq Hf. repeat split. intros cell e' He'.
  rewrite (enemy_at_update_frame _ _ _ _ _ _ Hsq Hf) in He'.
  exists e'. auto.
Qed.

(** The enemy of a square is replaced by itself with another health, or
    removed. *)
Lemma enemies_kept_set_enemy (b : Board) (x y : Z) (sq : Square)
    (e : Character) (new : option Character) :
  getSquare b x y = Some sq -> enemy sq = Some e ->
  (forall e', new = Some e' -> exists h, e' = set_health h e) ->
  enemies_kept b (update_square (set_enemy new) b x y).
Proof.
  intros Hsq He Hnew. repeat split. intros cell e' He'.
  destruct (decide (cell = (x, y))) as [-> | Hne].
  - rewrite (enemy_at_set_enemy_same _ _ _ _ _ Hsq) in He'.
    destruct (Hnew _ He') as [h ->].
    exists e. unfold enemy_at. simpl. rewrite Hsq. auto.
  - rewrite (enemy_at_update_other _ _ _ _ _ _ Hsq Hne) in He'.
    exists e'. auto.
Qed.

Lemma orcs_match_on_kept (night : bool) (b b' : Board) :
  enemies_kept b b' -> orcs_match_on night b -> orcs_match_on night b'.
Proof.
  intros (Hh & Hw & Hk) Hm cell e' Hon He' Horc.
  destruct (Hk _ _ He') as (e & He & Ho & Hq). rewrite Hq.
  apply (Hm cell e); [| exact He | congruence].
  unfold on_board in *. now rewrite <- Hh, <- Hw.
Qed.

(** No branch of the [switch] changes the class or the quadruple of an
    enemy, or the time of day. *)
Lemma command_keeps_enemies (cmd : Command) (g g' : Game) :
  command cmd g = Some g' ->
  isNight g' = isNight g /\ enemies_kept (board g) (board g').
Proof.
  destruct cmd; simpl; intros H.
  - destruct (playerRow g >? 0); [| inversion H; subst; simpl;
      auto using enemies_kept_refl].
    unfold look_at_square in H. simpl in H.
    destruct (getSquare _ _ _); inversion H; subst; simpl;
      auto using enemies_kept_refl.
  - destruct (playerRow g <? 11); [| inversion H; subst; simpl;
      auto using enemies_kept_refl].
    unfold look_at_square in H. simpl in H.
    destruct (getSquare _ _ _); inversion H; subst; simpl;
      auto using enemies_kept_refl.
  - destruct (playerColumn g >? 0); [| inversion H; subst; simpl;
      auto using enemies_kept_refl].
    unfold look_at_square in H. simpl in H.
    destruct (getSquare _ _ _); inversion H; subst; simpl;
      auto using enemies_kept_refl.
  - destruct (playerColumn g <? 11); [| inversion H; subst; simpl;
      auto using enemies_kept_refl].
    unfold look_at_square in H. simpl in H.
    destruct (getSquare _ _ _); inversion H; subst; simpl;
      auto using enemies_kept_refl.
  - inversion H; subst; simpl; auto using enemies_kept_refl.
  - destruct (getSquare (board g) (playerRow g) (playerColumn g))
      as [sq|] eqn:Hsq; [| discriminate].
    destruct (enemy sq) as [e|] eqn:He;
      [| inversion H; subst; simpl; auto using enemies_kept_refl].
    set (e1 := (Main.attack roll1 roll2 (player g) e).1) in *.
    assert (Hb1 : enemies_kept (board g)
              (update_square (set_enemy (Some e1)) (board g)
                 (playerRow g) (playerColumn g))).
    { eapply enemies_kept_set_enemy; eauto.
      intros e' [= <-]. exists (health e1). subst e1.
      apply attack_writes_health_only. }
    destruct (defeated e1).
    + destruct (anyEnemiesLeft _); inversion H; subst; simpl.
      split; [reflexivity |].
      eapply enemies_kept_trans; [exact Hb1 |].
      eapply enemies_kept_set_enemy with (e := e1);
        [apply getSquare_update_same; exact Hsq | reflexivity |].
      intros e' [=].
    + inversion H; subst; simpl. auto.
  - inversion H; subst; simpl; auto using enemies_kept_refl.
  - inversion H; subst; simpl; auto using enemies_kept_refl.
  - destruct (getSquare (board g) (playerRow g) (playerColumn g))
      as [sq|] eqn:Hsq; [| discriminate].
    destruct (item sq) as [it|];
      [| inversion H; subst; simpl; auto using enemies_kept_refl].
    destruct (pickUp (player g) it) as [accepted p].
    inversion H; subst; simpl. split; [reflexivity |].
    destruct accepted; [| apply enemies_kept_refl].
    eapply enemies_kept_frame; [exact Hsq | reflexivity].
  - inversion H; subst; simpl; auto using enemies_kept_refl.
  - inversion H; subst; simpl; auto using enemies_kept_refl.
Qed.

(** The body of the day/night loops at one cell: afterwards the enemy of
    that cell matches, and every cell that matched still does. *)
Lemma orc_setTimeOfDay_at_matches (night : bool) (b b' : Board)
    (cell : Z * Z) :
  orc_setTimeOfDay_at night b cell = Some b' ->
  height b' = height b /\ width b' = width b
  /\ orc_matches_at night b' cell
  /\ (forall c, orc_matches_at night b c -> orc_matches_at night b' c).
Proof.
  unfold orc_setTimeOfDay_at. destruct cell as [x y]. simpl.
  destruct (getSquare b x y) as [sq|] eqn:Hsq; [| discriminate].
  assert (Hhere : enemy_at b (x, y) = enemy sq)
    by (unfold enemy_at; simpl; now rewrite Hsq).
  assert (Hplain : is_Orc <$> enemy sq <> Some true ->
            orc_matches_at night b (x, y)).
  { intros Hno e He Horc. rewrite Hhere in He. rewrite He in Hno.
    simpl in Hno. congruence. }
  destruct (enemy sq) as [e|] eqn:He.
  - destruct (race e) eqn:Hrace;
      try (intros [= <-];
           split; [reflexivity | split; [reflexivity | split; [| auto]]];
           apply Hplain; simpl; unfold is_Orc; rewrite Hrace; discriminate).
    intros [= <-]. repeat split.
    + intros e' He' _.
      rewrite (enemy_at_set_enemy_same _ _ _ _ _ Hsq) in He'.
      injection He' as <-. apply setTimeOfDay_quadruple.
    + intros c Hc e' He' Horc. destruct (decide (c = (x, y))) as [-> | Hne].
      * rewrite (enemy_at_set_enemy_same _ _ _ _ _ Hsq) in He'.
        injection He' as <-. apply setTimeOfDay_quadruple.
      * rewrite (enemy_at_update_other _ _ _ _ _ _ Hsq Hne) in He'.
        now apply (Hc e').
  - intros [= <-]. split; [reflexivity | split; [reflexivity | split; [| auto]]].
    apply Hplain. discriminate.
Qed.

(** The loops: afterwards every visited cell matches, and every cell that
    matched still does. *)
Lemma orcs_setTimeOfDay_matches (night : bool) (cells : list (Z * Z)) :
  forall b b',
    orcs_setTimeOfDay night cells b = Some b' ->
    height b' = height b /\ width b' = width b
    /\ forall c, c ∈ cells \/ orc_matches_at night b c ->
                 orc_matches_at night b' c.
Proof.
  induction cells as [|cell cells IH]; intros b b' H; simpl in H.
  - injection H as <-. repeat split. intros c [Hin | Hc]; [| exact Hc].
    inversion Hin.
  - destruct (orc_setTimeOfDay_at night b cell) as [b1|] eqn:H1;
      [| discriminate].
    destruct (orc_setTimeOfDay_at_matches _ _ _ _ H1)
      as (Hh1 & Hw1 & Hcell & Hkeep).
    destruct (IH _ _ H) as (Hh & Hw & Hall).
    split; [congruence | split; [congruence |]].
    intros c [Hin | Hc].
    + apply elem_of_cons in Hin. destruct Hin as [-> | Hin].
      * apply Hall. now right.
      * apply Hall. now left.
    + apply Hall. right. now apply Hkeep.
Qed.

(** The day/night logic either leaves the game as it is, or flips the
    flag and runs the loops over the whole board. *)
Lemma dayNight_cases (g g' : Game) :
  dayNight g = Some g' ->
  g' = g
  \/ (isNight g' = negb (isNight g)
      /\ orcs_setTimeOfDay (isNight g') (all_cells (board g)) (board g)
         = Some (board g')).
Proof.
  unfold dayNight.
  destruct (Z.rem (commandCount g) 10 <? 5), (isNight g) eqn:Hn; simpl;
    try (intros [= <-]; now left).
  - destruct (orcs_setTimeOfDay false _ _) as [b|] eqn:Hb; [| discriminate].
    intros [= <-]. right. simpl. auto.
  - destruct (orcs_setTimeOfDay true _ _) as [b|] eqn:Hb; [| discriminate].
    intros [= <-]. right. simpl. auto.
Qed.

Lemma orcs_match_after_flip (night : bool) (b b' : Board) :
  orcs_setTimeOfDay night (all_cells b) b = Some b' ->
  orcs_match_on night b'.
Proof.
  intros H. destruct (orcs_setTimeOfDay_matches _ _ _ _ H) as (Hh & Hw & Hall).
  intros cell e Hon. apply (Hall cell). left. apply elem_of_all_cells.
  unfold on_board in *. now rewrite <- Hh, <- Hw.
Qed.

(** One iteration of the loop, seen from the enemies: either the flag is
    the same and every enemy kept its class and quadruple, or the flag
    flipped and every Orc among the enemies got the quadruple of the new
    time of day. *)
Lemma step_enemy_orcs (cmd : Command) (g g' : Game) :
  step cmd g = Some g' ->
  (isNight g' = isNight g /\ enemies_kept (board g) (board g'))
  \/ (isNight g' = negb (isNight g) /\ enemy_orcs_match g').
Proof.
  unfold step.
  destruct (getSquare (board g) (playerRow g) (playerColumn g))
    as [sq0|] eqn:Hsq0; [| discriminate].
  set (g1 := set_board _ g).
  assert (H01 : enemies_kept (board g) (board g1)).
  { subst g1. simpl. eapply enemies_kept_frame; [exact Hsq0 | reflexivity]. }
  destruct (command cmd g1) as [g2|] eqn:Hcmd; [| discriminate].
  destruct (command_keeps_enemies _ _ _ Hcmd) as [Hn12 H12].
  destruct (dayNight g2) as [g3|] eqn:Hdn; [| discriminate].
  destruct (getSquare (board g3) (playerRow g3) (playerColumn g3))
    as [sq3|] eqn:Hsq3; [| discriminate].
  intros [= <-]. simpl.
  assert (H3 : enemies_kept (board g3)
            (update_square (set_has_player true) (board g3)
               (playerRow g3) (playerColumn g3))).
  { eapply enemies_kept_frame; [exact Hsq3 | reflexivity]. }
  destruct (dayNight_cases _ _ Hdn) as [-> | [Hflip Hloops]].
  - left. split; [exact Hn12 |].
    eauto using enemies_kept_trans.
  - right. split; [rewrite Hflip; f_equal; exact Hn12 |].
    unfold enemy_orcs_match. simpl.
    eapply orcs_match_on_kept; [exact H3 |].
    eapply orcs_match_after_flip. exact Hloops.
Qed.

(** X25.  Whenever the day/night flag flips in an iteration of the loop, every
    Orc in the enemy member of a square of the board has its quadruple
    overwritten with the one of the new time of day,
    (25, 0.25, 10, 0.25) by day and (45, 1.0, 25, 0.5) by night; and if
    every such Orc matched the time of day before an iteration, every such
    Orc matches it afterwards. *)
Theorem enemy_orcs_follow_time_of_day (cmd : Command) (g g' : Game) :
  step cmd g = Some g' ->
  (isNight g' <> isNight g -> enemy_orcs_match g')
  /\ (enemy_orcs_match g -> enemy_orcs_match g')
  /\ time_quadruple false = (25, 1 # 4, 10, 1 # 4)
  /\ time_quadruple true = (45, 1%Q, 25, 1 # 2).
Proof.
  intros H. destruct (step_enemy_orcs _ _ _ H) as [[Hn Hk] | [Hn Hm]].
  - split; [congruence |]. split; [| split; reflexivity].
    unfold enemy_orcs_match. rewrite Hn. now apply orcs_match_on_kept.
  - repeat split; auto.
Qed.

Lemma step_keeps_enemy_orcs (cmd : Command) (g g' : Game) :
  step cmd g = Some g' -> enemy_orcs_match g -> enemy_orcs_match g'.
Proof.
  intros H Hm. destruct (step_enemy_orcs _ _ _ H) as [[Hn Hk] | [_ Hm']].
  - unfold enemy_orcs_match. rewrite Hn. now apply orcs_match_on_kept with (board g).
  - exact Hm'.
Qed.

Lemma run_keeps_enemy_orcs (cmds : list Command) :
  forall g g',
    run cmds g = Some g' -> enemy_orcs_match g -> enemy_orcs_match g'.
Proof.
  induction cmds as [|cmd cmds IH]; intros g g' H Hm; simpl in H.
  - now injection H as <-.
  - destruct (gameOver g); [now injection H as <- |].
    destruct (step cmd g) as [g1|] eqn:Hstep; [| discriminate].
    eauto using step_keeps_enemy_orcs.
Qed.

Lemma new_Board_no_enemy (w h : Z) (cell : Z * Z) :
  enemy_at (new_Board w h) cell = None.
Proof. apply new_Board_empty. Qed.

(** On a board just built and populated with enemies whose Orcs have the
    stats of the day, every Orc among the enemies matches the day. *)
Lemma populated_orcs_match (w h : Z) (enemies : list Character)
    (items : list ItemPtr) (draws : list nat) (b : Board) (rest : list nat) :
  Forall (fun e => is_Orc e = true ->
                   stat_quadruple e = time_quadruple false) enemies ->
  populateBoard (new_Board w h) enemies items draws = Some (b, rest) ->
  orcs_match_on false b.
Proof.
  intros Hfresh H cell e _ He Horc.
  destruct (populateBoard_cells _ _ _ _ _ _ H)
    as (ecells & icells & HE & _ & _ & _ & HEframe & _).
  destruct (decide (cell ∈ ecells)) as [Hin | Hnin].
  - destruct (Forall2_elem_l _ _ _ _ HE Hin) as (e0 & Hin0 & He0).
    assert (e0 = e) by congruence. subst e0.
    rewrite Forall_forall in Hfresh. now apply Hfresh.
  - rewrite (HEframe _ Hnin), new_Board_no_enemy in He. discriminate.
Qed.

Lemma main_enemies_fresh :
  Forall (fun e => is_Orc e = true ->
                   stat_quadruple e = time_quadruple false) main_enemies.
Proof. repeat constructor; intros; try discriminate. Qed.

(** The game of [main]: from the populated board on, after any commands,
    every Orc among the enemies on the board matches the time of day. *)
Lemma main_enemy_orcs_match (w h : Z) (draws : list nat) (b : Board)
    (rest : list nat) (p : Character) (cmds : list Command) (g : Game) :
  populateBoard (new_Board w h) main_enemies main_items draws
  = Some (b, rest) ->
  run cmds (start_game b p) = Some g ->
  enemy_orcs_match g.
Proof.
  intros Hpop Hrun. eapply run_keeps_enemy_orcs; [exact Hrun |].
  unfold enemy_orcs_match. simpl.
  eapply populated_orcs_match; [exact main_enemies_fresh | exact Hpop].
Qed.

Lemma main_board_populated :
  exists rest,
    populateBoard (new_Board 12 12) main_enemies main_items main_draws
    = Some (main_board, rest).
Proof.
  assert (E : finished (populateBoard (new_Board 12 12) main_enemies
                          main_items main_draws) = true)
    by (vm_compute; reflexivity).
  unfold main_board.
  destruct (populateBoard (new_Board 12 12) main_enemies main_items
              main_draws) as [[b rest]|] eqn:H; [| discriminate].
  now exists rest.
Qed.

Lemma enemy_orcs_follow_time_of_day_witness :
  exists g',
    step Look orc_game = Some g'
    /\ (enemy_orcs_match orc_game -> enemy_orcs_match g').
Proof.
  assert (E : finished (step Look orc_game) = true)
    by (vm_compute; reflexivity).
  destruct (step Look orc_game) as [g'|] eqn:H; [| discriminate].
  exists g'. split; [reflexivity |].
  apply (enemy_orcs_follow_time_of_day Look orc_game g' H).
Defined.

(** The Orc enemy of the example game has the stats of the night after the
    fifth command. *)
Example azog_at_night :
  match run [Look; Look; Look; Look; Look] orc_game with
  | Some g =>
    isNight g = true
    /\ (stat_quadruple <$> enemy_at (board g) (5, 5))
       = Some (time_quadruple true)
  | None => False
  end.
Proof. vm_compute. split; reflexivity. Qed.

(** C9.  The player chose the race Orc and types the command [k] five
    times on the board of [main].  After four commands it is day and every
    Orc on the board, the player included, has the quadruple of the day.
    The fifth command flips the flag to night; afterwards the player is
    on the board, is an Orc, and still has the quadruple of the day, while
    the Orcs among the enemies have the one of the night. *)
Theorem orc_player_keeps_day_stats :
  exists g4 g5,
    run [Look; Look; Look; Look] orc_game = Some g4
    /\ step Look g4 = Some g5
    /\ all_orcs_match g4
    /\ isNight g4 = false /\ isNight g5 = true
    /\ player_on_board g5
    /\ is_Orc (player g5) = true
    /\ stat_quadruple (player g5) = time_quadruple false
    /\ enemy_orcs_match g5
    /\ ~ all_orcs_match g5.
Proof.
  destruct main_board_populated as [rest Hpop].
  assert (E4 : (fun g => (isNight g, stat_quadruple (player g)))
               <$> run [Look; Look; Look; Look] orc_game
               = Some (false, time_quadruple false))
    by (vm_compute; reflexivity).
  assert (E5 : (fun g => (isNight g, is_Orc (player g),
                          stat_quadruple (player g),
                          has_player <$> getSquare (board g) (playerRow g)
                                           (playerColumn g)))
               <$> (run [Look; Look; Look; Look] orc_game ≫= step Look)
               = Some (true, true, time_quadruple false, Some true))
    by (vm_compute; reflexivity).
  destruct (run [Look; Look; Look; Look] orc_game) as [g4|] eqn:H4;
    [| discriminate].
  change (Some (isNight g4, stat_quadruple (player g4))
          = Some (false, time_quadruple false)) in E4.
  assert (Hday4 : isNight g4 = false) by congruence.
  assert (Hquad4 : stat_quadruple (player g4) = time_quadruple false)
    by congruence.
  change (((fun g => (isNight g, is_Orc (player g),
                      stat_quadruple (player g),
                      has_player <$> getSquare (board g) (playerRow g)
                                       (playerColumn g)))
           <$> step Look g4)
          = Some (true, true, time_quadruple false, Some true)) in E5.
  destruct (step Look g4) as [g5|] eqn:H5; [| discriminate].
  change (Some (isNight g5, is_Orc (player g5), stat_quadruple (player g5),
                has_player <$> getSquare (board g5) (playerRow g5)
                                 (playerColumn g5))
          = Some (true, true, time_quadruple false, Some true)) in E5.
  assert (Hnight : isNight g5 = true) by congruence.
  assert (Horc : is_Orc (player g5) = true) by congruence.
  assert (Hday : stat_quadruple (player g5) = time_quadruple false)
    by congruence.
  assert (Hsq : (has_player <$> getSquare (board g5) (playerRow g5)
                                  (playerColumn g5)) = Some true)
    by congruence.
  assert (Hm4 : enemy_orcs_match g4)
    by (eapply main_enemy_orcs_match; [exact Hpop | exact H4]).
  assert (Hall4 : all_orcs_match g4).
  { split; [exact Hm4 |]. intros _ _. now rewrite Hday4, Hquad4. }
  assert (Hplayer : player_on_board g5).
  { unfold player_on_board.
    destruct (getSquare (board g5) (playerRow g5) (playerColumn g5))
      as [sq|]; [| discriminate].
    exists sq. split; [reflexivity |]. simpl in Hsq. congruence. }
  assert (Hm5 : enemy_orcs_match g5)
    by (eapply step_keeps_enemy_orcs; [exact H5 | exact Hm4]).
  assert (Hnot : ~ all_orcs_match g5).
  { intros [_ Hall]. specialize (Hall Hplayer Horc).
    rewrite Hday, Hnight in Hall. discriminate. }
  exists g4, g5.
  repeat (split; [first [assumption | reflexivity] |]). assumption.
Qed.

(** * Further properties *)

(** ** Combat and the reactions *)

Lemma health_after_damage_le (dmg : Z) (d : Character) :
  0 < dmg -> 0 <= health d -> health_after_damage dmg d <= health d.
Proof. intros Hd Hh. unfold health_after_damage. lia. Qed.

(** X1.  [attack] writes nothing but the health of the defender, and a health
    that is not negative is never raised by it. *)
Theorem attack_never_heals (r1 r2 : Q) (a d : Character) :
  0 <= health d ->
  (Main.attack r1 r2 a d).1 = set_health (health (Main.attack r1 r2 a d).1) d
  /\ health (Main.attack r1 r2 a d).1 <= health d.
Proof.
  intros Hh. split; [apply attack_writes_health_only |].
  destruct (float_gt r1 (attack_chance a)) eqn:H1.
  { rewrite (attack_missed _ r2 _ d H1). simpl. lia. }
  destruct (float_lt r2 (defence_chance d)) eqn:H2.
  { rewrite (attack_defended _ _ _ _ H1 H2). simpl. lia. }
  rewrite (attack_resolved _ _ _ _ H1 H2). cbv zeta. simpl fst.
  destruct (Z.gtb_spec (getTotalAttack a) (getTotalDefence d)); [| lia].
  rewrite health_set_health. apply health_after_damage_le; lia.
Qed.

Lemma attack_never_heals_witness :
  health (Main.attack 0 1 legolas hero).1 <= health hero.
Proof. apply (attack_never_heals 0 1 legolas hero). vm_compute. discriminate. Defined.

(** X2.  When the health of the defender is not negative and the health deltas
    of its rings do not sum to a negative number, the health after
    [attack] is between 0 and the total health; it is the health before,
    less the damage and floored at 0, when the attack is neither missed
    nor defended and exceeds the defence, and the health before
    otherwise. *)
Theorem attack_keeps_health_in_range (r1 r2 : Q) (a d : Character) :
  0 <= health d ->
  0 <= sumZ ring_health (ring d) ->
  0 <= health (Main.attack r1 r2 a d).1
       <= getTotalHealth (Main.attack r1 r2 a d).1
  /\ health (Main.attack r1 r2 a d).1
     = if negb (float_gt r1 (attack_chance a))
          && negb (float_lt r2 (defence_chance d))
          && (getTotalAttack a >? getTotalDefence d)
       then Z.max 0 (health d - (getTotalAttack a - getTotalDefence d))
       else health d.
Proof.
  intros Hh Hr. rewrite getTotalHealth_sum, attack_keeps_rings.
  destruct (float_gt r1 (attack_chance a)) eqn:H1.
  { rewrite (attack_missed _ r2 _ d H1). simpl. lia. }
  destruct (float_lt r2 (defence_chance d)) eqn:H2.
  { rewrite (attack_defended _ _ _ _ H1 H2). simpl. lia. }
  rewrite (attack_resolved _ _ _ _ H1 H2). cbv zeta. simpl fst. simpl negb.
  simpl andb.
  destruct (getTotalAttack a >? getTotalDefence d); [| lia].
  rewrite health_set_health. unfold health_after_damage. lia.
Qed.

Lemma attack_keeps_health_in_range_witness :
  0 <= health (Main.attack 0 1 legolas hero_with_ring_of_life).1
       <= getTotalHealth (Main.attack 0 1 legolas hero_with_ring_of_life).1.
Proof.
  apply (attack_keeps_health_in_range 0 1 legolas hero_with_ring_of_life);
    vm_compute; discriminate.
Defined.

(** X3.  The reactions of the five classes and of the base class write nothing
    but the health of the defender and never make a health negative that
    was not; those of [Human], [Dwarf] and the base class leave it, those
    of [Elf] and of [Orc] by night add 1, that of [Hobbit] takes at most 5
    and that of [Orc] by day at most a quarter of the excess of the
    attacker's attack over the defender's defence. *)
Theorem reactions_bounds (rand_value : Z) (a d : Character) :
  0 <= health d -> 0 <= rand_value ->
  Forall (fun d' => d' = set_health (health d') d /\ 0 <= health d')
    [Character_successfulDef a d; Human_successfulDef a d;
     Elf_successfulDef a d; Dwarf_successfulDef a d;
     Hobbit_successfulDef rand_value a d;
     Orc_successfulDef false a d; Orc_successfulDef true a d]
  /\ health (Character_successfulDef a d) = health d
  /\ health (Human_successfulDef a d) = health d
  /\ health (Dwarf_successfulDef a d) = health d
  /\ health (Elf_successfulDef a d) = health d + 1
  /\ health (Orc_successfulDef true a d) = health d + 1
  /\ health d - 5 <= health (Hobbit_successfulDef rand_value a d) <= health d
  /\ health d - Z.max 0 (attack a - defence d) / 4
     <= health (Orc_successfulDef false a d) <= health d.
Proof.
  intros Hh Hr.
  assert (Hid : d = set_health (health d) d) by (destruct d; reflexivity).
  assert (Hrem : 0 <= Z.rem rand_value 6 <= 5).
  { rewrite Z.rem_mod_nonneg by lia. pose proof (Z.mod_pos_bound rand_value 6).
    lia. }
  assert (Hhob : Hobbit_successfulDef rand_value a d
                 = set_health (Z.max 0 (health d - Z.rem rand_value 6)) d).
  { unfold Hobbit_successfulDef. cbv zeta. rewrite health_set_health.
    destruct (Z.ltb_spec (health d - Z.rem rand_value 6) 0).
    - rewrite set_health_twice. f_equal. lia.
    - f_equal. lia. }
  assert (Horc : Orc_successfulDef false a d
                 = set_health
                     (Z.max 0 (health d - Z.max 0 (attack a - defence d) / 4))
                     d).
  { unfold Orc_successfulDef. simpl negb. cbv iota zeta.
    assert (Hq : Z.quot (if attack a - defence d <? 0 then 0
                         else attack a - defence d) 4
                 = Z.max 0 (attack a - defence d) / 4).
    { destruct (Z.ltb_spec (attack a - defence d) 0).
      - rewrite Z.max_l by lia. reflexivity.
      - rewrite Z.max_r by lia. apply Z.quot_div_nonneg; lia. }
    rewrite Hq, health_set_health.
    destruct (Z.ltb_spec (health d - Z.max 0 (attack a - defence d) / 4) 0).
    - rewrite set_health_twice. f_equal. lia.
    - f_equal. lia. }
  assert (Hquarter : 0 <= Z.max 0 (attack a - defence d) / 4)
    by (apply Z.div_pos; lia).
  rewrite Hhob, Horc. unfold Character_successfulDef, Human_successfulDef,
    Dwarf_successfulDef, Elf_successfulDef, Orc_successfulDef. simpl negb.
  cbv iota. rewrite !health_set_health.
  split; [| lia].
  repeat constructor; rewrite ?health_set_health, ?set_health_twice;
    try exact Hid; try reflexivity; lia.
Qed.

Lemma reactions_bounds_witness :
  health legolas - 5 <= health (Hobbit_successfulDef 17 hero legolas)
  <= health legolas.
Proof.
  apply (reactions_bounds 17 hero legolas); vm_compute; discriminate.
Defined.

(** X4.  [setTimeOfDay] overwrites: the stats afterwards do not depend on those
    before, so a second call undoes the first; it sets the quadruple of
    the time of day and leaves health, weight and the contribution of the
    equipment to the totals as they are. *)
Theorem setTimeOfDay_overwrites (n m : bool) (c : Character) :
  setTimeOfDay n (setTimeOfDay m c) = setTimeOfDay n c
  /\ stat_quadruple (setTimeOfDay n c) = time_quadruple n
  /\ getTotalHealth (setTimeOfDay n c) = getTotalHealth c
  /\ getCurrentWeight (setTimeOfDay n c) = getCurrentWeight c
  /\ getTotalAttack (setTimeOfDay n c) - (if n then 45 else 25)
     = getTotalAttack c - attack c
  /\ getTotalDefence (setTimeOfDay n c) - (if n then 25 else 10)
     = getTotalDefence c - defence c.
Proof.
  repeat split; try (destruct n, m; reflexivity); try (destruct n; reflexivity).
  - unfold getTotalAttack. rewrite !fold_left_running_total.
    destruct n; simpl; destruct (weapon c), (armor c), (shield c); lia.
  - unfold getTotalDefence.
    destruct n; simpl; destruct (armor c), (shield c); lia.
Qed.

(** ** Picking up and dropping, composed *)

Lemma sumZ_snoc {A : Type} (f : A -> Z) (l : list A) (x : A) :
  sumZ f (l ++ [x]) = sumZ f l + f x.
Proof.
  unfold sumZ. induction l as [|y l IH]; simpl; [lia |]. rewrite IH. lia.
Qed.

(** X5.  The carried weight stays within the base strength: if it is within it
    before [pickUp], and the weapon and the armor that a pickup may
    replace do not weigh less than nothing, it is within it afterwards,
    whether the item was accepted or not. *)
Theorem pickUp_keeps_weight_within_strength (c : Character) (it : ItemPtr) :
  getCurrentWeight c <= strength c ->
  0 <= if_equipped (fun w => weight (weapon_item w)) (weapon c) ->
  0 <= if_equipped (fun a => weight (armour_item (armour_of a))) (armor c) ->
  getCurrentWeight (pickUp c it).2 <= strength (pickUp c it).2.
Proof.
  intros Hinv Hw Ha. destruct (pickUp_cases c it) as [Hheavy | Hfits].
  - now rewrite (pickUp_too_heavy _ _ Hheavy).
  - rewrite (pickUp_fits _ _ Hfits). rewrite getCurrentWeight_sum in Hinv.
    destruct it; simpl snd; rewrite getCurrentWeight_sum;
      unfold spec_equippedWeight in *; simpl in *;
      rewrite ?sumZ_snoc; lia.
Qed.

Lemma pickUp_keeps_weight_within_strength_witness :
  getCurrentWeight (pickUp hero_in_leather (PtrArmour PlateArmor)).2
  <= strength (pickUp hero_in_leather (PtrArmour PlateArmor)).2.
Proof.
  apply (pickUp_keeps_weight_within_strength hero_in_leather
           (PtrArmour PlateArmor)); vm_compute; discriminate.
Defined.

(** X6.  Picking up a ring and dropping the last ring gives the character back
    except for the inventory, which keeps the ring. *)
Theorem pickUp_ring_then_drop (c c' : Character) (r : Ring) :
  pickUp c (PtrRing r) = (true, c') ->
  dropRing c' (Z.of_nat (length (ring c)))
  = set_inventory (inventory c ++ [PtrRing r]) c.
Proof.
  intros H. destruct (pickUp_accepted _ _ _ H) as [_ ->].
  unfold dropRing. simpl ring. rewrite length_app. simpl length.
  replace ((0 <=? Z.of_nat (length (ring c)))
           && (Z.of_nat (length (ring c))
               <? Z.of_nat (length (ring c) + 1)))
    with true
    by (symmetry; apply andb_true_iff; split;
        [apply Z.leb_le | apply Z.ltb_lt]; lia).
  rewrite Nat2Z.id.
  pose proof (delete_middle (ring c) [] r) as E. rewrite app_nil_r in E.
  simpl. rewrite E.
  destruct c; reflexivity.
Qed.

Lemma pickUp_ring_then_drop_witness :
  dropRing hero_with_ring_of_life (Z.of_nat (length (ring hero)))
  = set_inventory (inventory hero ++ [PtrRing RingOfLife]) hero.
Proof.
  apply (pickUp_ring_then_drop hero hero_with_ring_of_life RingOfLife).
  reflexivity.
Defined.

(** X7.  What an accepted pickup does to the totals.  A ring adds its strength
    bonus to total strength and to total attack and its health delta to
    total health; a weapon exchanges the attack bonus of the weapon slot;
    an armour or a shield exchanges the defence bonus and the attack
    penalty of the armor slot.  The carried weight grows by the weight of
    the item less the weight of what it replaces. *)
Theorem pickUp_totals (c c' : Character) (it : ItemPtr) :
  pickUp c it = (true, c') ->
  let old_weapon f := if_equipped f (weapon c) in
  let old_armor f := if_equipped (fun a => f (armour_of a)) (armor c) in
  match it with
  | PtrItem _ => False
  | PtrWeapon w =>
    getTotalAttack c' = getTotalAttack c - old_weapon attack_inc + attack_inc w
    /\ getTotalDefence c' = getTotalDefence c
    /\ getTotalStrength c' = getTotalStrength c
    /\ getTotalHealth c' = getTotalHealth c
    /\ getCurrentWeight c'
       = getCurrentWeight c - old_weapon (fun w => weight (weapon_item w))
         + weight (weapon_item w)
  | PtrArmour a | PtrShield (mkShield a) =>
    getTotalAttack c' = getTotalAttack c + old_armor attack_dec - attack_dec a
    /\ getTotalDefence c'
       = getTotalDefence c - old_armor defence_inc + defence_inc a
    /\ getTotalStrength c' = getTotalStrength c
    /\ getTotalHealth c' = getTotalHealth c
    /\ getCurrentWeight c'
       = getCurrentWeight c - old_armor (fun a => weight (armour_item a))
         + weight (armour_item a)
  | PtrRing r =>
    getTotalAttack c' = getTotalAttack c + strength_inc r
    /\ getTotalDefence c' = getTotalDefence c
    /\ getTotalStrength c' = getTotalStrength c + strength_inc r
    /\ getTotalHealth c' = getTotalHealth c + ring_health r
    /\ getCurrentWeight c' = getCurrentWeight c + weight (ring_item r)
  end.
Proof.
  intros H. destruct (pickUp_accepted _ _ _ H) as [_ Hc'].
  cbv zeta.
  destruct it as [i | w | a | [a] | r]; [contradiction | subst c' ..];
    unfold getTotalAttack, getTotalDefence, getTotalStrength, getTotalHealth,
      getCurrentWeight;
    rewrite !fold_left_running_total; simpl;
    rewrite ?sumZ_snoc;
    destruct (weapon c), (armor c), (shield c); simpl; repeat split; lia.
Qed.

Lemma pickUp_totals_witness :
  getTotalStrength hero_with_ring_of_strength
  = getTotalStrength hero + strength_inc RingOfStrength.
Proof.
  apply (pickUp_totals hero hero_with_ring_of_strength
           (PtrRing RingOfStrength)).
  reflexivity.
Defined.

Lemma sumZ_ext_map {A : Type} (f : A -> Z) (l l' : list A) :
  map f l' = map f l -> sumZ f l' = sumZ f l.
Proof.
  revert l'. induction l as [|x l IH]; intros [|x' l'] H; try discriminate;
    [reflexivity |].
  injection H as Hx Hl. unfold sumZ in *. simpl. rewrite Hx.
  f_equal. now apply IH.
Qed.

Lemma pickUp_flag (c : Character) (it : ItemPtr) :
  (pickUp c it).1
  = negb (spec_equippedWeight c + weight (item_of it) >? strength c)
    && recognised it.
Proof.
  destruct (pickUp_cases c it) as [Hheavy | Hfits].
  - rewrite (pickUp_too_heavy _ _ Hheavy).
    destruct (Z.gtb_spec (spec_equippedWeight c + weight (item_of it))
                (strength c)); [reflexivity | lia].
  - rewrite (pickUp_fits _ _ Hfits).
    destruct (Z.gtb_spec (spec_equippedWeight c + weight (item_of it))
                (strength c)); [lia |].
    destruct it; reflexivity.
Qed.

(** X8.  The strength bonuses of the rings worn never enter the weight test of
    [pickUp]: with the rings exchanged for rings of the same weights,
    whatever their bonuses, the same items are accepted and rejected,
    although the total strength differs. *)
Theorem pickUp_ignores_strength_bonus (c : Character) (rings : list Ring)
    (it : ItemPtr) :
  map (fun r => weight (ring_item r)) rings
  = map (fun r => weight (ring_item r)) (ring c) ->
  (pickUp (set_ring rings c) it).1 = (pickUp c it).1
  /\ getTotalStrength (set_ring rings c) - getTotalStrength c
     = sumZ strength_inc rings - sumZ strength_inc (ring c).
Proof.
  intros Hw. split.
  - rewrite !pickUp_flag. unfold spec_equippedWeight. simpl.
    now rewrite (sumZ_ext_map _ _ _ Hw).
  - unfold getTotalStrength. rewrite !fold_left_running_total. simpl. lia.
Qed.

Lemma pickUp_ignores_strength_bonus_witness :
  (pickUp (set_ring [RingOfStrength] hero_with_ring_of_life)
     (PtrArmour PlateArmor)).1
  = (pickUp hero_with_ring_of_life (PtrArmour PlateArmor)).1.
Proof.
  apply (pickUp_ignores_strength_bonus hero_with_ring_of_life
           [RingOfStrength] (PtrArmour PlateArmor)).
  reflexivity.
Defined.

(** X9.  [dropRing] leaves the character as it is exactly when the index is
    outside the ring collection; otherwise one ring less is worn. *)
Theorem dropRing_bounds (c : Character) (index : Z) :
  (dropRing c index = c
   <-> index < 0 \/ Z.of_nat (length (ring c)) <= index)
  /\ (0 <= index < Z.of_nat (length (ring c)) ->
      S (length (ring (dropRing c index))) = length (ring c)
      /\ forall i : nat,
           ring (dropRing c index) !! i
           = if (Z.of_nat i <? index) then ring c !! i
             else ring c !! S i).
Proof.
  split.
  - split; [| apply dropRing_out_of_range].
    intros Heq. destruct (Z.lt_ge_cases index 0) as [Hlt | Hge]; [auto |].
    destruct (Z.le_gt_cases (Z.of_nat (length (ring c))) index) as [Hle | Hgt];
      [auto |].
    exfalso. assert (Hlen : length (ring (dropRing c index))
                            = length (ring c)) by (now rewrite Heq).
    unfold dropRing in Hlen.
    destruct (Z.leb_spec 0 index); [| lia].
    destruct (Z.ltb_spec index (Z.of_nat (length (ring c)))); [| lia].
    simpl in Hlen. rewrite length_delete in Hlen.
    + destruct (ring c); simpl in *; lia.
    + apply lookup_lt_is_Some. lia.
  - intros [Hge Hlt]. unfold dropRing.
    destruct (Z.leb_spec 0 index); [| lia].
    destruct (Z.ltb_spec index (Z.of_nat (length (ring c)))); [| lia].
    simpl. split.
    + rewrite length_delete by (apply lookup_lt_is_Some; lia).
      destruct (ring c); simpl in *; lia.
    + intros i. destruct (Z.ltb_spec (Z.of_nat i) index).
      * apply list_lookup_delete_lt. lia.
      * apply list_lookup_delete_ge. lia.
Qed.

(** X10.  The branch of [main] for the command [h] never touches the inventory,
    the health or the base stats; it takes a ring off exactly when rings
    are asked for and the number typed is between 1 and the number of
    rings worn, and then it is the ring of that number, counted from 1. *)
Theorem drop_command_effect (slot : ascii) (rnum : option Z) (p : Character) :
  let p' := drop_command slot rnum p in
  inventory p' = inventory p /\ health p' = health p
  /\ stat_quadruple p' = stat_quadruple p /\ strength p' = strength p
  /\ (ring p' <> ring p ->
      slot = "4"%char
      /\ exists n : Z,
           rnum = Some n /\ 1 <= n <= Z.of_nat (length (ring p))
           /\ ring p' = delete (Z.to_nat (n - 1)) (ring p))
  /\ (slot = "4"%char ->
      forall n : Z,
        rnum = Some n -> 1 <= n <= Z.of_nat (length (ring p)) ->
        S (length (ring p')) = length (ring p)).
Proof.
  cbv zeta.
  assert (Hslot : forall q : Character,
            ring q = ring p -> inventory q = inventory p ->
            health q = health p -> stat_quadruple q = stat_quadruple p ->
            strength q = strength p -> slot <> "4"%char ->
            inventory q = inventory p /\ health q = health p
            /\ stat_quadruple q = stat_quadruple p /\ strength q = strength p
            /\ (ring q <> ring p ->
                slot = "4"%char
                /\ exists n : Z,
                     rnum = Some n /\ 1 <= n <= Z.of_nat (length (ring p))
                     /\ ring q = delete (Z.to_nat (n - 1)) (ring p))
            /\ (slot = "4"%char ->
                forall n : Z,
                  rnum = Some n -> 1 <= n <= Z.of_nat (length (ring p)) ->
                  S (length (ring q)) = length (ring p))).
  { intros q Hr Hi Hh Hq Hs Hne. repeat split; try assumption; congruence. }
  unfold drop_command.
  destruct (Ascii.eqb_spec slot "1") as [-> | N1].
  { apply Hslot; try discriminate; unfold dropWeapon;
      destruct (weapon p); reflexivity. }
  destruct (Ascii.eqb_spec slot "2") as [-> | N2].
  { apply Hslot; try discriminate; unfold dropArmour;
      destruct (armor p); reflexivity. }
  destruct (Ascii.eqb_spec slot "3") as [-> | N3].
  { apply Hslot; try discriminate; unfold dropShield;
      destruct (shield p); reflexivity. }
  destruct (Ascii.eqb_spec slot "4") as [-> | N4];
    [| apply Hslot; auto].
  assert (Hkeep : forall q : Character,
            q = p ->
            (forall n : Z, rnum = Some n ->
                           1 <= n <= Z.of_nat (length (ring p)) -> False) ->
            inventory q = inventory p /\ health q = health p
            /\ stat_quadruple q = stat_quadruple p /\ strength q = strength p
            /\ (ring q <> ring p ->
                "4"%char = "4"%char
                /\ exists n : Z,
                     rnum = Some n /\ 1 <= n <= Z.of_nat (length (ring p))
                     /\ ring q = delete (Z.to_nat (n - 1)) (ring p))
            /\ ("4"%char = "4"%char ->
                forall n : Z,
                  rnum = Some n -> 1 <= n <= Z.of_nat (length (ring p)) ->
                  S (length (ring q)) = length (ring p))).
  { intros q -> Hno. repeat split; try congruence.
    intros _ n Hn Hrange. destruct (Hno n Hn Hrange). }
  destruct (ring p) as [|r0 rs] eqn:Hring.
  { rewrite <- Hring in *. apply Hkeep; [reflexivity |].
    intros n _ Hn. rewrite Hring in Hn. simpl in Hn. lia. }
  rewrite <- Hring in *.
  destruct rnum as [n|]; [| apply Hkeep; [reflexivity | discriminate]].
  destruct (Z.ltb_spec n 1) as [Hlow | Hlow]; simpl orb.
  { apply Hkeep; [reflexivity |]. intros n' [= <-] Hn. lia. }
  destruct (Z.gtb_spec n (Z.of_nat (length (ring p)))) as [Hhigh | Hhigh].
  { apply Hkeep; [reflexivity |]. intros n' [= <-] Hn. lia. }
  assert (Hin : 0 <= n - 1 < Z.of_nat (length (ring p))) by lia.
  assert (Hd : dropRing p (n - 1)
               = set_ring (delete (Z.to_nat (n - 1)) (ring p)) p).
  { unfold dropRing. destruct (Z.leb_spec 0 (n - 1)); [| lia].
    destruct (Z.ltb_spec (n - 1) (Z.of_nat (length (ring p)))); [| lia].
    reflexivity. }
  rewrite Hd. simpl.
  repeat split.
  - exists n. repeat split; auto; lia.
  - intros _ n' [= <-] _.
    rewrite length_delete by (apply lookup_lt_is_Some; lia).
    destruct (ring p); simpl in *; lia.
Qed.

(** ** The grid, further *)

Lemma getSquare_new_Board (w h x y : Z) (sq : Square) :
  getSquare (new_Board w h) x y = Some sq
  <-> sq = new_Square /\ 0 <= x < h /\ 0 <= y < w.
Proof.
  unfold getSquare, at_index. simpl. split.
  - destruct (Z.ltb_spec x 0); [discriminate |].
    destruct (replicate (Z.to_nat h) _ !! Z.to_nat x) as [row|] eqn:Hrow;
      [| discriminate].
    apply lookup_replicate in Hrow. destruct Hrow as [-> Hx].
    destruct (Z.ltb_spec y 0); [discriminate |].
    intros Hsq. apply lookup_replicate in Hsq. destruct Hsq as [-> Hy].
    repeat split; lia.
  - intros (-> & Hx & Hy).
    destruct (Z.ltb_spec x 0); [lia |].
    rewrite lookup_replicate_2 by lia.
    destruct (Z.ltb_spec y 0); [lia |].
    apply lookup_replicate_2. lia.
Qed.

(** X11.  A board just built has a square exactly at the cells within its
    height and width, and each of them is empty: no enemy, no item, no
    player. *)
Theorem new_Board_bounds (w h x y : Z) (sq : Square) :
  getSquare (new_Board w h) x y = Some sq
  <-> sq = new_Square /\ 0 <= x < h /\ 0 <= y < w.
Proof. apply getSquare_new_Board. Qed.

Lemma getSquare_update (f : Square -> Square) (b : Board) (x y : Z)
    (sq : Square) (x' y' : Z) :
  getSquare b x y = Some sq ->
  getSquare (update_square f b x y) x' y'
  = if decide ((x', y') = (x, y)) then Some (f sq) else getSquare b x' y'.
Proof.
  intros H. destruct (getSquare_Some _ _ _ _ H) as [Hx Hy].
  destruct (decide ((x', y') = (x, y))) as [[= -> ->] | Hne].
  - now apply getSquare_update_same.
  - now apply getSquare_update_other.
Qed.

(** Writing to the square of a cell and reading: the cell written to has
    the new square, every other cell has the square it had, no cell
    appears or disappears, and the dimensions are the same. *)
Theorem update_square_read (f : Square -> Square) (b : Board) (x y : Z)
    (sq : Square) :
  getSquare b x y = Some sq ->
  getSquare (update_square f b x y) x y = Some (f sq)
  /\ (forall x' y', (x', y') <> (x, y) ->
        getSquare (update_square f b x y) x' y' = getSquare b x' y')
  /\ (forall x' y', is_Some (getSquare (update_square f b x y) x' y')
                    <-> is_Some (getSquare b x' y'))
  /\ width (update_square f b x y) = width b
  /\ height (update_square f b x y) = height b.
Proof.
  intros H. split; [now apply getSquare_update_same |].
  split; [| split; [| split; reflexivity]].
  - intros x' y' Hne. rewrite (getSquare_update _ _ _ _ _ _ _ H).
    now destruct (decide ((x', y') = (x, y))).
  - intros x' y'. rewrite (getSquare_update _ _ _ _ _ _ _ H).
    destruct (decide ((x', y') = (x, y))) as [[= -> ->] | Hne];
      [| reflexivity].
    rewrite H. split; eauto.
Qed.

Lemma update_square_read_witness :
  getSquare (update_square (set_enemy (Some legolas)) small_board 1 0) 1 0
  = Some (set_enemy (Some legolas) new_Square).
Proof.
  apply (update_square_read (set_enemy (Some legolas)) small_board 1 0
           new_Square).
  reflexivity.
Defined.

(** Through an update that leaves the player member of a square alone,
    every cell refers to the player as before; likewise for the item. *)
Lemma has_player_at_update_frame (f : Square -> Square) (b : Board) (x y : Z)
    (sq : Square) (cell : Z * Z) :
  getSquare b x y = Some sq -> (forall s, has_player (f s) = has_player s) ->
  has_player_at (update_square f b x y) cell = has_player_at b cell.
Proof.
  intros H Hf. unfold has_player_at. destruct cell as [x' y']. simpl.
  rewrite (getSquare_update _ _ _ _ _ _ _ H).
  destruct (decide ((x', y') = (x, y))) as [[= -> ->] | Hne]; [| reflexivity].
  now rewrite H, Hf.
Qed.

Lemma has_player_at_set_same (p : bool) (b : Board) (x y : Z) (sq : Square)
    (cell : Z * Z) :
  getSquare b x y = Some sq ->
  has_player_at (update_square (set_has_player p) b x y) cell
  = if decide (cell = (x, y)) then p else has_player_at b cell.
Proof.
  intros H. unfold has_player_at. destruct cell as [x' y']. simpl.
  rewrite (getSquare_update _ _ _ _ _ _ _ H).
  now destruct (decide ((x', y') = (x, y))).
Qed.

Lemma defined_update (f : Square -> Square) (b : Board) (x y : Z)
    (sq : Square) (x' y' : Z) :
  getSquare b x y = Some sq ->
  is_Some (getSquare (update_square f b x y) x' y')
  <-> is_Some (getSquare b x' y').
Proof.
  intros H. rewrite (getSquare_update _ _ _ _ _ _ _ H).
  destruct (decide ((x', y') = (x, y))) as [[= -> ->] | Hne]; [| reflexivity].
  rewrite H. split; eauto.
Qed.

(** ** Board population, further *)

(** The search loop uses the draws two by two. *)
Lemma find_free_draws (occupied : Square -> bool) (b : Board)
    (draws : list nat) :
  forall x y x' y' rest,
    find_free occupied b x y draws = Some (x', y', rest) ->
    exists k : nat, (length draws = 2 * k + length rest)%nat
                    /\ rest = drop (2 * k) draws.
Proof.
  assert (Hn : forall n (ds : list nat), (length ds <= n)%nat ->
    forall x y x' y' rest,
      find_free occupied b x y ds = Some (x', y', rest) ->
      exists k : nat, (length ds = 2 * k + length rest)%nat
                      /\ rest = drop (2 * k) ds).
  { induction n as [|n IH]; intros ds Hlen x y x' y' rest H.
    - destruct ds; [| simpl in Hlen; lia]. simpl in H.
      destruct (getSquare b x y) as [sq|]; [| discriminate].
      destruct (occupied sq); [discriminate |].
      inversion H; subst. exists 0%nat. split; reflexivity.
    - destruct ds as [|rx [|ry ds]]; simpl in H;
        destruct (getSquare b x y) as [sq|]; try discriminate;
        destruct (occupied sq); try discriminate;
        try (inversion H; subst; exists 0%nat; split; reflexivity).
      destruct ((height b =? 0) || (width b =? 0)); [discriminate |].
      destruct (IH ds ltac:(simpl in Hlen; lia) _ _ _ _ _ H) as (k & Hk & Hd).
      exists (S k). split; [simpl; lia |].
      replace (2 * S k)%nat with (S (S (2 * k))) by lia. exact Hd. }
  intros. eapply (Hn (length draws)); eauto.
Qed.

Lemma draw_cell_draws (b : Board) (draws : list nat) (x y : Z)
    (rest : list nat) :
  draw_cell b draws = Some (x, y, rest) ->
  (length draws = 2 + length rest)%nat /\ rest = drop 2 draws.
Proof.
  unfold draw_cell. destruct draws as [|rx [|ry ds]]; try discriminate.
  destruct ((height b =? 0) || (width b =? 0)); [discriminate |].
  intros [= <- <- <-]. split; reflexivity.
Qed.

(** One placement, of an enemy or of an item: at least two draws are used,
    always an even number, the dimensions stay, and every cell refers to
    the player as before. *)
Lemma placement_draws (occupied : Square -> bool) (b : Board)
    (draws : list nat) (x0 y0 : Z) (d1 : list nat)
    (x y : Z) (d2 : list nat) :
  draw_cell b draws = Some (x0, y0, d1) ->
  find_free occupied b x0 y0 d1 = Some (x, y, d2) ->
  exists k : nat, (length draws = 2 * k + length d2)%nat /\ (1 <= k)%nat
                  /\ d2 = drop (2 * k) draws.
Proof.
  intros Hd Hf. destruct (draw_cell_draws _ _ _ _ _ Hd) as [Hl1 Hr1].
  destruct (find_free_draws _ _ _ _ _ _ _ _ Hf) as (k & Hl2 & Hr2).
  exists (S k). split; [lia |]. split; [lia |].
  rewrite Hr2, Hr1, drop_drop. f_equal. lia.
Qed.

Lemma place_enemies_draws (enemies : list Character) :
  forall b draws b' rest,
    place_enemies b enemies draws = Some (b', rest) ->
    (exists k : nat, (length draws = 2 * k + length rest)%nat
                     /\ (length enemies <= k)%nat
                     /\ rest = drop (2 * k) draws)
    /\ width b' = width b /\ height b' = height b
    /\ (forall cell, has_player_at b' cell = has_player_at b cell)
    /\ (forall x y, is_Some (getSquare b' x y) <-> is_Some (getSquare b x y)).
Proof.
  induction enemies as [|e enemies IH]; intros b draws b' rest H; simpl in H.
  - injection H as <- <-. split; [exists 0%nat |]; auto.
  - destruct (draw_cell b draws) as [[[x0 y0] d1]|] eqn:Hd; [| discriminate].
    destruct (find_free enemy_there b x0 y0 d1) as [[[x y] d2]|] eqn:Hfree;
      [| discriminate].
    destruct (find_free_stops_free _ _ _ _ _ _ _ _ Hfree) as (sq & Hsq & _).
    destruct (placement_draws _ _ _ _ _ _ _ _ _ Hd Hfree)
      as (k1 & Hl1 & Hk1 & Hr1).
    destruct (IH _ _ _ _ H) as ((k2 & Hl2 & Hk2 & Hr2) & Hw & Hh & Hp & Hdef).
    split; [| split; [exact Hw | split; [exact Hh | split]]].
    + exists (k1 + k2)%nat. split; [lia |]. split; [simpl; lia |].
      rewrite Hr2, Hr1, drop_drop. f_equal. lia.
    + intros cell. rewrite Hp.
      eapply has_player_at_update_frame; [exact Hsq | reflexivity].
    + intros x' y'. rewrite Hdef. eapply defined_update. exact Hsq.
Qed.

Lemma place_items_draws (items : list ItemPtr) :
  forall b draws b' rest,
    place_items b items draws = Some (b', rest) ->
    (exists k : nat, (length draws = 2 * k + length rest)%nat
                     /\ (length items <= k)%nat
                     /\ rest = drop (2 * k) draws)
    /\ width b' = width b /\ height b' = height b
    /\ (forall cell, has_player_at b' cell = has_player_at b cell)
    /\ (forall x y, is_Some (getSquare b' x y) <-> is_Some (getSquare b x y)).
Proof.
  induction items as [|i items IH]; intros b draws b' rest H; simpl in H.
  - injection H as <- <-. split; [exists 0%nat |]; auto.
  - destruct (draw_cell b draws) as [[[x0 y0] d1]|] eqn:Hd; [| discriminate].
    destruct (find_free enemy_or_item_there b x0 y0 d1) as [[[x y] d2]|]
      eqn:Hfree; [| discriminate].
    destruct (find_free_stops_free _ _ _ _ _ _ _ _ Hfree) as (sq & Hsq & _).
    destruct (placement_draws _ _ _ _ _ _ _ _ _ Hd Hfree)
      as (k1 & Hl1 & Hk1 & Hr1).
    destruct (IH _ _ _ _ H) as ((k2 & Hl2 & Hk2 & Hr2) & Hw & Hh & Hp & Hdef).
    split; [| split; [exact Hw | split; [exact Hh | split]]].
    + exists (k1 + k2)%nat. split; [lia |]. split; [simpl; lia |].
      rewrite Hr2, Hr1, drop_drop. f_equal. lia.
    + intros cell. rewrite Hp.
      eapply has_player_at_update_frame; [exact Hsq | reflexivity].
    + intros x' y'. rewrite Hdef. eapply defined_update. exact Hsq.
Qed.

Lemma populateBoard_frame (b : Board) (enemies : list Character)
    (items : list ItemPtr) (draws : list nat) (b' : Board)
    (rest : list nat) :
  populateBoard b enemies items draws = Some (b', rest) ->
  (exists k : nat, (length draws = 2 * k + length rest)%nat
                   /\ (length enemies + length items <= k)%nat
                   /\ rest = drop (2 * k) draws)
  /\ width b' = width b /\ height b' = height b
  /\ (forall cell, has_player_at b' cell = has_player_at b cell)
  /\ (forall x y, is_Some (getSquare b' x y) <-> is_Some (getSquare b x y)).
Proof.
  unfold populateBoard. intros H.
  destruct (place_enemies b enemies draws) as [[b1 d1]|] eqn:He;
    [| discriminate].
  destruct (place_enemies_draws _ _ _ _ _ He)
    as ((k1 & Hl1 & Hk1 & Hr1) & Hw1 & Hh1 & Hp1 & Hd1).
  destruct (place_items_draws _ _ _ _ _ H)
    as ((k2 & Hl2 & Hk2 & Hr2) & Hw2 & Hh2 & Hp2 & Hd2).
  split; [| split; [congruence | split; [congruence | split]]].
  - exists (k1 + k2)%nat. split; [lia |]. split; [lia |].
    rewrite Hr2, Hr1, drop_drop. f_equal. lia.
  - intros cell. now rewrite Hp2.
  - intros x y. now rewrite Hd2.
Qed.

(** X12.  [populateBoard] uses the draws from the front, two for each cell it
    tries and so at least two for each enemy and item; what it returns is
    the rest.  It changes neither the dimensions nor which cells exist nor
    which cell refers to the player. *)
Theorem populateBoard_uses_draws (b : Board) (enemies : list Character)
    (items : list ItemPtr) (draws : list nat) (b' : Board)
    (rest : list nat) :
  populateBoard b enemies items draws = Some (b', rest) ->
  (exists k : nat, (length draws = 2 * k + length rest)%nat
                   /\ (length enemies + length items <= k)%nat
                   /\ rest = drop (2 * k) draws)
  /\ width b' = width b /\ height b' = height b
  /\ (forall cell, has_player_at b' cell = has_player_at b cell)
  /\ (forall x y, is_Some (getSquare b' x y) <-> is_Some (getSquare b x y)).
Proof. apply populateBoard_frame. Qed.

Lemma populateBoard_uses_draws_witness :
  exists b' rest,
    populateBoard small_board small_enemies small_items small_draws
    = Some (b', rest)
    /\ width b' = width small_board.
Proof.
  assert (E : finished (populateBoard small_board small_enemies small_items
                          small_draws) = true)
    by (vm_compute; reflexivity).
  destruct (populateBoard small_board small_enemies small_items small_draws)
    as [[b' rest]|] eqn:H; [| discriminate].
  exists b', rest. split; [reflexivity |].
  apply (populateBoard_uses_draws _ _ _ _ _ _ H).
Defined.

Lemma length_bind_const {A B : Type} (f : A -> list B) (l : list A)
    (n : nat) :
  (forall x, length (f x) = n) -> length (l ≫= f) = (length l * n)%nat.
Proof.
  intros Hf. induction l as [|x l IH]; [reflexivity |].
  change ((x :: l) ≫= f) with (f x ++ (l ≫= f)).
  rewrite length_app, IH, Hf. simpl. lia.
Qed.

Lemma length_all_cells (b : Board) :
  length (all_cells b) = (Z.to_nat (height b) * Z.to_nat (width b))%nat.
Proof.
  unfold all_cells. rewrite (length_bind_const _ _ (Z.to_nat (width b))).
  - now rewrite length_seqZ.
  - intros r. now rewrite length_fmap, length_seqZ.
Qed.

(** X13.  A board just built has room for as many enemies and items as it has
    cells: with more of them [populateBoard] does not finish, whatever
    the draws. *)
Theorem populateBoard_capacity (w h : Z) (enemies : list Character)
    (items : list ItemPtr) (draws : list nat) (b' : Board)
    (rest : list nat) :
  populateBoard (new_Board w h) enemies items draws = Some (b', rest) ->
  (length enemies + length items <= Z.to_nat h * Z.to_nat w)%nat.
Proof.
  intros H.
  destruct (populateBoard_cells _ _ _ _ _ _ H)
    as (ecells & icells & HE & HI & Hnd & _).
  destruct (populateBoard_frame _ _ _ _ _ _ H) as (_ & _ & _ & _ & Hdef).
  assert (Hon : forall cell, cell ∈ ecells ++ icells ->
            cell ∈ all_cells (new_Board w h)).
  { intros cell Hin. apply elem_of_all_cells. unfold on_board. simpl.
    assert (Hsome : is_Some (getSquare b' cell.1 cell.2)).
    { apply elem_of_app in Hin. destruct Hin as [Hin | Hin].
      - destruct (Forall2_elem_l _ _ _ _ HE Hin) as (e & _ & He).
        unfold enemy_at in He.
        destruct (getSquare b' cell.1 cell.2); [eauto | discriminate].
      - destruct (Forall2_elem_l _ _ _ _ HI Hin) as (i & _ & Hi & _).
        unfold item_at in Hi.
        destruct (getSquare b' cell.1 cell.2); [eauto | discriminate]. }
    apply Hdef in Hsome. destruct Hsome as [sq Hsq].
    apply getSquare_new_Board in Hsq. tauto. }
  pose proof (submseteq_length _ _ (NoDup_submseteq _ _ Hnd Hon)) as Hlen.
  rewrite length_app, length_all_cells in Hlen. simpl in Hlen.
  rewrite (Forall2_length _ _ _ HE), (Forall2_length _ _ _ HI) in Hlen.
  exact Hlen.
Qed.

Lemma populateBoard_capacity_witness :
  (length small_enemies + length small_items <= Z.to_nat 2 * Z.to_nat 2)%nat.
Proof.
  assert (E : finished (populateBoard small_board small_enemies small_items
                          small_draws) = true)
    by (vm_compute; reflexivity).
  destruct (populateBoard small_board small_enemies small_items small_draws)
    as [[b' rest]|] eqn:H; [| discriminate].
  exact (populateBoard_capacity 2 2 _ _ _ _ _ H).
Defined.

(** X14.  On a board just built, [populateBoard] leaves no cell with both an
    enemy and an item, and the enemies and items on the board afterwards
    are those of the vectors, nothing else. *)
Theorem populateBoard_fresh_board (w h : Z) (enemies : list Character)
    (items : list ItemPtr) (draws : list nat) (b' : Board)
    (rest : list nat) :
  populateBoard (new_Board w h) enemies items draws = Some (b', rest) ->
  forall cell,
    ~ (is_Some (enemy_at b' cell) /\ is_Some (item_at b' cell))
    /\ (forall e, enemy_at b' cell = Some e -> e ∈ enemies)
    /\ (forall i, item_at b' cell = Some i -> i ∈ items).
Proof. apply populateBoard_new_Board. Qed.

Lemma populateBoard_fresh_board_witness :
  exists b' rest,
    populateBoard (new_Board 2 2) small_enemies small_items small_draws
    = Some (b', rest)
    /\ ~ (is_Some (enemy_at b' (0, 0)) /\ is_Some (item_at b' (0, 0))).
Proof.
  assert (E : finished (populateBoard (new_Board 2 2) small_enemies
                          small_items small_draws) = true)
    by (vm_compute; reflexivity).
  destruct (populateBoard (new_Board 2 2) small_enemies small_items
              small_draws) as [[b' rest]|] eqn:H; [| discriminate].
  exists b', rest. split; [reflexivity |].
  apply (populateBoard_fresh_board 2 2 _ _ _ _ _ H (0, 0)).
Defined.

(** *** Draws with which the placement finishes *)

Lemma find_free_at_free (occupied : Square -> bool) (b : Board) (x y : Z)
    (draws : list nat) (sq : Square) :
  getSquare b x y = Some sq -> occupied sq = false ->
  find_free occupied b x y draws = Some (x, y, draws).
Proof. intros Hsq Hocc. destruct draws; simpl; now rewrite Hsq, Hocc. Qed.

Lemma sweep_cell (w h k : Z) :
  0 < w -> 0 <= k < w * h ->
  0 <= k / w < h /\ 0 <= k mod w < w.
Proof.
  intros Hw Hk. split; [| apply Z.mod_pos_bound; lia].
  split; [apply Z.div_pos; lia |].
  apply Z.div_lt_upper_bound; lia.
Qed.

Lemma sweep_cell_inj (w j k : Z) :
  0 < w -> (j / w, j mod w) = (k / w, k mod w) -> j = k.
Proof.
  intros Hw [= Hd Hm].
  rewrite (Z.div_mod j w), (Z.div_mod k w) by lia. now rewrite Hd, Hm.
Qed.

Lemma draw_cell_sweep (w h : Z) (b : Board) (k : Z) (rest : list nat) :
  0 < w -> 0 <= k < w * h -> width b = w -> height b = h ->
  draw_cell b (Z.to_nat (k / w) :: Z.to_nat (k mod w) :: rest)
  = Some (k / w, k mod w, rest).
Proof.
  intros Hw Hk Hbw Hbh. destruct (sweep_cell w h k Hw Hk) as [Hr Hc].
  unfold draw_cell. rewrite Hbw, Hbh.
  destruct (Z.eqb_spec h 0); [lia |]. destruct (Z.eqb_spec w 0); [lia |].
  simpl orb. cbv iota. rewrite !Z2Nat.id by lia.
  rewrite !Z.rem_mod_nonneg by lia.
  now rewrite (Z.mod_small (k / w) h), (Z.mod_small (k mod w) w) by lia.
Qed.

Lemma cells_free_after (w h : Z) (f : Square -> Square) (b : Board) (k : Z)
    (sq : Square) :
  0 < w -> 0 <= k ->
  getSquare b (k / w) (k mod w) = Some sq ->
  cells_free_from w h b k ->
  cells_free_from w h (update_square f b (k / w) (k mod w)) (k + 1).
Proof.
  intros Hw Hk Hsq (Hbw & Hbh & Hfree). split; [exact Hbw |].
  split; [exact Hbh |]. intros j Hj.
  destruct (Hfree j ltac:(lia)) as (sq' & Hsq' & Hn).
  exists sq'. split; [| exact Hn].
  rewrite (getSquare_update _ _ _ _ _ _ _ Hsq).
  destruct (decide ((j / w, j mod w) = (k / w, k mod w))) as [Heq | Hne];
    [| exact Hsq'].
  apply sweep_cell_inj in Heq; lia.
Qed.

Lemma place_enemies_sweep (w h : Z) (enemies : list Character) :
  0 < w ->
  forall b k tail,
    0 <= k -> k + Z.of_nat (length enemies) <= w * h ->
    cells_free_from w h b k ->
    exists b',
      place_enemies b enemies (sweep_draws w k (length enemies) ++ tail)
      = Some (b', tail)
      /\ cells_free_from w h b' (k + Z.of_nat (length enemies)).
Proof.
  intros Hw. induction enemies as [|e enemies IH]; intros b k tail Hk Hfit Hfree.
  - exists b. simpl. rewrite Z.add_0_r. auto.
  - simpl length in *. simpl sweep_draws. simpl app.
    destruct Hfree as (Hbw & Hbh & Hcells).
    destruct (Hcells k ltac:(lia)) as (sq & Hsq & Hnoe & Hnoi).
    cbn [place_enemies].
    rewrite (draw_cell_sweep w h) by (auto; lia).
    rewrite (find_free_at_free _ _ _ _ _ sq Hsq)
      by (unfold enemy_there; now rewrite Hnoe).
    destruct (IH (update_square (set_enemy (Some e)) b (k / w) (k mod w))
                (k + 1) tail ltac:(lia) ltac:(lia)) as (b' & Hplace & Hfree').
    { eapply cells_free_after; eauto. repeat split; auto. }
    exists b'. split; [exact Hplace |].
    replace (k + Z.of_nat (S (length enemies)))
      with (k + 1 + Z.of_nat (length enemies)) by lia.
    exact Hfree'.
Qed.

Lemma place_items_sweep (w h : Z) (items : list ItemPtr) :
  0 < w ->
  forall b k tail,
    0 <= k -> k + Z.of_nat (length items) <= w * h ->
    cells_free_from w h b k ->
    exists b',
      place_items b items (sweep_draws w k (length items) ++ tail)
      = Some (b', tail)
      /\ cells_free_from w h b' (k + Z.of_nat (length items)).
Proof.
  intros Hw. induction items as [|i items IH]; intros b k tail Hk Hfit Hfree.
  - exists b. simpl. rewrite Z.add_0_r. auto.
  - simpl length in *. simpl sweep_draws. simpl app.
    destruct Hfree as (Hbw & Hbh & Hcells).
    destruct (Hcells k ltac:(lia)) as (sq & Hsq & Hnoe & Hnoi).
    cbn [place_items].
    rewrite (draw_cell_sweep w h) by (auto; lia).
    rewrite (find_free_at_free _ _ _ _ _ sq Hsq)
      by (unfold enemy_or_item_there; now rewrite Hnoe, Hnoi).
    destruct (IH (update_square (set_item (Some i)) b (k / w) (k mod w))
                (k + 1) tail ltac:(lia) ltac:(lia)) as (b' & Hplace & Hfree').
    { eapply cells_free_after; eauto. repeat split; auto. }
    exists b'. split; [exact Hplace |].
    replace (k + Z.of_nat (S (length items)))
      with (k + 1 + Z.of_nat (length items)) by lia.
    exact Hfree'.
Qed.

Lemma sweep_draws_app (w k : Z) (n m : nat) :
  sweep_draws w k (n + m)
  = sweep_draws w k n ++ sweep_draws w (k + Z.of_nat n) m.
Proof.
  revert k. induction n as [|n IH]; intros k.
  - simpl. now rewrite Z.add_0_r.
  - change (S n + m)%nat with (S (n + m)). cbn [sweep_draws app].
    rewrite IH.
    replace (k + Z.of_nat (S n)) with (k + 1 + Z.of_nat n) by lia.
    reflexivity.
Qed.

Lemma new_Board_cells_free (w h : Z) :
  0 < w -> cells_free_from w h (new_Board w h) 0.
Proof.
  intros Hw. repeat split. intros j Hj.
  exists new_Square. split; [| split; reflexivity].
  apply getSquare_new_Board. split; [reflexivity |].
  apply sweep_cell; lia.
Qed.

(** X15.  On a board just built that has at least as many cells as there are
    enemies and items, there are draws with which [populateBoard]
    finishes: those that name the cells in row-major order, two draws for
    each enemy and item, all of which are used. *)
Theorem populateBoard_finishes (w h : Z) (enemies : list Character)
    (items : list ItemPtr) :
  0 < w -> 0 < h ->
  Z.of_nat (length enemies + length items) <= w * h ->
  exists b',
    populateBoard (new_Board w h) enemies items
      (sweep_draws w 0 (length enemies + length items))
    = Some (b', []).
Proof.
  intros Hw Hh Hfit. unfold populateBoard. rewrite sweep_draws_app.
  destruct (place_enemies_sweep w h enemies Hw (new_Board w h) 0
              (sweep_draws w (0 + Z.of_nat (length enemies)) (length items)))
    as (b1 & -> & Hfree1); [lia | lia | now apply new_Board_cells_free |].
  destruct (place_items_sweep w h items Hw b1
              (0 + Z.of_nat (length enemies)) [])
    as (b' & Hplace & _); [lia | lia | exact Hfree1 |].
  rewrite app_nil_r in Hplace. eauto.
Qed.

Lemma populateBoard_finishes_witness :
  exists b',
    populateBoard (new_Board 12 12) main_enemies main_items
      (sweep_draws 12 0 (length main_enemies + length main_items))
    = Some (b', []).
Proof.
  apply (populateBoard_finishes 12 12 main_enemies main_items);
    vm_compute; first [reflexivity | discriminate].
Defined.

(** ** The command loop *)

(** The stages of one iteration. *)
Lemma step_stages (cmd : Command) (g g' : Game) :
  step cmd g = Some g' ->
  exists sq0 g2 g3 sq3,
    getSquare (board g) (playerRow g) (playerColumn g) = Some sq0
    /\ command cmd
         (set_board
            (update_square (set_has_player false) (board g)
               (playerRow g) (playerColumn g)) g) = Some g2
    /\ dayNight g2 = Some g3
    /\ getSquare (board g3) (playerRow g3) (playerColumn g3) = Some sq3
    /\ g' = set_board
              (update_square (set_has_player true) (board g3)
                 (playerRow g3) (playerColumn g3)) g3.
Proof.
  unfold step.
  destruct (getSquare (board g) (playerRow g) (playerColumn g))
    as [sq0|] eqn:Hsq0; [| discriminate].
  destruct (command cmd _) as [g2|] eqn:Hcmd; [| discriminate].
  destruct (dayNight g2) as [g3|] eqn:Hdn; [| discriminate].
  destruct (getSquare (board g3) (playerRow g3) (playerColumn g3))
    as [sq3|] eqn:Hsq3; [| discriminate].
  intros [= <-]. exists sq0, g2, g3, sq3. auto.
Qed.

Lemma same_shape_refl (b : Board) : same_shape b b.
Proof. repeat split; auto. Qed.

Lemma same_shape_trans (b1 b2 b3 : Board) :
  same_shape b1 b2 -> same_shape b2 b3 -> same_shape b1 b3.
Proof.
  intros (Hw1 & Hh1 & Hd1 & Hp1) (Hw2 & Hh2 & Hd2 & Hp2).
  split; [congruence | split; [congruence | split]].
  - intros x y. now rewrite Hd2.
  - intros cell. now rewrite Hp2.
Qed.

Lemma same_shape_update (f : Square -> Square) (b : Board) (x y : Z)
    (sq : Square) :
  getSquare b x y = Some sq -> (forall s, has_player (f s) = has_player s) ->
  same_shape b (update_square f b x y).
Proof.
  intros H Hf. split; [reflexivity | split; [reflexivity | split]].
  - intros x' y'. eapply defined_update. exact H.
  - intros cell. eapply has_player_at_update_frame; eauto.
Qed.

(** The case analysis of [command]: one goal for each way through the
    [switch], with the resulting game written out. *)
Ltac command_cases H :=
  match type of H with
  | command ?cmd ?g = Some ?g' =>
    destruct cmd; cbn [command] in H;
    repeat match type of H with
    | context [look_at_square ?x] =>
      unfold look_at_square in H; cbn [board playerRow playerColumn
        set_position] in H
    | context [match getSquare ?b ?x ?y with _ => _ end] =>
      let Hsq := fresh "Hsq" in
      destruct (getSquare b x y) eqn:Hsq; [| discriminate H]
    | context [match enemy ?s with _ => _ end] =>
      let He := fresh "He" in destruct (enemy s) eqn:He
    | context [match item ?s with _ => _ end] =>
      let Hi := fresh "Hi" in destruct (item s) eqn:Hi
    | context [match anyEnemiesLeft ?b with _ => _ end] =>
      let Hany := fresh "Hany" in
      let anyLeft := fresh "anyLeft" in
      destruct (anyEnemiesLeft b) as [anyLeft|] eqn:Hany; [| discriminate H]
    | context [pickUp ?p ?i] =>
      let Hpick := fresh "Hpick" in
      let accepted := fresh "accepted" in
      let picker := fresh "picker" in
      destruct (pickUp p i) as [accepted picker] eqn:Hpick
    | context [if defeated ?e then _ else _] =>
      let Hdef := fresh "Hdef" in destruct (defeated e) eqn:Hdef
    | context [if ?c >? ?d then _ else _] =>
      let Hc := fresh "Hc" in destruct (Z.gtb_spec c d) as [Hc | Hc]
    | context [if ?c <? ?d then _ else _] =>
      let Hc := fresh "Hc" in destruct (Z.ltb_spec c d) as [Hc | Hc]
    end;
    injection H as <-
  end.

Lemma same_shape_set_enemy (e : option Character) (b : Board) (x y : Z)
    (sq : Square) :
  getSquare b x y = Some sq ->
  same_shape b (update_square (set_enemy e) b x y).
Proof. intros H. eapply same_shape_update; [exact H | reflexivity]. Qed.

Lemma same_shape_set_enemy_twice (e1 e2 : option Character) (b : Board)
    (x y : Z) (sq : Square) :
  getSquare b x y = Some sq ->
  same_shape b
    (update_square (set_enemy e2) (update_square (set_enemy e1) b x y) x y).
Proof.
  intros H. eapply same_shape_trans; [eapply same_shape_set_enemy; exact H |].
  eapply same_shape_set_enemy. eapply getSquare_update_same. exact H.
Qed.

Lemma same_shape_set_item (i : option ItemPtr) (b : Board) (x y : Z)
    (sq : Square) :
  getSquare b x y = Some sq ->
  same_shape b (update_square (set_item i) b x y).
Proof. intros H. eapply same_shape_update; [exact H | reflexivity]. Qed.

Create HintDb game.
#[local] Hint Resolve same_shape_refl same_shape_set_enemy
  same_shape_set_enemy_twice same_shape_set_item : game.

(** After [command_cases]: the projections of the resulting game. *)
Ltac game_simpl :=
  cbn [board player playerRow playerColumn gold commandCount isNight gameOver
       count_command set_position set_player set_board set_gameOver
       set_isNight] in *.

(** No branch of the [switch] changes the shape of the board. *)
Lemma command_same_shape (cmd : Command) (g g' : Game) :
  command cmd g = Some g' -> same_shape (board g) (board g').
Proof.
  intros H. command_cases H; game_simpl;
    try match goal with
        | |- context [if ?c then _ else _] => destruct c
        end;
    eauto with game.
Qed.

Lemma is_Orc_setTimeOfDay (night : bool) (e : Character) :
  is_Orc (setTimeOfDay night e) = true.
Proof. destruct night; reflexivity. Qed.

Lemma setTimeOfDay_twice (night : bool) (e : Character) :
  setTimeOfDay night (setTimeOfDay night e) = setTimeOfDay night e.
Proof. destruct night; reflexivity. Qed.

Lemma enemies_retimed_refl (night : bool) (b : Board) :
  enemies_retimed night b b.
Proof. intros cell. now left. Qed.

Lemma enemies_retimed_trans (night : bool) (b1 b2 b3 : Board) :
  enemies_retimed night b1 b2 -> enemies_retimed night b2 b3 ->
  enemies_retimed night b1 b3.
Proof.
  intros H12 H23 cell.
  destruct (H23 cell) as [E23 | (e2 & He2 & Ho2 & E23)];
    destruct (H12 cell) as [E12 | (e1 & He1 & Ho1 & E12)].
  - left. congruence.
  - right. exists e1. repeat split; congruence.
  - right. exists e2. repeat split; congruence.
  - right. exists e1. repeat split; auto.
    assert (e2 = setTimeOfDay night e1) by congruence. subst e2.
    now rewrite E23, setTimeOfDay_twice.
Qed.

Lemma orc_setTimeOfDay_at_frame (night : bool) (b b' : Board)
    (cell : Z * Z) :
  orc_setTimeOfDay_at night b cell = Some b' ->
  same_shape b b' /\ enemies_retimed night b b'
  /\ forall c, item_at b' c = item_at b c.
Proof.
  unfold orc_setTimeOfDay_at. destruct cell as [x y]. simpl.
  destruct (getSquare b x y) as [sq|] eqn:Hsq; [| discriminate].
  assert (Hsame : Some b = Some b' ->
            same_shape b b' /\ enemies_retimed night b b'
            /\ forall c, item_at b' c = item_at b c).
  { intros [= <-]. auto using same_shape_refl, enemies_retimed_refl. }
  destruct (enemy sq) as [e|] eqn:He; [| exact Hsame].
  destruct (race e) eqn:Hrace; try exact Hsame.
  intros [= <-]. split; [eauto with game | split].
  - intros c. destruct (decide (c = (x, y))) as [-> | Hne].
    + right. exists e. split; [| split].
      * unfold enemy_at. simpl. now rewrite Hsq.
      * unfold is_Orc. now rewrite Hrace.
      * eapply enemy_at_set_enemy_same. exact Hsq.
    + left. eapply enemy_at_update_other; eauto.
  - intros c. eapply item_at_update_frame; [exact Hsq | reflexivity].
Qed.

Lemma orcs_setTimeOfDay_frame (night : bool) (cells : list (Z * Z)) :
  forall b b',
    orcs_setTimeOfDay night cells b = Some b' ->
    same_shape b b' /\ enemies_retimed night b b'
    /\ forall c, item_at b' c = item_at b c.
Proof.
  induction cells as [|cell cells IH]; intros b b' H; simpl in H.
  - injection H as <-. auto using same_shape_refl, enemies_retimed_refl.
  - destruct (orc_setTimeOfDay_at night b cell) as [b1|] eqn:H1;
      [| discriminate].
    destruct (orc_setTimeOfDay_at_frame _ _ _ _ H1) as (Hs1 & He1 & Hi1).
    destruct (IH _ _ H) as (Hs & He & Hi).
    split; [eauto using same_shape_trans | split].
    + eauto using enemies_retimed_trans.
    + intros c. now rewrite Hi.
Qed.

(** The day/night logic: the flag afterwards is that of the counter, the
    board is the same or the one the loops give, and nothing else
    changes. *)
Lemma dayNight_result (g g' : Game) :
  dayNight g = Some g' ->
  g' = set_board (board g')
         (set_isNight (negb (Z.rem (commandCount g) 10 <? 5)) g)
  /\ same_shape (board g) (board g')
  /\ (exists night, enemies_retimed night (board g) (board g'))
  /\ forall c, item_at (board g') c = item_at (board g) c.
Proof.
  unfold dayNight.
  destruct (Z.rem (commandCount g) 10 <? 5), (isNight g) eqn:Hn; simpl.
  - destruct (orcs_setTimeOfDay false _ _) as [b|] eqn:Hb; [| discriminate].
    intros [= <-]. destruct (orcs_setTimeOfDay_frame _ _ _ _ Hb) as (? & ? & ?).
    simpl. split; [reflexivity | split; [assumption | split; [| assumption]]].
    now exists false.
  - intros [= <-]. split; [destruct g; simpl in *; now subst |].
    split; [apply same_shape_refl | split; [| reflexivity]].
    exists false. apply enemies_retimed_refl.
  - intros [= <-]. split; [destruct g; simpl in *; now subst |].
    split; [apply same_shape_refl | split; [| reflexivity]].
    exists false. apply enemies_retimed_refl.
  - destruct (orcs_setTimeOfDay true _ _) as [b|] eqn:Hb; [| discriminate].
    intros [= <-]. destruct (orcs_setTimeOfDay_frame _ _ _ _ Hb) as (? & ? & ?).
    simpl. split; [reflexivity | split; [assumption | split; [| assumption]]].
    now exists true.
Qed.

(** *** Boards whose cells all exist *)

Lemma grid_complete_new_Board (w h : Z) : grid_complete (new_Board w h).
Proof.
  intros cell [Hx Hy]. simpl in Hx, Hy. exists new_Square.
  apply getSquare_new_Board. auto.
Qed.

Lemma grid_complete_defined (b b' : Board) :
  width b' = width b -> height b' = height b ->
  (forall x y, is_Some (getSquare b' x y) <-> is_Some (getSquare b x y)) ->
  grid_complete b -> grid_complete b'.
Proof.
  intros Hw Hh Hd Hc cell [Hx Hy]. apply Hd, Hc.
  split; [rewrite <- Hh | rewrite <- Hw]; assumption.
Qed.

Lemma grid_complete_same_shape (b b' : Board) :
  same_shape b b' -> grid_complete b -> grid_complete b'.
Proof. intros (Hw & Hh & Hd & _). now apply grid_complete_defined. Qed.

(** [populateBoard] on a board just built gives a board whose cells all
    exist. *)
Lemma grid_complete_populated (w h : Z) (enemies : list Character)
    (items : list ItemPtr) (draws : list nat) (b : Board) (rest : list nat) :
  populateBoard (new_Board w h) enemies items draws = Some (b, rest) ->
  grid_complete b /\ width b = w /\ height b = h.
Proof.
  intros H.
  destruct (populateBoard_frame _ _ _ _ _ _ H) as (_ & Hw & Hh & _ & Hd).
  split; [| split; [exact Hw | exact Hh]].
  eapply grid_complete_defined; eauto using grid_complete_new_Board.
Qed.

(** The loops over the board finish when its cells all exist. *)
Lemma scan_enemies_total (b : Board) (cells : list (Z * Z)) :
  (forall cell, cell ∈ cells -> is_Some (getSquare b cell.1 cell.2)) ->
  is_Some (scan_enemies b cells).
Proof.
  induction cells as [|cell cells IH]; intros H; simpl; [eauto |].
  destruct (H cell) as [sq Hsq]; [left |]. rewrite Hsq.
  destruct (enemy sq); [eauto |]. apply IH. intros c Hc. apply H. now right.
Qed.

Lemma anyEnemiesLeft_total (b : Board) :
  grid_complete b -> is_Some (anyEnemiesLeft b).
Proof.
  intros H. apply scan_enemies_total. intros cell Hin. apply H.
  now apply elem_of_all_cells.
Qed.

Lemma orcs_setTimeOfDay_total (night : bool) (cells : list (Z * Z)) :
  forall b,
    (forall cell, cell ∈ cells -> is_Some (getSquare b cell.1 cell.2)) ->
    is_Some (orcs_setTimeOfDay night cells b).
Proof.
  induction cells as [|cell cells IH]; intros b H; simpl; [eauto |].
  assert (H1 : is_Some (orc_setTimeOfDay_at night b cell)).
  { unfold orc_setTimeOfDay_at. destruct (H cell) as [sq Hsq]; [left |].
    rewrite Hsq. destruct (enemy sq) as [e|]; [| eauto].
    destruct (race e); eauto. }
  destruct H1 as [b1 H1]. rewrite H1.
  destruct (orc_setTimeOfDay_at_frame _ _ _ _ H1) as ((_ & _ & Hd & _) & _).
  apply IH. intros c Hc. apply Hd, H. now right.
Qed.

Lemma dayNight_total (g : Game) :
  grid_complete (board g) -> is_Some (dayNight g).
Proof.
  intros H. unfold dayNight.
  assert (T : forall night,
            is_Some (orcs_setTimeOfDay night (all_cells (board g)) (board g))).
  { intros night. apply orcs_setTimeOfDay_total. intros cell Hin. apply H.
    now apply elem_of_all_cells. }
  destruct (Z.rem (commandCount g) 10 <? 5), (isNight g); simpl; eauto.
  - destruct (T false) as [b ->]. eauto.
  - destruct (T true) as [b ->]. eauto.
Qed.

(** On a board with at least 12 rows and 12 columns whose cells all exist,
    no branch of the [switch] reads outside the grid. *)
Lemma command_total (cmd : Command) (g : Game) :
  grid_complete (board g) ->
  12 <= height (board g) -> 12 <= width (board g) ->
  0 <= playerRow g <= 11 -> 0 <= playerColumn g <= 11 ->
  is_Some (command cmd g).
Proof.
  intros Hc Hh Hw Hr Hcol.
  assert (Hcell : forall x y, 0 <= x <= 11 -> 0 <= y <= 11 ->
                    is_Some (getSquare (board g) x y)).
  { intros x y Hx Hy. apply (Hc (x, y)). split; simpl; lia. }
  destruct (Hcell _ _ Hr Hcol) as [sq Hsq].
  destruct cmd; cbn [command]; eauto.
  - destruct (Z.gtb_spec (playerRow g) 0); [| eauto].
    unfold look_at_square. cbn [board playerRow playerColumn set_position].
    destruct (Hcell (playerRow g - 1) (playerColumn g)) as [s ->];
      [lia | lia | eauto].
  - destruct (Z.ltb_spec (playerRow g) 11); [| eauto].
    unfold look_at_square. cbn [board playerRow playerColumn set_position].
    destruct (Hcell (playerRow g + 1) (playerColumn g)) as [s ->];
      [lia | lia | eauto].
  - destruct (Z.gtb_spec (playerColumn g) 0); [| eauto].
    unfold look_at_square. cbn [board playerRow playerColumn set_position].
    destruct (Hcell (playerRow g) (playerColumn g - 1)) as [s ->];
      [lia | lia | eauto].
  - destruct (Z.ltb_spec (playerColumn g) 11); [| eauto].
    unfold look_at_square. cbn [board playerRow playerColumn set_position].
    destruct (Hcell (playerRow g) (playerColumn g + 1)) as [s ->];
      [lia | lia | eauto].
  - rewrite Hsq. destruct (enemy sq) as [e|]; [| eauto]. cbv zeta.
    destruct (defeated _); [| eauto].
    match goal with
    | |- context [anyEnemiesLeft ?b] =>
      destruct (anyEnemiesLeft_total b) as [anyLeft ->]; [| eauto]
    end.
    eapply grid_complete_same_shape; [| exact Hc].
    eapply same_shape_set_enemy_twice. exact Hsq.
  - rewrite Hsq. destruct (item sq) as [i|]; [| eauto].
    destruct (pickUp (player g) i); eauto.
Qed.

(** What an iteration keeps of the board: the dimensions and which cells
    exist. *)
Lemma step_grid (cmd : Command) (g g' : Game) :
  step cmd g = Some g' ->
  width (board g') = width (board g) /\ height (board g') = height (board g)
  /\ forall x y, is_Some (getSquare (board g') x y)
                 <-> is_Some (getSquare (board g) x y).
Proof.
  intros H.
  destruct (step_stages _ _ _ H)
    as (sq0 & g2 & g3 & sq3 & Hsq0 & Hcmd & Hdn & Hsq3 & ->).
  destruct (command_same_shape _ _ _ Hcmd) as (Hw2 & Hh2 & Hd2 & _).
  destruct (dayNight_result _ _ Hdn) as (_ & (Hw3 & Hh3 & Hd3 & _) & _).
  game_simpl. cbn [width height update_square] in *.
  split; [congruence | split; [congruence |]].
  intros x y. rewrite (defined_update _ _ _ _ _ x y Hsq3), Hd3, Hd2.
  apply (defined_update _ _ _ _ _ x y Hsq0).
Qed.

(** X16.  After each iteration of the loop the day/night flag is the one of the
    command counter: it is day when the counter modulo 10 is below 5, and
    night otherwise. *)
Theorem step_time_follows_counter (cmd : Command) (g g' : Game) :
  step cmd g = Some g' ->
  isNight g' = negb (Z.rem (commandCount g') 10 <? 5).
Proof.
  intros H.
  destruct (step_stages _ _ _ H) as (sq0 & g2 & g3 & sq3 & _ & _ & Hdn & _ & ->).
  destruct (dayNight_result _ _ Hdn) as (-> & _). reflexivity.
Qed.

Lemma step_time_follows_counter_witness :
  exists g',
    step Look orc_game = Some g'
    /\ isNight g' = negb (Z.rem (commandCount g') 10 <? 5).
Proof.
  assert (E : finished (step Look orc_game) = true)
    by (vm_compute; reflexivity).
  destruct (step Look orc_game) as [g'|] eqn:H; [| discriminate].
  exists g'. split; [reflexivity |].
  apply (step_time_follows_counter Look orc_game g' H).
Defined.

(** *** The player's position *)

Lemma command_position (cmd : Command) (g g' : Game) :
  command cmd g = Some g' ->
  Z.abs (playerRow g' - playerRow g) + Z.abs (playerColumn g' - playerColumn g)
  <= 1
  /\ (0 <= playerRow g <= 11 -> 0 <= playerRow g' <= 11)
  /\ (0 <= playerColumn g <= 11 -> 0 <= playerColumn g' <= 11).
Proof. intros H. command_cases H; game_simpl; lia. Qed.

(** An iteration on a board with at least 12 rows and 12 columns whose
    cells all exist completes. *)
Lemma step_total (cmd : Command) (g : Game) :
  grid_complete (board g) ->
  12 <= height (board g) -> 12 <= width (board g) ->
  0 <= playerRow g <= 11 -> 0 <= playerColumn g <= 11 ->
  is_Some (step cmd g).
Proof.
  intros Hc Hh Hw Hr Hcol.
  destruct (Hc (playerRow g, playerColumn g)) as [sq0 Hsq0];
    [split; simpl; lia |].
  cbn [fst snd] in Hsq0.
  assert (Hc1 : grid_complete
                  (update_square (set_has_player false) (board g)
                     (playerRow g) (playerColumn g))).
  { apply (grid_complete_defined (board g));
      [reflexivity | reflexivity | | exact Hc].
    intros x y. apply (defined_update _ _ _ _ _ x y Hsq0). }
  unfold step. rewrite Hsq0. cbv zeta.
  destruct (command_total cmd
              (set_board
                 (update_square (set_has_player false) (board g)
                    (playerRow g) (playerColumn g)) g))
    as [g2 Hcmd]; [exact Hc1 | exact Hh | exact Hw | exact Hr | exact Hcol |].
  rewrite Hcmd.
  destruct (command_same_shape _ _ _ Hcmd) as (Hw2 & Hh2 & Hd2 & _).
  destruct (command_position _ _ _ Hcmd) as (_ & Hrow & Hcolumn).
  cbn [board playerRow playerColumn set_board width height update_square]
    in Hw2, Hh2, Hrow, Hcolumn.
  assert (Hc2 : grid_complete (board g2)).
  { apply (grid_complete_defined
             (update_square (set_has_player false) (board g)
                (playerRow g) (playerColumn g)));
      [exact Hw2 | exact Hh2 | exact Hd2 | exact Hc1]. }
  destruct (dayNight_total g2 Hc2) as [g3 Hdn]. rewrite Hdn.
  destruct (dayNight_result _ _ Hdn) as (E3 & (Hw3 & Hh3 & Hd3 & _) & _).
  assert (Hp : playerRow g3 = playerRow g2 /\ playerColumn g3 = playerColumn g2)
    by (rewrite E3; split; reflexivity).
  destruct Hp as [Hp1 Hp2].
  destruct (proj2 (Hd3 (playerRow g3) (playerColumn g3))) as [sq3 ->];
    [| eauto].
  apply (Hc2 (playerRow g3, playerColumn g3)).
  split; simpl; lia.
Qed.

(** X17.  An iteration of the loop moves the player by at most one cell, in one
    direction, and keeps the row and the column between 0 and 11, the
    bounds written into the [switch], whatever the size of the board.  On
    a board with at least 12 rows and 12 columns whose cells all exist,
    as the board of [main] is, every iteration completes, whatever the
    command: no read or write leaves the grid, the board afterwards has
    the same dimensions and all its cells, and the player is on it. *)
Theorem step_position (cmd : Command) (g : Game) :
  0 <= playerRow g <= 11 -> 0 <= playerColumn g <= 11 ->
  (forall g',
     step cmd g = Some g' ->
     0 <= playerRow g' <= 11 /\ 0 <= playerColumn g' <= 11
     /\ Z.abs (playerRow g' - playerRow g)
        + Z.abs (playerColumn g' - playerColumn g) <= 1)
  /\ (grid_complete (board g) ->
      12 <= height (board g) -> 12 <= width (board g) ->
      exists g',
        step cmd g = Some g'
        /\ grid_complete (board g')
        /\ height (board g') = height (board g)
        /\ width (board g') = width (board g)
        /\ on_board (board g') (playerRow g', playerColumn g')).
Proof.
  intros Hr Hc.
  assert (Hmove : forall g',
            step cmd g = Some g' ->
            0 <= playerRow g' <= 11 /\ 0 <= playerColumn g' <= 11
            /\ Z.abs (playerRow g' - playerRow g)
               + Z.abs (playerColumn g' - playerColumn g) <= 1).
  { intros g' H.
    destruct (step_stages _ _ _ H)
      as (sq0 & g2 & g3 & sq3 & Hsq0 & Hcmd & Hdn & Hsq3 & ->).
    destruct (command_position _ _ _ Hcmd) as (Hmove & Hrow & Hcol).
    destruct (dayNight_result _ _ Hdn) as (E3 & _).
    game_simpl.
    assert (Hp : playerRow g3 = playerRow g2
                 /\ playerColumn g3 = playerColumn g2)
      by (rewrite E3; split; reflexivity).
    destruct Hp as [Hp1 Hp2]. rewrite Hp1, Hp2 in *.
    repeat split; lia. }
  split; [exact Hmove |].
  intros Hgrid Hh Hw.
  destruct (step_total cmd g Hgrid Hh Hw Hr Hc) as [g' H].
  exists g'. split; [exact H |].
  destruct (step_grid _ _ _ H) as (Hw' & Hh' & Hd').
  destruct (Hmove _ H) as (Hr' & Hc' & _).
  split; [eapply grid_complete_defined; eauto |].
  split; [exact Hh' | split; [exact Hw' |]].
  split; simpl; lia.
Qed.

(** On the board of [main], from the first cell, the move down completes
    and takes the player to row 1. *)
Lemma step_position_witness :
  exists g',
    step MoveDown orc_game = Some g'
    /\ playerRow g' = 1
    /\ on_board (board g') (playerRow g', playerColumn g').
Proof.
  destruct main_board_populated as [rest Hpop].
  destruct (grid_complete_populated _ _ _ _ _ _ _ Hpop) as (Hgrid & Hw & Hh).
  assert (E : playerRow <$> step MoveDown orc_game = Some 1)
    by (vm_compute; reflexivity).
  destruct (step_position MoveDown orc_game) as [_ Htotal];
    [simpl; lia | simpl; lia |].
  destruct Htotal as (g' & H & _ & _ & _ & Hon).
  - exact Hgrid.
  - change (12 <= height main_board). lia.
  - change (12 <= width main_board). lia.
  - exists g'. rewrite H in E. injection E as E. auto.
Defined.



(** *** The square that refers to the player *)

Lemma new_Board_no_player (w h : Z) (cell : Z * Z) :
  has_player_at (new_Board w h) cell = false.
Proof.
  unfold has_player_at.
  destruct (getSquare (new_Board w h) cell.1 cell.2) as [sq|] eqn:Hsq;
    [| reflexivity].
  apply getSquare_new_Board in Hsq. now destruct Hsq as [-> _].
Qed.

(** X19.  If no square but the one at the player's position refers to the
    player before an iteration of the loop, then afterwards the square at
    the player's position does, and no other. *)
Theorem step_player_square (cmd : Command) (g g' : Game) :
  step cmd g = Some g' ->
  (forall cell, has_player_at (board g) cell = true ->
                cell = (playerRow g, playerColumn g)) ->
  forall cell,
    has_player_at (board g') cell = true
    <-> cell = (playerRow g', playerColumn g').
Proof.
  intros H Hone cell.
  destruct (step_stages _ _ _ H)
    as (sq0 & g2 & g3 & sq3 & Hsq0 & Hcmd & Hdn & Hsq3 & ->).
  destruct (command_same_shape _ _ _ Hcmd) as (_ & _ & _ & Hp2).
  destruct (dayNight_result _ _ Hdn) as (_ & (_ & _ & _ & Hp3) & _).
  game_simpl. rewrite (has_player_at_set_same _ _ _ _ _ _ Hsq3).
  destruct (decide (cell = (playerRow g3, playerColumn g3))) as [-> | Hne];
    [tauto |].
  rewrite Hp3, Hp2, (has_player_at_set_same _ _ _ _ _ _ Hsq0).
  destruct (decide (cell = (playerRow g, playerColumn g))) as [-> | Hne'].
  - split; [discriminate | tauto].
  - split; [| tauto]. intros Ht. apply Hone in Ht. contradiction.
Qed.

Lemma step_player_square_witness :
  exists g',
    step MoveDown (start_game small_board hero) = Some g'
    /\ (has_player_at (board g') (1, 0) = true
        <-> (1, 0) = (playerRow g', playerColumn g')).
Proof.
  assert (E : finished (step MoveDown (start_game small_board hero)) = true)
    by (vm_compute; reflexivity).
  destruct (step MoveDown (start_game small_board hero)) as [g'|] eqn:H;
    [| discriminate].
  exists g'. split; [reflexivity |].
  apply (step_player_square MoveDown (start_game small_board hero) g' H).
  intros cell Hcell. simpl in Hcell. unfold small_board in Hcell.
  rewrite new_Board_no_player in Hcell. discriminate.
Defined.

(** *** The search for a remaining enemy *)

Lemma scan_enemies_spec (b : Board) (cells : list (Z * Z)) (r : bool) :
  scan_enemies b cells = Some r ->
  r = true <-> exists cell, cell ∈ cells /\ is_Some (enemy_at b cell).
Proof.
  revert r. induction cells as [|cell cells IH]; intros r H; simpl in H.
  - injection H as <-. split; [discriminate |].
    intros (cell & Hin & _). inversion Hin.
  - destruct (getSquare b cell.1 cell.2) as [sq|] eqn:Hsq; [| discriminate].
    assert (Hat : enemy_at b cell = enemy sq)
      by (unfold enemy_at; now rewrite Hsq).
    destruct (enemy sq) as [e|] eqn:He.
    + injection H as <-. split; [| reflexivity]. intros _.
      exists cell. split; [left |]. rewrite Hat. eauto.
    + rewrite (IH _ H). split.
      * intros (c & Hin & Hc). exists c. split; [now right | exact Hc].
      * intros (c & Hin & Hc). apply elem_of_cons in Hin.
        destruct Hin as [-> | Hin]; [| eauto].
        rewrite Hat in Hc. destruct Hc as [e Hc]. discriminate.
Qed.

(** X20.  The search for a remaining enemy finishes on every board whose
    cells all exist, and whenever it finishes it reports an enemy exactly
    when some cell within the height and width of the board holds one. *)
Theorem anyEnemiesLeft_spec (b : Board) :
  (grid_complete b -> is_Some (anyEnemiesLeft b))
  /\ forall r,
       anyEnemiesLeft b = Some r ->
       (r = true <->
        exists cell, on_board b cell /\ is_Some (enemy_at b cell)).
Proof.
  split; [apply anyEnemiesLeft_total |].
  intros r H. rewrite (scan_enemies_spec _ _ _ H). split.
  - intros (cell & Hin & Hc). apply elem_of_all_cells in Hin. eauto.
  - intros (cell & Hon & Hc). apply elem_of_all_cells in Hon. eauto.
Qed.

(** On the small board after [populateBoard] the search finishes and finds
    an enemy; after the Orc and Legolas have fallen it finishes and finds
    none. *)
Lemma anyEnemiesLeft_spec_witness :
  (exists r,
     anyEnemiesLeft small_populated = Some r
     /\ r = true
     /\ exists cell,
          on_board small_populated cell
          /\ is_Some (enemy_at small_populated cell))
  /\ (exists g r,
        step player_hits elf_wounded = Some g
        /\ anyEnemiesLeft (board g) = Some r
        /\ r = false
        /\ ~ exists cell,
              on_board (board g) cell /\ is_Some (enemy_at (board g) cell)).
Proof.
  assert (Hpop : populateBoard small_board small_enemies small_items
                   small_draws = Some (small_populated, []))
    by (vm_compute; reflexivity).
  destruct (grid_complete_populated _ _ _ _ _ _ _ Hpop) as (Hgrid & _ & _).
  split.
  - destruct (anyEnemiesLeft_spec small_populated) as [Htotal Hspec].
    destruct (Htotal Hgrid) as [r Hr].
    assert (E : anyEnemiesLeft small_populated = Some true)
      by (vm_compute; reflexivity).
    assert (r = true) by congruence. subst r.
    exists true. split; [exact Hr | split; [reflexivity |]].
    now apply (Hspec true Hr).
  - assert (E : (fun g => anyEnemiesLeft (board g))
                <$> step player_hits elf_wounded = Some (Some false))
      by (vm_compute; reflexivity).
    destruct (step player_hits elf_wounded) as [g|] eqn:H; [| discriminate].
    injection E as E.
    exists g, false. split; [reflexivity | split; [exact E | split]];
      [reflexivity |].
    destruct (anyEnemiesLeft_spec (board g)) as [_ Hspec].
    intros Hex. apply (Hspec false E) in Hex. discriminate.
Defined.

(** *** Counter, gold and the end of the game *)

Lemma enemy_at_set_enemy_twice (e1 e2 : option Character) (b : Board)
    (x y : Z) (sq : Square) (cell : Z * Z) :
  getSquare b x y = Some sq ->
  enemy_at (update_square (set_enemy e2) (update_square (set_enemy e1) b x y)
              x y) cell
  = if decide (cell = (x, y)) then e2 else enemy_at b cell.
Proof.
  intros H.
  pose proof (getSquare_update_same (set_enemy e1) _ _ _ _ H) as H1.
  destruct (decide (cell = (x, y))) as [-> | Hne].
  - eapply enemy_at_set_enemy_same. exact H1.
  - rewrite (enemy_at_update_other _ _ _ _ _ _ H1 Hne).
    eapply enemy_at_update_other; eauto.
Qed.

Lemma enemy_at_set_enemy (e : option Character) (b : Board) (x y : Z)
    (sq : Square) (cell : Z * Z) :
  getSquare b x y = Some sq ->
  enemy_at (update_square (set_enemy e) b x y) cell
  = if decide (cell = (x, y)) then e else enemy_at b cell.
Proof.
  intros H. destruct (decide (cell = (x, y))) as [-> | Hne].
  - eapply enemy_at_set_enemy_same. exact H.
  - eapply enemy_at_update_other; eauto.
Qed.

Lemma enemy_at_square (b : Board) (x y : Z) (sq : Square) :
  getSquare b x y = Some sq -> enemy_at b (x, y) = enemy sq.
Proof. intros H. unfold enemy_at. cbn [fst snd]. now rewrite H. Qed.

(** What the [switch] does to the counter, the gold, the player, the
    enemies and the flag that ends the loop, by what [case 'j'] finds. *)
Lemma command_fight (cmd : Command) (g g' : Game) :
  command cmd g = Some g' ->
  match attacked_enemy cmd g with
  | Some e1 =>
    if defeated e1 then
      gold g' = gold g + 20 /\ commandCount g' = commandCount g
      /\ player g' = player g
      /\ struck_player cmd g = None
      /\ (forall cell,
            enemy_at (board g') cell
            = if decide (cell = (playerRow g, playerColumn g)) then None
              else enemy_at (board g) cell)
      /\ exists anyLeft,
           anyEnemiesLeft (board g') = Some anyLeft
           /\ gameOver g' = if anyLeft then gameOver g else true
    else
      gold g' = gold g /\ commandCount g' = commandCount g + 1
      /\ struck_player cmd g = Some (player g')
      /\ (forall cell,
            enemy_at (board g') cell
            = if decide (cell = (playerRow g, playerColumn g)) then Some e1
              else enemy_at (board g) cell)
      /\ gameOver g' = (if defeated (player g') then true else gameOver g)
  | None =>
    gold g' = gold g
    /\ (commandCount g' = commandCount g + 1
        \/ commandCount g' = commandCount g /\ (cmd = Exit \/ cmd = Invalid))
    /\ struck_player cmd g = None
    /\ (forall cell, enemy_at (board g') cell = enemy_at (board g) cell)
    /\ (gameOver g' = true <-> gameOver g = true \/ cmd = Exit)
  end.
Proof.
  intros H. command_cases H; game_simpl.
  all: unfold struck_player, attacked_enemy.
  all: try rewrite (enemy_at_square _ _ _ _ Hsq).
  all: try rewrite He.
  all: try rewrite Hdef.
  all: try solve [intuition (auto; discriminate)].
  - repeat split; eauto.
    intros cell. eapply enemy_at_set_enemy_twice. exact Hsq.
  - repeat split; auto.
    + intros cell. eapply enemy_at_set_enemy. exact Hsq.
    + now rewrite Hdef0.
  - repeat split; auto.
    + intros cell. eapply enemy_at_set_enemy. exact Hsq.
    + now rewrite Hdef0.
  - repeat split; auto; [| intuition discriminate].
    intros cell. destruct accepted; [| reflexivity].
    eapply enemy_at_update_frame; [exact Hsq | reflexivity].
Qed.

Lemma enemies_retimed_presence (night : bool) (b b' : Board) (cell : Z * Z) :
  enemies_retimed night b b' ->
  enemy_at b' cell = None <-> enemy_at b cell = None.
Proof.
  intros H. destruct (H cell) as [E | (e & He & _ & E)].
  - now rewrite E.
  - rewrite He, E. split; discriminate.
Qed.

(** The enemies of the board after an iteration, cell by cell, against
    those after the [switch] and before it. *)
Lemma step_enemy_presence (cmd : Command) (g g' : Game) :
  step cmd g = Some g' ->
  exists sq0 g2,
    getSquare (board g) (playerRow g) (playerColumn g) = Some sq0
    /\ command cmd
         (set_board
            (update_square (set_has_player false) (board g)
               (playerRow g) (playerColumn g)) g) = Some g2
    /\ gold g' = gold g2 /\ commandCount g' = commandCount g2
    /\ player g' = player g2 /\ gameOver g' = gameOver g2
    /\ width (board g') = width (board g2)
    /\ height (board g') = height (board g2)
    /\ (forall cell, enemy_at (board g') cell = None
                     <-> enemy_at (board g2) cell = None)
    /\ (forall cell,
          enemy_at (update_square (set_has_player false) (board g)
                      (playerRow g) (playerColumn g)) cell
          = enemy_at (board g) cell).
Proof.
  intros H.
  destruct (step_stages _ _ _ H)
    as (sq0 & g2 & g3 & sq3 & Hsq0 & Hcmd & Hdn & Hsq3 & ->).
  destruct (dayNight_result _ _ Hdn)
    as (E3 & (Hw & Hh & _) & (night & Hret) & _).
  exists sq0, g2. game_simpl.
  split; [exact Hsq0 | split; [exact Hcmd |]].
  split; [rewrite E3; reflexivity |]. split; [rewrite E3; reflexivity |].
  split; [rewrite E3; reflexivity |]. split; [rewrite E3; reflexivity |].
  repeat split; auto.
  - intros Hnone.
    rewrite (enemy_at_update_frame _ _ _ _ _ _ Hsq3) in Hnone
      by reflexivity.
    now apply (enemies_retimed_presence night (board g2) (board g3)).
  - intros Hnone.
    rewrite (enemy_at_update_frame _ _ _ _ _ _ Hsq3) by reflexivity.
    now apply (enemies_retimed_presence night (board g2) (board g3)).
  - intros cell. eapply enemy_at_update_frame; [exact Hsq0 | reflexivity].
Qed.

(** An iteration of the loop, by whether the enemy of the player's square
    was attacked and fell. *)
Lemma step_fight (cmd : Command) (g g' : Game) :
  step cmd g = Some g' ->
  (enemy_falls cmd g = true ->
   gold g' = gold g + 20 /\ commandCount g' = commandCount g
   /\ player g' = player g
   /\ enemy_at (board g') (playerRow g, playerColumn g) = None
   /\ (forall cell,
         cell <> (playerRow g, playerColumn g) ->
         (enemy_at (board g') cell = None <-> enemy_at (board g) cell = None))
   /\ (gameOver g' = true <->
       gameOver g = true
       \/ forall cell, on_board (board g') cell ->
                       enemy_at (board g') cell = None))
  /\ (enemy_falls cmd g = false ->
      gold g' = gold g
      /\ (commandCount g' = commandCount g + 1
          \/ commandCount g' = commandCount g
             /\ (cmd = Exit \/ cmd = Invalid))
      /\ (forall cell,
            enemy_at (board g') cell = None <-> enemy_at (board g) cell = None)
      /\ (forall p, struck_player cmd g = Some p -> player g' = p)
      /\ (gameOver g' = true <->
          gameOver g = true \/ cmd = Exit \/ player_falls cmd g = true)).
Proof.
  intros H.
  destruct (step_enemy_presence _ _ _ H)
    as (sq0 & g2 & Hsq0 & Hcmd & -> & -> & -> & -> & Hw & Hh & Hpres & Hb1).
  assert (Hon : forall cell, on_board (board g') cell
                             <-> on_board (board g2) cell).
  { intros cell. unfold on_board. now rewrite Hw, Hh. }
  pose proof (command_fight _ _ _ Hcmd) as Hf.
  assert (Ha : attacked_enemy cmd
                 (set_board
                    (update_square (set_has_player false) (board g)
                       (playerRow g) (playerColumn g)) g)
               = attacked_enemy cmd g).
  { unfold attacked_enemy. destruct cmd; try reflexivity. game_simpl.
    now rewrite Hb1. }
  assert (Hs : struck_player cmd
                 (set_board
                    (update_square (set_has_player false) (board g)
                       (playerRow g) (playerColumn g)) g)
               = struck_player cmd g).
  { unfold struck_player. rewrite Ha. destruct cmd; reflexivity. }
  rewrite Ha, Hs in Hf. game_simpl.
  unfold enemy_falls, player_falls.
  destruct (attacked_enemy cmd g) as [e1|] eqn:He1;
    [destruct (defeated e1) eqn:Hdef |].
  - destruct Hf as (Hg & Hc & Hp & _ & Hat & anyLeft & Hany & Hover).
    split; [intros _ | discriminate].
    repeat (split; [assumption |]).
    assert (Hgone : forall cell,
              cell <> (playerRow g, playerColumn g) ->
              (enemy_at (board g') cell = None
               <-> enemy_at (board g) cell = None)).
    { intros cell Hne. rewrite Hpres, Hat, Hb1.
      now destruct (decide (cell = (playerRow g, playerColumn g))). }
    split; [| split; [exact Hgone |]].
    { apply Hpres. rewrite Hat.
      now destruct (decide ((playerRow g, playerColumn g)
                            = (playerRow g, playerColumn g))). }
    rewrite Hover.
    pose proof (scan_enemies_spec _ _ _ Hany) as Hspec. split.
    + intros Ht. destruct anyLeft; [now left |]. right. intros cell Hc'.
      apply Hpres. destruct (enemy_at (board g2) cell) as [e|] eqn:He;
        [| reflexivity].
      exfalso. assert (false = true); [| discriminate].
      apply Hspec. exists cell. split; [| rewrite He; eauto].
      apply elem_of_all_cells. now apply Hon.
    + intros [Ht | Hnone]; [now destruct anyLeft |].
      destruct anyLeft; [| reflexivity]. exfalso.
      destruct (proj1 Hspec eq_refl) as (cell & Hin & [e He]).
      apply elem_of_all_cells in Hin. apply Hon in Hin.
      apply Hnone, Hpres in Hin. congruence.
  - destruct Hf as (Hg & Hc & Hp & Hat & Hover).
    split; [discriminate | intros _].
    split; [exact Hg | split; [now left | split; [| split]]].
    + intros cell. rewrite Hpres, Hat, Hb1.
      destruct (decide (cell = (playerRow g, playerColumn g))) as [-> | Hne];
        [| reflexivity].
      assert (Hwas : is_Some (enemy_at (board g)
                                (playerRow g, playerColumn g))).
      { unfold attacked_enemy in He1. destruct cmd; try discriminate.
        destruct (enemy_at (board g) (playerRow g, playerColumn g));
          [eauto | discriminate]. }
      destruct Hwas as [e Hwas]. rewrite Hwas. split; discriminate.
    + intros p Hp'. congruence.
    + rewrite Hp, Hover.
      assert (Hne : cmd <> Exit)
        by (intros ->; discriminate).
      destruct (defeated (player g2)), (gameOver g); intuition congruence.
  - destruct Hf as (Hg & Hc & Hp & Hat & Hover).
    split; [discriminate | intros _].
    split; [exact Hg | split; [exact Hc | split; [| split]]].
    + intros cell. now rewrite Hpres, Hat, Hb1.
    + intros p Hp'. congruence.
    + rewrite Hp, Hover. intuition discriminate.
Qed.



(** X22.  How the game ends.  An iteration that starts with the game running
    ends it exactly in three cases: the command is to exit; or the command
    is [j], the enemy of the player's square did not fall, and the test of
    [main] on the player after the enemy's [attack] (total health at most
    0) holds; or the command is [j], the test on the enemy of the player's
    square holds, and afterwards no cell within the height and width of
    the board holds an enemy. *)
Theorem step_game_over (cmd : Command) (g g' : Game) :
  step cmd g = Some g' ->
  gameOver g = false ->
  (gameOver g' = true <->
   cmd = Exit
   \/ player_falls cmd g = true
   \/ (enemy_falls cmd g = true
       /\ forall cell, on_board (board g') cell ->
                       enemy_at (board g') cell = None)).
Proof.
  intros H Hrun. destruct (step_fight _ _ _ H) as [Hfalls Hstands].
  destruct (enemy_falls cmd g) eqn:Hf.
  - destruct (Hfalls eq_refl) as (_ & _ & _ & _ & _ & Hover).
    assert (Hne : cmd <> Exit) by (intros ->; discriminate).
    assert (Hp : player_falls cmd g = false).
    { unfold enemy_falls in Hf. unfold player_falls, struck_player.
      destruct cmd; try reflexivity.
      destruct (attacked_enemy _ g) as [e1|]; [| reflexivity].
      now rewrite Hf. }
    rewrite Hover, Hrun, Hp. intuition discriminate.
  - destruct (Hstands eq_refl) as (_ & _ & _ & _ & Hover).
    rewrite Hover, Hrun. intuition discriminate.
Qed.

(** On the small board the Orc has fallen and Legolas has been hit once;
    the second hit takes his health to 0, no enemy is left, and the game
    is over. *)
Lemma step_game_over_witness :
  run [player_hits; MoveDown; MoveRight; player_hits] orc_wounded
  = Some elf_wounded
  /\ gameOver elf_wounded = false
  /\ enemy_falls player_hits elf_wounded = true
  /\ exists g',
       step player_hits elf_wounded = Some g'
       /\ gameOver g' = true
       /\ forall cell, on_board (board g') cell ->
                       enemy_at (board g') cell = None.
Proof.
  split; [vm_compute; reflexivity |].
  split; [reflexivity |].
  split; [vm_compute; reflexivity |].
  assert (E : gameOver <$> step player_hits elf_wounded = Some true)
    by (vm_compute; reflexivity).
  destruct (step player_hits elf_wounded) as [g'|] eqn:H; [| discriminate].
  injection E as E.
  exists g'. split; [reflexivity | split; [exact E |]].
  destruct (proj1 (step_game_over player_hits elf_wounded g' H eq_refl) E)
    as [Hx | [Hp | [_ Hnone]]]; [discriminate | | exact Hnone].
  exfalso. revert Hp. vm_compute. discriminate.
Defined.

(** *** Items on the board *)

Lemma item_at_set_item (i : option ItemPtr) (b : Board) (x y : Z)
    (sq : Square) (cell : Z * Z) :
  getSquare b x y = Some sq ->
  item_at (update_square (set_item i) b x y) cell
  = if decide (cell = (x, y)) then i else item_at b cell.
Proof.
  intros H. destruct (decide (cell = (x, y))) as [-> | Hne].
  - eapply item_at_set_item_same. exact H.
  - eapply item_at_update_other; eauto.
Qed.

Lemma item_at_set_enemy (e : option Character) (b : Board) (x y : Z)
    (sq : Square) (cell : Z * Z) :
  getSquare b x y = Some sq ->
  item_at (update_square (set_enemy e) b x y) cell = item_at b cell.
Proof. intros H. eapply item_at_update_frame; [exact H | reflexivity]. Qed.

Lemma item_at_set_enemy_twice (e1 e2 : option Character) (b : Board)
    (x y : Z) (sq : Square) (cell : Z * Z) :
  getSquare b x y = Some sq ->
  item_at (update_square (set_enemy e2) (update_square (set_enemy e1) b x y)
             x y) cell
  = item_at b cell.
Proof.
  intros H.
  rewrite (item_at_set_enemy _ _ _ _ _ _
             (getSquare_update_same (set_enemy e1) _ _ _ _ H)).
  now apply item_at_set_enemy with sq.
Qed.

Lemma item_at_square (b : Board) (x y : Z) (sq : Square) :
  getSquare b x y = Some sq -> item_at b (x, y) = item sq.
Proof. intros H. unfold item_at. cbn [fst snd]. now rewrite H. Qed.

Lemma pickUp_rejected_same (c : Character) (it : ItemPtr) :
  (pickUp c it).1 = false -> (pickUp c it).2 = c.
Proof.
  destruct (pickUp_cases c it) as [Hw | Hw].
  - now rewrite (pickUp_too_heavy _ _ Hw).
  - rewrite (pickUp_fits _ _ Hw). destruct it; simpl; congruence.
Qed.

(** What the [switch] does to the items on the board and, in [case 'g'],
    to the player. *)
Lemma command_items (cmd : Command) (g g' : Game) :
  command cmd g = Some g' ->
  match picked_item cmd g with
  | Some i =>
    player g' = (pickUp (player g) i).2
    /\ forall cell,
         item_at (board g') cell
         = if decide (cell = (playerRow g, playerColumn g)) then None
           else item_at (board g) cell
  | None =>
    (cmd = PickUpCmd -> player g' = player g)
    /\ forall cell, item_at (board g') cell = item_at (board g) cell
  end.
Proof.
  intros H. command_cases H; game_simpl.
  all: unfold picked_item.
  all: try rewrite (item_at_square _ _ _ _ Hsq).
  all: try rewrite Hi.
  all: try solve [split; [discriminate | reflexivity]].
  all: try solve [split; [discriminate |]; intros cell;
                  first [ now apply item_at_set_enemy_twice with s
                        | now apply item_at_set_enemy with s ]].
  - rewrite Hpick. cbn [fst]. destruct accepted.
    + rewrite Hpick. split; [reflexivity |].
      intros cell. eapply item_at_set_item. exact Hsq.
    + split; [| reflexivity]. intros _.
      pose proof (pickUp_rejected_same (player g) i) as R.
      rewrite Hpick in R. now apply R.
  - split; reflexivity.
Qed.

(** X23.  No iteration of the loop puts an item on the board or moves one.
    When the command is [g], the player's square holds an item and
    [pickUp] accepts it, the item is taken off that square, the player is
    the one [pickUp] leaves, and the item of every other cell stays.  In
    every other iteration the item of every cell stays, and an iteration
    in which [pickUp] rejects the item leaves the player as it is.  In
    particular, what is dropped or replaced does not come back to the
    ground. *)
Theorem step_items (cmd : Command) (g g' : Game) :
  step cmd g = Some g' ->
  (forall i,
     picked_item cmd g = Some i ->
     item_at (board g) (playerRow g, playerColumn g) = Some i
     /\ item_at (board g') (playerRow g, playerColumn g) = None
     /\ player g' = (pickUp (player g) i).2
     /\ forall cell,
          cell <> (playerRow g, playerColumn g) ->
          item_at (board g') cell = item_at (board g) cell)
  /\ (picked_item cmd g = None ->
      (forall cell, item_at (board g') cell = item_at (board g) cell)
      /\ (cmd = PickUpCmd -> player g' = player g)).
Proof.
  intros H.
  destruct (step_stages _ _ _ H)
    as (sq0 & g2 & g3 & sq3 & Hsq0 & Hcmd & Hdn & Hsq3 & ->).
  destruct (dayNight_result _ _ Hdn) as (E3 & _ & _ & Hi3).
  assert (Hp3 : player g3 = player g2) by (rewrite E3; reflexivity).
  assert (Hb1 : forall cell,
            item_at (update_square (set_has_player false) (board g)
                       (playerRow g) (playerColumn g)) cell
            = item_at (board g) cell).
  { intros cell. eapply item_at_update_frame; [exact Hsq0 | reflexivity]. }
  assert (Hb3 : forall cell,
            item_at (update_square (set_has_player true) (board g3)
                       (playerRow g3) (playerColumn g3)) cell
            = item_at (board g2) cell).
  { intros cell. rewrite <- Hi3.
    eapply item_at_update_frame; [exact Hsq3 | reflexivity]. }
  pose proof (command_items _ _ _ Hcmd) as Hc.
  assert (Hpi : picked_item cmd
                  (set_board
                     (update_square (set_has_player false) (board g)
                        (playerRow g) (playerColumn g)) g)
                = picked_item cmd g).
  { unfold picked_item. destruct cmd; try reflexivity. game_simpl.
    now rewrite Hb1. }
  rewrite Hpi in Hc. game_simpl. rewrite Hp3.
  destruct (picked_item cmd g) as [i0|] eqn:Hpicked.
  - destruct Hc as [Hp Hat]. split; [| discriminate].
    intros i [= <-].
    split; [| split; [| split; [exact Hp |]]].
    + unfold picked_item in Hpicked. destruct cmd; try discriminate.
      destruct (item_at (board g) (playerRow g, playerColumn g)) as [j|];
        [| discriminate].
      destruct (pickUp (player g) j).1; congruence.
    + rewrite Hb3, Hat. now destruct (decide _).
    + intros cell Hne. rewrite Hb3, Hat, Hb1. now destruct (decide _).
  - destruct Hc as [Hp Hat]. split; [discriminate |]. intros _.
    split; [| exact Hp]. intros cell. now rewrite Hb3, Hat, Hb1.
Qed.

(** On the small board the hero steps to the right, onto the cell of the
    sword, and picks it up. *)
Lemma step_items_witness :
  step MoveRight (start_game small_populated hero) = Some hero_at_sword
  /\ picked_item PickUpCmd hero_at_sword = Some (PtrWeapon Sword)
  /\ exists g',
       step PickUpCmd hero_at_sword = Some g'
       /\ item_at (board hero_at_sword) (0, 1) = Some (PtrWeapon Sword)
       /\ item_at (board g') (0, 1) = None
       /\ weapon (player g') = Some Sword.
Proof.
  split; [vm_compute; reflexivity |].
  assert (Hpi : picked_item PickUpCmd hero_at_sword = Some (PtrWeapon Sword))
    by (vm_compute; reflexivity).
  split; [exact Hpi |].
  assert (E : finished (step PickUpCmd hero_at_sword) = true)
    by (vm_compute; reflexivity).
  destruct (step PickUpCmd hero_at_sword) as [g'|] eqn:H; [| discriminate].
  exists g'. split; [reflexivity |].
  destruct (step_items PickUpCmd hero_at_sword g' H) as [Htaken _].
  destruct (Htaken _ Hpi) as (Hwas & Hgone & Hp & _).
  split; [exact Hwas | split; [exact Hgone |]].
  rewrite Hp. reflexivity.
Defined.

(** *** The enemies on the board *)

Lemma set_health_same (e : Character) : set_health (health e) e = e.
Proof. now destruct e. Qed.

Lemma setTimeOfDay_set_health (night : bool) (h : Z) (e : Character) :
  setTimeOfDay night (set_health h e) = set_health h (setTimeOfDay night e).
Proof. destruct night; reflexivity. Qed.

Lemma setTimeOfDay_last (n m : bool) (e : Character) :
  setTimeOfDay m (setTimeOfDay n e) = setTimeOfDay m e.
Proof. destruct n, m; reflexivity. Qed.

Lemma is_Orc_set_health (h : Z) (e : Character) :
  is_Orc (set_health h e) = is_Orc e.
Proof. reflexivity. Qed.

Lemma same_enemy_refl (e : Character) : same_enemy e e.
Proof. left. exists (health e). now rewrite set_health_same. Qed.

Lemma same_enemy_trans (e1 e2 e3 : Character) :
  same_enemy e1 e2 -> same_enemy e2 e3 -> same_enemy e1 e3.
Proof.
  intros [(h1 & ->) | (Ho1 & h1 & n1 & ->)]
         [(h2 & ->) | (Ho2 & h2 & n2 & ->)].
  - left. exists h2. apply set_health_twice.
  - right. split; [exact Ho2 |]. exists h2, n2.
    now rewrite setTimeOfDay_set_health, set_health_twice.
  - right. split; [exact Ho1 |]. exists h2, n1. apply set_health_twice.
  - right. split; [exact Ho1 |]. exists h2, n2.
    now rewrite setTimeOfDay_set_health, set_health_twice, setTimeOfDay_last.
Qed.

Lemma same_enemy_set_health (h : Z) (e : Character) :
  same_enemy e (set_health h e).
Proof. left. now exists h. Qed.

Lemma same_enemy_setTimeOfDay (night : bool) (e : Character) :
  is_Orc e = true -> same_enemy e (setTimeOfDay night e).
Proof.
  intros Ho. right. split; [exact Ho |]. exists (health e), night.
  destruct night; reflexivity.
Qed.

(** What [same_enemy] keeps and what it lets change. *)
Lemma same_enemy_fields (e e' : Character) :
  same_enemy e e' ->
  name e' = name e /\ is_Orc e' = is_Orc e /\ strength e' = strength e
  /\ weapon e' = weapon e /\ armor e' = armor e /\ shield e' = shield e
  /\ ring e' = ring e /\ inventory e' = inventory e
  /\ (is_Orc e = false ->
      race e' = race e /\ stat_quadruple e' = stat_quadruple e)
  /\ (is_Orc e = true ->
      stat_quadruple e' = stat_quadruple e
      \/ exists night,
           race e' = Orc night /\ stat_quadruple e' = time_quadruple night).
Proof.
  intros [(h & ->) | (Ho & h & night & ->)].
  - repeat split; auto.
  - rewrite is_Orc_set_health, is_Orc_setTimeOfDay, Ho.
    destruct night; repeat split; try discriminate;
      intros _; right; [exists true | exists false]; split; reflexivity.
Qed.

Lemma enemies_stay_refl (b : Board) : enemies_stay b b.
Proof. intros cell e' H. exists e'. split; [exact H | apply same_enemy_refl]. Qed.

Lemma enemies_stay_trans (b1 b2 b3 : Board) :
  enemies_stay b1 b2 -> enemies_stay b2 b3 -> enemies_stay b1 b3.
Proof.
  intros H12 H23 cell e3 He3.
  destruct (H23 _ _ He3) as (e2 & He2 & Hs23).
  destruct (H12 _ _ He2) as (e1 & He1 & Hs12).
  exists e1. split; [exact He1 | eapply same_enemy_trans; eauto].
Qed.

Lemma enemies_stay_frame (f : Square -> Square) (b : Board) (x y : Z)
    (sq : Square) :
  getSquare b x y = Some sq -> (forall s, enemy (f s) = enemy s) ->
  enemies_stay b (update_square f b x y).
Proof.
  intros Hsq Hf cell e' He'.
  rewrite (enemy_at_update_frame _ _ _ _ _ _ Hsq Hf) in He'.
  exists e'. split; [exact He' | apply same_enemy_refl].
Qed.

Lemma enemies_stay_attacked (r1 r2 : Q) (p e : Character) (b : Board)
    (x y : Z) (sq : Square) :
  getSquare b x y = Some sq -> enemy sq = Some e ->
  enemies_stay b
    (update_square (set_enemy (Some (Main.attack r1 r2 p e).1)) b x y).
Proof.
  intros Hsq He cell e' He'. rewrite (enemy_at_set_enemy _ _ _ _ _ _ Hsq) in He'.
  destruct (decide (cell = (x, y))) as [-> | Hne].
  - injection He' as <-. exists e. split.
    + unfold enemy_at. cbn [fst snd]. now rewrite Hsq.
    + rewrite attack_writes_health_only. apply same_enemy_set_health.
  - exists e'. split; [exact He' | apply same_enemy_refl].
Qed.

Lemma enemies_stay_removed (e1 : option Character) (b : Board) (x y : Z)
    (sq : Square) :
  getSquare b x y = Some sq ->
  enemies_stay b
    (update_square (set_enemy None) (update_square (set_enemy e1) b x y) x y).
Proof.
  intros Hsq cell e' He'.
  rewrite (enemy_at_set_enemy_twice _ _ _ _ _ _ _ Hsq) in He'.
  destruct (decide (cell = (x, y))); [discriminate |].
  exists e'. split; [exact He' | apply same_enemy_refl].
Qed.

Lemma enemies_stay_retimed (night : bool) (b b' : Board) :
  enemies_retimed night b b' -> enemies_stay b b'.
Proof.
  intros H cell e' He'. destruct (H cell) as [E | (e & He & Ho & E)].
  - exists e'. split; [congruence | apply same_enemy_refl].
  - exists e. split; [exact He |].
    assert (e' = setTimeOfDay night e) by congruence. subst e'.
    now apply same_enemy_setTimeOfDay.
Qed.

Lemma command_enemies_stay (cmd : Command) (g g' : Game) :
  command cmd g = Some g' -> enemies_stay (board g) (board g').
Proof.
  intros H. command_cases H; game_simpl;
    try match goal with
        | |- context [if ?c then _ else _] => destruct c
        end;
    eauto using enemies_stay_refl, enemies_stay_attacked,
      enemies_stay_removed.
  eapply enemies_stay_frame; [eassumption | reflexivity].
Qed.

Lemma step_enemies_stay (cmd : Command) (g g' : Game) :
  step cmd g = Some g' -> enemies_stay (board g) (board g').
Proof.
  intros H.
  destruct (step_stages _ _ _ H)
    as (sq0 & g2 & g3 & sq3 & Hsq0 & Hcmd & Hdn & Hsq3 & ->).
  destruct (dayNight_result _ _ Hdn) as (_ & _ & (night & Hret) & _).
  game_simpl.
  eapply enemies_stay_trans;
    [| eapply enemies_stay_frame; [exact Hsq3 | reflexivity]].
  eapply enemies_stay_trans; [| eapply enemies_stay_retimed; exact Hret].
  eapply enemies_stay_trans; [| exact (command_enemies_stay _ _ _ Hcmd)].
  game_simpl. eapply enemies_stay_frame; [exact Hsq0 | reflexivity].
Qed.

Lemma run_enemies_stay (cmds : list Command) :
  forall g g', run cmds g = Some g' -> enemies_stay (board g) (board g').
Proof.
  induction cmds as [|cmd cmds IH]; intros g g' H; simpl in H.
  - injection H as <-. apply enemies_stay_refl.
  - destruct (gameOver g); [injection H as <-; apply enemies_stay_refl |].
    destruct (step cmd g) as [g1|] eqn:Hstep; [| discriminate].
    eauto using enemies_stay_trans, step_enemies_stay.
Qed.

(** X24.  Enemies neither move nor change but in health and, for an Orc, in
    the stats of the time of day.  In a game started on a board just built
    and populated, every enemy on the board after any commands is on the
    cell [populateBoard] chose for it and is one of the enemies of the
    vector with another health, or, if that one is an Orc, that one after
    [setTimeOfDay] with another health.  So an enemy that is not an Orc
    has the class, attack, defence and chances it was created with, an Orc
    has those or the ones of a time of day, and name, strength, equipment,
    rings and inventory are never written.  If the enemy of the vector
    wears no rings, the test [main] makes for its defeat is the test of
    its health member against 0. *)
Theorem enemies_stay_as_placed (w h : Z) (enemies : list Character)
    (items : list ItemPtr) (draws : list nat) (b : Board)
    (rest : list nat) (p : Character) (cmds : list Command) (g : Game) :
  populateBoard (new_Board w h) enemies items draws = Some (b, rest) ->
  run cmds (start_game b p) = Some g ->
  forall cell e,
    enemy_at (board g) cell = Some e ->
    exists e0,
      e0 ∈ enemies /\ enemy_at b cell = Some e0
      /\ ((exists hl, e = set_health hl e0)
          \/ (is_Orc e0 = true
              /\ exists hl night, e = set_health hl (setTimeOfDay night e0)))
      /\ (is_Orc e0 = false ->
          race e = race e0 /\ stat_quadruple e = stat_quadruple e0)
      /\ (is_Orc e0 = true ->
          stat_quadruple e = stat_quadruple e0
          \/ exists night,
               race e = Orc night /\ stat_quadruple e = time_quadruple night)
      /\ name e = name e0 /\ strength e = strength e0
      /\ weapon e = weapon e0 /\ armor e = armor e0 /\ shield e = shield e0
      /\ ring e = ring e0 /\ inventory e = inventory e0
      /\ (ring e0 = [] -> (defeated e = true <-> health e <= 0)).
Proof.
  intros Hpop Hrun cell e He.
  destruct (run_enemies_stay _ _ _ Hrun _ _ He) as (e0 & He0 & Hsame).
  simpl in He0. exists e0.
  destruct (populateBoard_new_Board _ _ _ _ _ _ _ Hpop cell) as (_ & Hin & _).
  destruct (same_enemy_fields _ _ Hsame)
    as (Hn & _ & Hs & Hw & Ha & Hsh & Hring & Hinv & Hother & Horc).
  split; [now apply Hin | split; [exact He0 | split; [exact Hsame |]]].
  repeat (split; [assumption |]).
  intros Hbare.
  unfold defeated. rewrite getTotalHealth_sum, Hring, Hbare. simpl.
  rewrite Z.add_0_r. apply Z.leb_le.
Qed.

(** On the board of [main] the player walks to Bob on (1, 1), hits him and
    looks around twice; with the fifth command night falls. *)
Lemma enemies_stay_as_placed_witness :
  exists g,
    run [MoveDown; MoveRight; player_hits; Look; Look] orc_game = Some g
    /\ forall cell e,
         enemy_at (board g) cell = Some e ->
         exists e0,
           e0 ∈ main_enemies /\ enemy_at main_board cell = Some e0
           /\ name e = name e0 /\ inventory e = inventory e0.
Proof.
  destruct main_board_populated as [rest Hpop].
  assert (E : finished (run [MoveDown; MoveRight; player_hits; Look; Look]
                          orc_game) = true)
    by (vm_compute; reflexivity).
  destruct (run [MoveDown; MoveRight; player_hits; Look; Look] orc_game)
    as [g|] eqn:H; [| discriminate].
  exists g. split; [reflexivity |]. intros cell e He.
  destruct (enemies_stay_as_placed 12 12 main_enemies main_items main_draws
              main_board rest (new_Orc "Grom")
              [MoveDown; MoveRight; player_hits; Look; Look] g Hpop H
              cell e He)
    as (e0 & Hin & Hat & _ & _ & _ & Hn & _ & _ & _ & _ & _ & Hinv & _).
  exists e0. auto.
Defined.

(** The enemies of that run: Bob has lost 5 of his health of 60 and is
    otherwise the Bob of the vector, and Azog has the stats of the night. *)
Example bob_wounded_azog_at_night :
  match run [MoveDown; MoveRight; player_hits; Look; Look] orc_game with
  | Some g =>
    enemy_at (board g) (1, 1) = Some (set_health 55 (new_Human "Bob"))
    /\ enemy_at (board g) (5, 5)
       = Some (setTimeOfDay true (new_Orc "Azog"))
  | None => False
  end.
Proof. vm_compute. split; reflexivity. Qed.

(** *** The loop as a whole *)

Lemma run_over (cmds : list Command) (g : Game) :
  gameOver g = true -> run cmds g = Some g.
Proof. intros H. destruct cmds; simpl; [reflexivity | now rewrite H]. Qed.

(** X26.  Running the commands typed is running a first part and then, from the
    game it gives, the rest; and once the game is over the loop reads no
    further command: the game stays as it is. *)
Theorem run_app (cmds1 cmds2 : list Command) (g : Game) :
  run (cmds1 ++ cmds2) g = run cmds1 g ≫= run cmds2
  /\ (gameOver g = true -> run cmds1 g = Some g)
  /\ (forall g', step Exit g = Some g' -> gameOver g = false ->
                 run (Exit :: cmds2) g = Some g').
Proof.
  split; [| split; [apply run_over |]].
  - revert g. induction cmds1 as [|cmd cmds1 IH]; intros g; [reflexivity |].
    simpl. destruct (gameOver g) eqn:Hover.
    + simpl. symmetry. now apply run_over.
    + destruct (step cmd g) as [g1|]; [apply IH | reflexivity].
  - intros g' Hstep Hrun. simpl. rewrite Hrun, Hstep. apply run_over.
    destruct (step_stages _ _ _ Hstep)
      as (sq0 & g2 & g3 & sq3 & _ & Hcmd & Hdn & _ & ->).
    destruct (dayNight_result _ _ Hdn) as (-> & _).
    simpl in Hcmd. injection Hcmd as <-. reflexivity.
Qed.

(** ** Choosing the player *)

Lemma user_first_valid (userName : string) (choices : list Z) :
  forall p,
    user userName choices = Some p <->
    exists invalid choice rest,
      choices = invalid ++ choice :: rest
      /\ Forall (fun c => c < 1 \/ 5 < c) invalid
      /\ 1 <= choice <= 5
      /\ user userName [choice] = Some p.
Proof.
  induction choices as [|c choices IH]; intros p.
  - split; [discriminate |].
    intros (invalid & choice & rest & Heq & _). now destruct invalid.
  - destruct (decide (1 <= c <= 5)) as [Hvalid | Hinvalid].
    + assert (Hsame : user userName (c :: choices) = user userName [c]).
      { simpl. destruct (Z.eqb_spec c 1); [reflexivity |].
        destruct (Z.eqb_spec c 2); [reflexivity |].
        destruct (Z.eqb_spec c 3); [reflexivity |].
        destruct (Z.eqb_spec c 4); [reflexivity |].
        destruct (Z.eqb_spec c 5); [reflexivity | lia]. }
      rewrite Hsame. split.
      * intros H. exists [], c, choices. repeat split; auto; lia.
      * intros (invalid & choice & rest & Heq & Hinv & _ & H).
        destruct invalid as [|c' invalid].
        -- injection Heq as -> _. exact H.
        -- injection Heq as <- _. inversion Hinv; subst. lia.
    + assert (Hskip : user userName (c :: choices) = user userName choices).
      { simpl. destruct (Z.eqb_spec c 1); [lia |].
        destruct (Z.eqb_spec c 2); [lia |].
        destruct (Z.eqb_spec c 3); [lia |].
        destruct (Z.eqb_spec c 4); [lia |].
        destruct (Z.eqb_spec c 5); [lia | reflexivity]. }
      rewrite Hskip, IH. split.
      * intros (invalid & choice & rest & -> & Hinv & Hch & H).
        exists (c :: invalid), choice, rest.
        split; [reflexivity | split; [| auto]].
        constructor; [lia | exact Hinv].
      * intros (invalid & choice & rest & Heq & Hinv & Hch & H).
        destruct invalid as [|c' invalid].
        -- injection Heq as -> _. lia.
        -- injection Heq as <- ->. inversion Hinv; subst.
           exists invalid, choice, rest. auto.
Qed.

(** X27.  [user] returns the character of the first choice that is between 1
    and 5, whatever was typed before and after; the character has the
    name typed, carries nothing, and its total health is its health
    member, at least 40. *)
Theorem user_chooses_first_valid (userName : string) (choices : list Z)
    (p : Character) :
  user userName choices = Some p ->
  (exists invalid choice rest,
     choices = invalid ++ choice :: rest
     /\ Forall (fun c => c < 1 \/ 5 < c) invalid
     /\ 1 <= choice <= 5
     /\ race p = nth (Z.to_nat (choice - 1))
                   [Human; Elf; Dwarf; Hobbit; Orc false] Human)
  /\ name p = userName
  /\ getCurrentWeight p = 0 /\ inventory p = []
  /\ getTotalHealth p = health p /\ 40 <= health p
  /\ getTotalAttack p = attack p /\ getTotalDefence p = defence p.
Proof.
  intros H. apply user_first_valid in H.
  destruct H as (invalid & choice & rest & Heq & Hinv & Hch & H).
  assert (Hc : choice = 1 \/ choice = 2 \/ choice = 3 \/ choice = 4
               \/ choice = 5) by lia.
  split.
  - exists invalid, choice, rest. repeat split; auto; try lia.
    destruct Hc as [-> | [-> | [-> | [-> | ->]]]];
      injection H as <-; reflexivity.
  - destruct Hc as [-> | [-> | [-> | [-> | ->]]]];
      injection H as <-; repeat split; vm_compute; discriminate.
Qed.

Lemma user_chooses_first_valid_witness :
  name (new_Orc "Grom") = "Grom".
Proof.
  apply (user_chooses_first_valid "Grom" [0; 9; 5; 1] (new_Orc "Grom")).
  reflexivity.
Defined.

(** X28.  [user] returns exactly when a choice between 1 and 5 is typed. *)
Theorem user_returns (userName : string) (choices : list Z) :
  is_Some (user userName choices) <-> exists c, c ∈ choices /\ 1 <= c <= 5.
Proof.
  split.
  - intros [p H]. apply user_first_valid in H.
    destruct H as (invalid & choice & rest & -> & _ & Hch & _).
    exists choice. split; [| exact Hch].
    apply elem_of_app. right. left.
  - intros (c & Hin & Hc). induction choices as [|c' choices IH];
      [inversion Hin |].
    destruct (decide (1 <= c' <= 5)) as [Hv | Hnv].
    + simpl. destruct (Z.eqb_spec c' 1); [eauto |].
      destruct (Z.eqb_spec c' 2); [eauto |].
      destruct (Z.eqb_spec c' 3); [eauto |].
      destruct (Z.eqb_spec c' 4); [eauto |].
      destruct (Z.eqb_spec c' 5); [eauto | lia].
    + apply elem_of_cons in Hin. destruct Hin as [-> | Hin]; [lia |].
      simpl. destruct (Z.eqb_spec c' 1); [lia |].
      destruct (Z.eqb_spec c' 2); [lia |].
      destruct (Z.eqb_spec c' 3); [lia |].
      destruct (Z.eqb_spec c' 4); [lia |].
      destruct (Z.eqb_spec c' 5); [lia | auto].
Qed.
